(** * ITF match record: nullification engine, apply step and home/away classifier

    A shallow embedding of the data transformations of
    [itf_fix_nan.py] (the 0 -> NaN rules), of [apply_results] and
    [determine_home_away_status] in [itf_combined_scraper.py], and of
    [determine_status] in [itf_home_away_auditor.py].

    A pandas DataFrame is an ordered list of named columns, each a list of
    cells; a boolean Series is a list of booleans.  Statistic and score cells
    hold integer counts, text cells hold strings whose characters are code
    points below 256, and NaN is the missing marker.  Lookups that pandas
    answers with an exception return an error value. *)

From Stdlib Require Import ZArith String Ascii.
From stdpp Require Import base option list strings pretty.

Open Scope string_scope.
Open Scope Z_scope.

(** ** Cells, results, frames *)

Inductive cell : Type :=
  | NaN
  | Num (z : Z)
  | Str (s : string).

#[global] Instance cell_eq_dec : EqDecision cell.
Proof. solve_decision. Defined.

Inductive result (A : Type) : Type :=
  | Ok (a : A)
  | KeyError (k : string)
  | IndexError.
Arguments Ok {A} a.
Arguments KeyError {A} k.
Arguments IndexError {A}.

#[global] Instance result_ret : MRet result := λ A a, Ok a.
#[global] Instance result_bind : MBind result := λ A B f m,
  match m with
  | Ok a => f a
  | KeyError k => KeyError k
  | IndexError => IndexError
  end.

(** A frame is the list of its columns in header order. *)
Definition DataFrame : Type := list (string * list cell).

(** [df.columns] *)
Definition columns (df : DataFrame) : list string := df.*1.

(** [c in df.columns] *)
Definition has_col (df : DataFrame) (c : string) : bool :=
  bool_decide (c ∈ columns df).

Fixpoint lookup_col (df : DataFrame) (c : string) : option (list cell) :=
  match df with
  | [] => None
  | (c', vs) :: df' => if decide (c' = c) then Some vs else lookup_col df' c
  end.

(** [df[c]]: the column, or KeyError. *)
Definition getitem (df : DataFrame) (c : string) : result (list cell) :=
  match lookup_col df c with
  | Some vs => Ok vs
  | None => KeyError c
  end.

(** The cell of column [c] at row label [i], when both exist. *)
Definition cell_at (df : DataFrame) (c : string) (i : nat) : option cell :=
  lookup_col df c ≫= (.!! i).

(** [len(df.index)]; the index of a frame read from a file is 0..n-1. *)
Definition nrows (df : DataFrame) : nat :=
  match df with
  | [] => 0%nat
  | (_, vs) :: _ => length vs
  end.

(** [df.at[idx, c]] read. *)
Definition at_get (df : DataFrame) (idx : nat) (c : string) : result cell :=
  vs ← getitem df c;
  match vs !! idx with
  | Some v => Ok v
  | None => KeyError c
  end.

Fixpoint alter_col (f : list cell → list cell) (c : string) (df : DataFrame)
  : DataFrame :=
  match df with
  | [] => []
  | (c', vs) :: df' =>
      if decide (c' = c) then (c', f vs) :: df'
      else (c', vs) :: alter_col f c df'
  end.

(** Writing NaN into the rows of column [c] selected by [sel]. *)
Definition null_rows (sel : nat → bool) (c : string) (df : DataFrame)
  : DataFrame :=
  alter_col (imap (λ i v, if sel i then NaN else v)) c df.

(** [df.loc[mask, c] = np.nan]: the rows whose label the mask marks True. *)
Definition loc_set_nan (mask : list bool) (c : string) (df : DataFrame)
  : DataFrame :=
  null_rows (λ i, default false (mask !! i)) c df.

(** [df[c] = np.nan] for an existing column. *)
Definition col_set_nan (c : string) (df : DataFrame) : DataFrame :=
  null_rows (λ _, true) c df.

(** [df.at[idx, c] = np.nan] for an existing column. *)
Definition at_set_nan (idx : nat) (c : string) (df : DataFrame) : DataFrame :=
  null_rows (λ i, bool_decide (i = idx)) c df.

(** ** Series operations *)

Definition is_nan (v : cell) : bool :=
  match v with NaN => true | _ => false end.

(** [v == n] for a number [n]: False on NaN and on text. *)
Definition eq_num (n : Z) (v : cell) : bool :=
  match v with Num z => bool_decide (z = n) | _ => false end.

(** [v == s] for a string [s]. *)
Definition eq_str (s : string) (v : cell) : bool :=
  match v with Str x => bool_decide (x = s) | _ => false end.

Definition isna (s : list cell) : list bool := is_nan <$> s.
Definition notna (s : list cell) : list bool := (λ v, negb (is_nan v)) <$> s.
Definition isin (vals : list string) (s : list cell) : list bool :=
  (λ v, existsb (λ x, eq_str x v) vals) <$> s.
Definition ser_eq_num (n : Z) (s : list cell) : list bool := eq_num n <$> s.
Definition ser_eq_str (x : string) (s : list cell) : list bool := eq_str x <$> s.
Definition band (a b : list bool) : list bool := zip_with andb a b.
Definition bor (a b : list bool) : list bool := zip_with orb a b.
Definition bnot (a : list bool) : list bool := negb <$> a.

(** ** Python string helpers *)

Fixpoint startswith (p s : string) : bool :=
  match p, s with
  | EmptyString, _ => true
  | String a p', String b s' => if Ascii.eqb a b then startswith p' s' else false
  | String _ _, EmptyString => false
  end.

(** [sub in s] *)
Fixpoint str_in (sub s : string) : bool :=
  startswith sub s ||
  match s with
  | EmptyString => false
  | String _ s' => str_in sub s'
  end.

(** ** Column definitions of [itf_fix_nan.py] *)

Definition TB_STATS : list string :=
  ["tb_serve_pts_won"; "tb_serve_pts_played";
   "tb_return_pts_won"; "tb_return_pts_played"].

(** One entry of [CONDITIONAL_NAN_PAIRS]; only [bp] has the
    converted/opportunities pair. *)
Record nan_pair : Type := NanPair {
  saved_col : string;
  faced_col : string;
  conv_col : option string;
  opp_col : option string
}.

Definition CONDITIONAL_NAN_PAIRS : list (string * nan_pair) :=
  [("bp", NanPair "bp_saved" "bp_faced" (Some "bp_converted") (Some "bp_opportunities"));
   ("sp", NanPair "sp_saved" "sp_faced" None None);
   ("mp", NanPair "mp_saved" "mp_faced" None None)].

Definition SIDES : list string := ["home"; "away"].

(** The set numbers [1, 2, 3] as they are formatted into column names. *)
Definition SETS : list string := ["1"; "2"; "3"].

(** A loop over [xs] whose body may raise. *)
Fixpoint for_each {A : Type} (xs : list A)
    (body : A → DataFrame → result DataFrame) (df : DataFrame)
  : result DataFrame :=
  match xs with
  | [] => Ok df
  | x :: xs' => df' ← body x df; for_each xs' body df'
  end.

(** ** The nullification rules of [main] *)

(** [for col in cols: df.loc[mask, col] = np.nan] *)
Definition null_cols (mask : list bool) (cols : list string) (df : DataFrame)
  : DataFrame :=
  foldl (λ d col, loc_set_nan mask col d) df cols.

(** Rule 1: set-3 statistics of matches without a set 3. *)
Definition rule1 (stat_cols : list string) (df : DataFrame) : result DataFrame :=
  h3 ← getitem df "home_set3";
  ms ← getitem df "match_score";
  let no_s3 := bor (isna h3) (isin ["2-0"; "0-2"] ms) in
  ms ← getitem df "match_score";
  let no_s3 := bor no_s3 (isin ["1-0"; "0-1"; "0-0"] ms) in
  ms ← getitem df "match_score";
  let mask_11 := ser_eq_str "1-1" ms in
  h3 ← getitem df "home_set3";
  let no_s3_11 := band mask_11 (isna h3) in
  let no_s3 := bor no_s3 no_s3_11 in
  let s3_cols := filter (λ c, str_in "_s3_" c) stat_cols in
  Ok (null_cols no_s3 s3_cols df).

(** Rule 1b: set-2 statistics of matches without a set 2. *)
Definition rule1b (stat_cols : list string) (df : DataFrame) : result DataFrame :=
  h2 ← getitem df "home_set2";
  ms ← getitem df "match_score";
  let no_s2 := bor (isna h2) (isin ["0-0"] ms) in
  ms ← getitem df "match_score";
  let mask_10_01 := isin ["1-0"; "0-1"] ms in
  h2 ← getitem df "home_set2";
  let no_s2_partial := band mask_10_01 (isna h2) in
  let no_s2 := bor no_s2 no_s2_partial in
  let s2_cols := filter (λ c, str_in "_s2_" c) stat_cols in
  Ok (null_cols no_s2 s2_cols df).

(** [((df[h] == 7) & (df[a] == 6)) | ((df[h] == 6) & (df[a] == 7))] *)
Definition tiebreak_mask (df : DataFrame) (h_col a_col : string)
  : result (list bool) :=
  h ← getitem df h_col;
  a ← getitem df a_col;
  let left := band (ser_eq_num 7 h) (ser_eq_num 6 a) in
  h ← getitem df h_col;
  a ← getitem df a_col;
  Ok (bor left (band (ser_eq_num 6 h) (ser_eq_num 7 a))).

(** [f'{side}_s{set_n}_{stat}' for side in SIDES for stat in TB_STATS] *)
Definition tb_set_names (set_n : string) : list string :=
  side ← SIDES; stat ← TB_STATS; [side +:+ "_s" +:+ set_n +:+ "_" +:+ stat].

Definition tb_per_set_cols (df : DataFrame) (set_n : string) : list string :=
  filter (λ c, has_col df c) (tb_set_names set_n).

Definition rule2_set (set_n : string) (df : DataFrame) : result DataFrame :=
  let h_col := "home_set" +:+ set_n in
  let a_col := "away_set" +:+ set_n in
  if negb (has_col df h_col) then Ok df
  else
    h ← getitem df h_col;
    a ← getitem df a_col;
    let set_played := band (notna h) (notna a) in
    is_tb ← tiebreak_mask df h_col a_col;
    let not_tb := band set_played (bnot is_tb) in
    Ok (null_cols not_tb (tb_per_set_cols df set_n) df).

(** Rule 2: per-set tiebreak statistics of sets that were played without a
    tiebreak. *)
Definition rule2 (df : DataFrame) : result DataFrame :=
  for_each SETS rule2_set df.

(** [f'{side}_{stat}' for side in SIDES for stat in TB_STATS] *)
Definition overall_tb_names : list string :=
  side ← SIDES; stat ← TB_STATS; [side +:+ "_" +:+ stat].

(** [f'{side}_s1_mp_{stat}'] for the four sub-statistics. *)
Definition s1_mp_names : list string :=
  side ← SIDES; stat ← ["saved"; "faced"; "converted"; "opportunities"];
  [side +:+ "_s1_mp_" +:+ stat].

(** Rule 3: match-level tiebreak statistics of matches without a tiebreak.
    [has_tb_s3] stays the scalar [False] when there is no [home_set3]. *)
Definition rule3 (df : DataFrame) : result DataFrame :=
  has_tb_s1 ← tiebreak_mask df "home_set1" "away_set1";
  has_tb_s2 ← tiebreak_mask df "home_set2" "away_set2";
  has_tb ←
    (if has_col df "home_set3"
     then has_tb_s3 ← tiebreak_mask df "home_set3" "away_set3";
          Ok (bor (bor has_tb_s1 has_tb_s2) has_tb_s3)
     else Ok ((λ b, orb b false) <$> bor has_tb_s1 has_tb_s2));
  let no_tb_match := bnot has_tb in
  let overall_tb_cols := filter (λ c, has_col df c) overall_tb_names in
  Ok (null_cols no_tb_match overall_tb_cols df).

(** Rule 4: set-1 match-point columns are always NaN. *)
Definition rule4 (df : DataFrame) : DataFrame :=
  let s1_mp_cols := filter (λ c, has_col df c) s1_mp_names in
  foldl (λ d col, col_set_nan col d) df s1_mp_cols.

(** [if col in df.columns and df.at[idx, col] == 0: df.at[idx, col] = np.nan] *)
Definition at_null_if_zero (idx : nat) (col : string) (df : DataFrame)
  : result DataFrame :=
  if has_col df col then
    v ← at_get df idx col;
    if eq_num 0 v then Ok (at_set_nan idx col df) else Ok df
  else Ok df.

Section Engine.

(** Python's [int] on a text cell: the integer it denotes, or [None] where
    [int] raises ValueError. *)
Variable int_of_str : string → option Z.

(** [int(v)] under [except (ValueError, TypeError)]. *)
Definition py_int (v : cell) : option Z :=
  match v with
  | Num z => Some z
  | Str s => int_of_str s
  | NaN => None
  end.

Definition rule5_row (idx : nat) (df : DataFrame) : result DataFrame :=
  h_s1 ← at_get df idx "home_set1";
  a_s1 ← at_get df idx "away_set1";
  if is_nan h_s1 || is_nan a_s1 then Ok df
  else
    match py_int h_s1 with
    | None => Ok df
    | Some h =>
        match py_int a_s1 with
        | None => Ok df
        | Some a =>
            if bool_decide (a < h) then
              for_each ["mp_faced"; "mp_saved"]
                (λ stat, at_null_if_zero idx ("home" +:+ "_s2_" +:+ stat)) df
            else if bool_decide (h < a) then
              for_each ["mp_faced"; "mp_saved"]
                (λ stat, at_null_if_zero idx ("away" +:+ "_s2_" +:+ stat)) df
            else Ok df
        end
    end.

(** Rule 5: set-2 match points of the set-1 winner, zero cells only. *)
Definition rule5 (df : DataFrame) : result DataFrame :=
  for_each (seq 0 (nrows df)) rule5_row df.

End Engine.

(** The overall mask of rules 6-7:
    [(df[faced] == 0) & (df[saved] == 0) & df[saved].notna()] *)
Definition gate_overall (faced saved : string) (df : DataFrame)
  : result DataFrame :=
  if has_col df faced && has_col df saved then
    f ← getitem df faced;
    s ← getitem df saved;
    let m := band (ser_eq_num 0 f) (ser_eq_num 0 s) in
    s ← getitem df saved;
    let mask := band m (notna s) in
    Ok (loc_set_nan mask saved df)
  else Ok df.

(** The per-set mask of rules 6-7:
    [df[faced].notna() & (df[faced] == 0) & df[saved].notna() & (df[saved] == 0)] *)
Definition gate_set (faced saved : string) (df : DataFrame)
  : result DataFrame :=
  if has_col df faced && has_col df saved then
    f ← getitem df faced;
    let m := notna f in
    f ← getitem df faced;
    let m := band m (ser_eq_num 0 f) in
    s ← getitem df saved;
    let m := band m (notna s) in
    s ← getitem df saved;
    let mask := band m (ser_eq_num 0 s) in
    Ok (loc_set_nan mask saved df)
  else Ok df.

(** The body of the loop over [CONDITIONAL_NAN_PAIRS.items()] for one side. *)
Definition rule67_pair (side : string) (item : string * nan_pair)
    (df : DataFrame) : result DataFrame :=
  let cols := item.2 in
  df ← gate_overall (side +:+ "_" +:+ faced_col cols)
                    (side +:+ "_" +:+ saved_col cols) df;
  df ← match conv_col cols, opp_col cols with
       | Some conv, Some opp =>
           gate_overall (side +:+ "_" +:+ opp) (side +:+ "_" +:+ conv) df
       | _, _ => Ok df
       end;
  for_each SETS (λ set_n df,
    let prefix := "s" +:+ set_n in
    df ← gate_set (side +:+ "_" +:+ prefix +:+ "_" +:+ faced_col cols)
                  (side +:+ "_" +:+ prefix +:+ "_" +:+ saved_col cols) df;
    match conv_col cols, opp_col cols with
    | Some conv, Some opp =>
        gate_set (side +:+ "_" +:+ prefix +:+ "_" +:+ opp)
                 (side +:+ "_" +:+ prefix +:+ "_" +:+ conv) df
    | _, _ => Ok df
    end) df.

(** Rules 6-7: saved/converted cells that are zero beside a zero
    faced/opportunities cell. *)
Definition rule67 (df : DataFrame) : result DataFrame :=
  for_each SIDES (λ side, for_each CONDITIONAL_NAN_PAIRS (rule67_pair side)) df.

(** The rules of [main] in order; [stat_cols = list(df.columns[28:])] is
    computed once, before rule 1. *)
Definition engine_with (int_of_str : string → option Z)
    (stat_cols : list string) (df : DataFrame) : result DataFrame :=
  df ← rule1 stat_cols df;
  df ← rule1b stat_cols df;
  df ← rule2 df;
  df ← rule3 df;
  df ← Ok (rule4 df);
  df ← rule5 int_of_str df;
  rule67 df.

Definition engine (int_of_str : string → option Z) (df : DataFrame)
  : result DataFrame :=
  engine_with int_of_str (drop 28 (columns df)) df.

(** ** Relations between frames, and what the rules may write *)

(** [df_rel P S T]: [T] has the columns of [S], in the same order and with
    the same number of rows, and every cell of column [c] is related to the
    cell of [S] it comes from by [P c]. *)
Definition col_rel (P : string → cell → cell → Prop)
    (p q : string * list cell) : Prop :=
  p.1 = q.1 ∧ Forall2 (P p.1) p.2 q.2.

Definition df_rel (P : string → cell → cell → Prop) (S T : DataFrame) : Prop :=
  Forall2 (col_rel P) S T.

(** A cell relation that is a preorder on every column. *)
Definition cell_preorder (P : string → cell → cell → Prop) : Prop :=
  (∀ c v, P c v v) ∧ (∀ c v1 v2 v3, P c v1 v2 → P c v2 v3 → P c v1 v3).

(** The cell is unchanged or has become NaN. *)
Definition cell_nulls (v v' : cell) : Prop := v' = v ∨ v' = NaN.

(** The cell is unchanged, or was exactly zero and has become NaN. *)
Definition cell_zero_nulls (v v' : cell) : Prop :=
  v' = v ∨ (v = Num 0 ∧ v' = NaN).

Definition df_nulls : DataFrame → DataFrame → Prop :=
  df_rel (λ _, cell_nulls).

Definition df_zero_nulls : DataFrame → DataFrame → Prop :=
  df_rel (λ _, cell_zero_nulls).

(** The score columns every rule condition is computed from. *)
Definition SCORE_COLS : list string :=
  ["match_score"; "home_set1"; "away_set1"; "home_set2"; "away_set2";
   "home_set3"; "away_set3"].

(** Cells only become NaN, and not in a score column. *)
Definition cell_stat_nulls (c : string) (v v' : cell) : Prop :=
  v' = v ∨ (v' = NaN ∧ c ∉ SCORE_COLS).

Definition df_stat_nulls : DataFrame → DataFrame → Prop :=
  df_rel cell_stat_nulls.

(** Row [i] has an exactly-zero cell in both series. *)
Definition both_zero (f s : list cell) (i : nat) : bool :=
  match f !! i, s !! i with
  | Some x, Some y => eq_num 0 x && eq_num 0 y
  | _, _ => false
  end.

(** What either gate of rules 6-7 does to the frame. *)
Definition gate (faced saved : string) (df : DataFrame) : DataFrame :=
  match lookup_col df faced, lookup_col df saved with
  | Some f, Some s => null_rows (both_zero f s) saved df
  | _, _ => df
  end.

(** The columns rule 5 writes: the set-2 match-point pair of either side. *)
Definition rule5_targets : list string :=
  side ← SIDES; stat ← ["mp_faced"; "mp_saved"]; [side +:+ "_s2_" +:+ stat].

(** The columns rules 6-7 write: every saved and converted column. *)
Definition rule67_targets : list string :=
  side ← SIDES; item ← CONDITIONAL_NAN_PAIRS;
  pfx ← ["_"; "_s1_"; "_s2_"; "_s3_"];
  (side +:+ pfx +:+ saved_col item.2) ::
  match conv_col item.2 with
  | Some conv => [side +:+ pfx +:+ conv]
  | None => []
  end.

Definition monotone (f : DataFrame → result DataFrame) : Prop :=
  ∀ S S', f S = Ok S' → df_stat_nulls S S'.

Definition stable (f : DataFrame → result DataFrame) : Prop :=
  ∀ S S' T, f S = Ok S' → df_stat_nulls S' T → f T = Ok T.

Definition settles (f : DataFrame → result DataFrame) : Prop :=
  monotone f ∧ stable f.

(** The (faced, saved) pair of one side and point type in one scope (the
    match, or one set), followed by its (opportunities, converted) pair when
    the point type has one; the names are built as rules 6-7 build them. *)
Definition pair_gates (side : string) (cols : nan_pair)
    (scope : option string) : list (string * string) :=
  let name stat :=
    match scope with
    | None => side +:+ "_" +:+ stat
    | Some set_n => side +:+ "_" +:+ ("s" +:+ set_n) +:+ "_" +:+ stat
    end in
  (name (faced_col cols), name (saved_col cols)) ::
  match conv_col cols, opp_col cols with
  | Some conv, Some opp => [(name opp, name conv)]
  | _, _ => []
  end.

(** All the pairs of rules 6-7 in the order the loops reach them: for each
    side and each point type, the match-level pairs first, then the pairs of
    sets 1 to 3. *)
Definition rule67_gates : list (string * string) :=
  side ← SIDES; item ← CONDITIONAL_NAN_PAIRS;
  (pair_gates side item.2 None
   ++ (set_n ← SETS; pair_gates side item.2 (Some set_n)))%list.

Definition run_gates (gs : list (string * string)) (df : DataFrame)
  : DataFrame :=
  foldl (λ d p, gate p.1 p.2 d) df gs.

(** The mask [no_s3] of rule 1 on one row, from the row's [home_set3] and
    [match_score] cells. *)
Definition lacks_set3 (h3 ms : cell) : bool :=
  is_nan h3
  || existsb (λ x, eq_str x ms) ["2-0"; "0-2"]
  || existsb (λ x, eq_str x ms) ["1-0"; "0-1"; "0-0"]
  || (eq_str "1-1" ms && is_nan h3).

(** The rule-set wording of the same test, which asks for both third-set
    score cells to be missing. *)
Definition described_lacks_set3 (h3 a3 ms : cell) : bool :=
  (is_nan h3 && is_nan a3)
  || existsb (λ x, eq_str x ms) ["2-0"; "0-2"]
  || existsb (λ x, eq_str x ms) ["1-0"; "0-1"; "0-0"]
  || (eq_str "1-1" ms && is_nan h3 && is_nan a3).

(** The rules by name, numbered as in the rule set: 1 set-3 applicability,
    2 set-2 applicability, 3 per-set tiebreak, 4 overall tiebreak,
    5 set-1 match point, 6 set-2 match point, 7 opportunity gating. *)
Inductive rule_id : Type :=
  | Set3Rule | Set2Rule | SetTiebreakRule | MatchTiebreakRule
  | Set1MatchPointRule | Set2MatchPointRule | OpportunityRule.

Definition run_rule (int_of_str : string → option Z) (stat_cols : list string)
    (r : rule_id) : DataFrame → result DataFrame :=
  match r with
  | Set3Rule => rule1 stat_cols
  | Set2Rule => rule1b stat_cols
  | SetTiebreakRule => rule2
  | MatchTiebreakRule => rule3
  | Set1MatchPointRule => λ df, Ok (rule4 df)
  | Set2MatchPointRule => rule5 int_of_str
  | OpportunityRule => rule67
  end.

(** The columns that rules 1-5 of the rule set null whatever the cell holds:
    set-3 and set-2 scoped statistic columns, per-set and match-level
    tiebreak columns, set-1 match-point columns. *)
Definition unconditional_target (stat_cols : list string) (c : string) : bool :=
  (bool_decide (c ∈ stat_cols) && (str_in "_s3_" c || str_in "_s2_" c))
  || bool_decide (c ∈ n ← SETS; tb_set_names n)
  || bool_decide (c ∈ overall_tb_names)
  || bool_decide (c ∈ s1_mp_names).

(** Unchanged, or nulled where a rule may null: a zero anywhere, anything in
    an unconditional target column. *)
Definition cell_engine_nulls (stat_cols : list string) (c : string)
    (v v' : cell) : Prop :=
  v' = v ∨ (v' = NaN ∧ (v = Num 0 ∨ unconditional_target stat_cols c = true)).

(** ** Sample tables *)

(** The 28 leading, non-statistic columns of a two-row table: a straight-sets
    match with a second-set tiebreak, and a three-set match. *)
Definition sample_head : DataFrame :=
  [("match_uid", [Str "m1"; Str "m2"]);
   ("match_url", [Str "u1"; Str "u2"]);
   ("tournament", [Str "W15"; Str "W15"]);
   ("round", [Str "F"; Str "SF"]);
   ("match_status", [Str "Finished"; Str "Finished"]);
   ("player_home", [Str "A. Smith"; Str "C. Jones"]);
   ("player_away", [Str "B. Brown"; Str "D. White"]);
   ("player_home_id", [Str "h1"; Str "h2"]);
   ("player_away_id", [Str "a1"; Str "a2"]);
   ("match_score", [Str "2-0"; Str "2-1"]);
   ("home_set1", [Num 6; Num 3]);
   ("away_set1", [Num 3; Num 6]);
   ("home_set2", [Num 7; Num 6]);
   ("away_set2", [Num 6; Num 4]);
   ("home_set3", [NaN; Num 6]);
   ("away_set3", [NaN; Num 2]);
   ("home_set1_tb", [NaN; NaN]);
   ("away_set1_tb", [NaN; NaN]);
   ("home_set2_tb", [NaN; NaN]);
   ("away_set2_tb", [Num 4; NaN]);
   ("home_set3_tb", [NaN; NaN]);
   ("away_set3_tb", [NaN; NaN]);
   ("time_overall", [Str "1:25"; NaN]);
   ("time_set1", [Str "0:35"; NaN]);
   ("time_set2", [Str "0:50"; NaN]);
   ("time_set3", [NaN; NaN]);
   ("list_date_time", [Str "01.02.2020 10:00"; Str " "]);
   ("court_type", [Str "Clay"; NaN])].

(** Some statistic columns after them. *)
Definition sample_stats : DataFrame :=
  [("home_bp_faced", [Num 0; Num 3]);
   ("home_bp_saved", [Num 0; Num 0]);
   ("away_bp_opportunities", [Num 0; NaN]);
   ("away_bp_converted", [Num 0; Num 0]);
   ("away_sp_faced", [NaN; Num 0]);
   ("away_sp_saved", [Num 0; Num 2]);
   ("home_tb_serve_pts_won", [Num 4; Num 2]);
   ("home_s1_tb_serve_pts_won", [Num 5; Num 0]);
   ("home_s1_mp_saved", [Num 3; Num 0]);
   ("home_s2_mp_faced", [Num 0; Num 0]);
   ("home_s2_mp_saved", [Num 1; Num 0]);
   ("away_s2_mp_faced", [Num 0; Num 0]);
   ("home_s3_bp_faced", [Num 2; Num 4]);
   ("home_s3_bp_saved", [Num 0; Num 4])].

Definition sample : DataFrame := (sample_head ++ sample_stats)%list.

(** The sample with a third-set game count for the away side only in its
    second row. *)
Definition sample_half_set3 : DataFrame :=
  alter_col (λ _, [NaN; NaN]) "home_set3" sample.

(** The sample of a competition level whose schema has no third set. *)
Definition sample_no_set3 : DataFrame :=
  filter (λ p, negb (str_in "set3" p.1 || str_in "_s3_" p.1)) sample.

(** Python's [int] on text, for the sample runs: no text cell parses. *)
Definition no_text_int : string → option Z := λ _, None.

(** A final set score of 7-6 or 6-7, the tiebreak test of rules 2 and 3 on
    one row. *)
Definition is_tb_score (h a : cell) : bool :=
  (eq_num 7 h && eq_num 6 a) || (eq_num 6 h && eq_num 7 a).

(** Every column has one cell per row label, as in any frame pandas
    builds. *)
Definition aligned (df : DataFrame) : Prop :=
  Forall (λ p, length p.2 = nrows df) df.

(** The columns some rule may write, given the statistic columns: the
    unconditional targets and the targets of rule 5 and rules 6-7. *)
Definition engine_target (stat_cols : list string) (c : string) : bool :=
  unconditional_target stat_cols c
  || bool_decide (c ∈ rule5_targets)
  || bool_decide (c ∈ rule67_targets).

(** Unchanged, or nulled in a target column. *)
Definition cell_target_nulls (stat_cols : list string) (c : string)
    (v v' : cell) : Prop :=
  v' = v ∨ (v' = NaN ∧ engine_target stat_cols c = true).

(** The side rule 5 takes as the winner of set 1, from the two set-1 cells
    of a row; [None] where the rule skips the row. *)
Definition set1_winner (int_of_str : string → option Z) (h a : cell)
  : option string :=
  if is_nan h || is_nan a then None
  else match py_int int_of_str h, py_int int_of_str a with
       | Some x, Some y =>
           if bool_decide (y < x) then Some "home"
           else if bool_decide (x < y) then Some "away"
           else None
       | _, _ => None
       end.

(** Whether rule 5 looks at column [c] on a row with set-1 cells [h], [a]. *)
Definition rule5_hits (int_of_str : string → option Z) (h a : cell)
    (c : string) : bool :=
  match set1_winner int_of_str h a with
  | Some side =>
      bool_decide (c ∈ [side +:+ "_s2_" +:+ "mp_faced";
                        side +:+ "_s2_" +:+ "mp_saved"])
  | None => false
  end.

(** ** The apply step of [itf_combined_scraper.py] *)

(** A row Series: the partial map from column labels to the cells of one
    row.  [row.get(c)] is the map itself, [row[c]] raises on a missing
    label. *)
Definition Series : Type := string → option cell.

(** The row that [df.iterrows()] yields for label [idx]. *)
Definition iterrow (df : DataFrame) (idx : nat) : Series :=
  λ c, cell_at df c idx.

Definition ser_getitem (row : Series) (c : string) : result cell :=
  match row c with
  | Some v => Ok v
  | None => KeyError c
  end.

(** [pd.notna(x)] and [pd.isna(x)] on the answer of [get]: an absent label
    gives [None], which is missing. *)
Definition notna_opt (o : option cell) : bool :=
  match o with
  | Some v => negb (is_nan v)
  | None => false
  end.

Definition isna_opt (o : option cell) : bool := negb (notna_opt o).

(** Whitespace for [str.strip], among the code points below 256. *)
Definition is_space (a : ascii) : bool :=
  let n := nat_of_ascii a in
  bool_decide (n ∈ [9; 10; 11; 12; 13; 28; 29; 30; 31; 32; 133; 160]%nat).

Fixpoint is_blank (s : string) : bool :=
  match s with
  | EmptyString => true
  | String a s' => is_space a && is_blank s'
  end.

(** [str(x).strip() == ''] on the answer of [get]: only text can be blank; a
    number prints with a digit, NaN as nan and None as None. *)
Definition blank_opt (o : option cell) : bool :=
  match o with
  | Some (Str s) => is_blank s
  | _ => false
  end.

(** [pd.isna(x) or str(x).strip() == ''] *)
Definition missing_or_blank (o : option cell) : bool :=
  isna_opt o || blank_opt o.

(** [df[c] = np.nan] for a new column. *)
Definition add_nan_col (c : string) (df : DataFrame) : DataFrame :=
  (df ++ [(c, replicate (nrows df) NaN)])%list.

(** [df.at[idx, c] = v]; a label that is not a column yet is added as a
    column of NaN first. *)
Definition at_set (idx : nat) (c : string) (v : cell) (df : DataFrame)
  : DataFrame :=
  if has_col df c then alter_col (λ vs, <[idx := v]> vs) c df
  else alter_col (λ vs, <[idx := v]> vs) c (add_nan_col c df).

(** The tiebreak fill of one set and side. *)
Definition fill_tb (scrape_cols : list string) (row s : Series) (idx : nat)
    (set_n side : string) (df : DataFrame) : DataFrame :=
  let tb_col := side +:+ "_set" +:+ set_n +:+ "_tb" in
  let page_col := "page_set" +:+ set_n +:+ "_tb_" +:+ side in
  if has_col df tb_col && bool_decide (page_col ∈ scrape_cols) then
    match s page_col with
    | Some page_val =>
        if negb (is_nan page_val) && isna_opt (row tb_col)
        then at_set idx tb_col page_val df
        else df
    | None => df
    end
  else df.

Definition time_map : list (string * string) :=
  [("time_overall", "page_time_overall");
   ("time_set1", "page_time_set1");
   ("time_set2", "page_time_set2");
   ("time_set3", "page_time_set3")].

Definition fill_time (scrape_cols : list string) (row s : Series) (idx : nat)
    (item : string * string) (df : DataFrame) : DataFrame :=
  let csv_col := item.1 in
  let page_col := item.2 in
  if has_col df csv_col && bool_decide (page_col ∈ scrape_cols) then
    match s page_col with
    | Some page_val =>
        if negb (is_nan page_val) && missing_or_blank (row csv_col)
        then at_set idx csv_col page_val df
        else df
    | None => df
    end
  else df.

Definition fill_date_time (row s : Series) (idx : nat) (df : DataFrame)
  : DataFrame :=
  match s "page_date_time" with
  | Some page_val =>
      if negb (is_nan page_val) && missing_or_blank (row "list_date_time")
      then at_set idx "list_date_time" page_val df
      else df
  | None => df
  end.

Definition fill_surface (scrape_cols : list string) (row s : Series)
    (idx : nat) (df : DataFrame) : DataFrame :=
  if bool_decide ("page_court_type" ∈ scrape_cols) then
    match s "page_court_type" with
    | Some page_val =>
        if negb (is_nan page_val) then
          let df := if has_col df "court_type" then df
                    else add_nan_col "court_type" df in
          if missing_or_blank (row "court_type")
          then at_set idx "court_type" page_val df
          else df
        else df
    | None => df
    end
  else df.

(** The backfill part of the loop body, in source order. *)
Definition backfill_row (scrape_cols : list string) (row s : Series)
    (idx : nat) (df : DataFrame) : DataFrame :=
  let df :=
    foldl (λ d set_n,
      foldl (λ d side, fill_tb scrape_cols row s idx set_n side d) d SIDES)
      df SETS in
  let df := foldl (λ d item, fill_time scrape_cols row s idx item d) df time_map in
  let df := fill_date_time row s idx df in
  fill_surface scrape_cols row s idx df.

(** [s[n:]] *)
Fixpoint str_drop (n : nat) (s : string) : string :=
  match n, s with
  | O, _ => s
  | S n', String _ s' => str_drop n' s'
  | S _, EmptyString => EmptyString
  end.

(** [s.replace(old, new, 1)] *)
Fixpoint replace_first (old new s : string) : string :=
  if startswith old s then new +:+ str_drop (String.length old) s
  else match s with
       | EmptyString => EmptyString
       | String a s' => String a (replace_first old new s')
       end.

(** [s.split('-')] *)
Fixpoint split_dash (s : string) : list string :=
  match s with
  | EmptyString => [EmptyString]
  | String a s' =>
      if Ascii.eqb a "-" then EmptyString :: split_dash s'
      else match split_dash s' with
           | p :: ps => String a p :: ps
           | [] => [String a EmptyString]
           end
  end.

(** [str(row.get('match_score', ''))]; a number is printed as an int. *)
Definition score_text (o : option cell) : string :=
  match o with
  | Some (Str s) => s
  | Some (Num z) => pretty z
  | Some NaN => "nan"
  | None => ""
  end.

(** One step of the loop over [home_cols]. *)
Definition swap_pair (row : Series) (idx : nat) (hc : string) (df : DataFrame)
  : result DataFrame :=
  let ac := replace_first "home_" "away_" hc in
  if has_col df ac then
    va ← ser_getitem row ac;
    vh ← ser_getitem row hc;
    Ok (at_set idx ac vh (at_set idx hc va df))
  else Ok df.

(** The swap part of the loop body: every right-hand side reads [row]. *)
Definition swap_row (row s : Series) (idx : nat) (df : DataFrame)
  : result DataFrame :=
  if bool_decide (s "ha_status" = Some (Str "swapped")) then
    pa ← ser_getitem row "player_away";
    ph ← ser_getitem row "player_home";
    let df := at_set idx "player_away" ph (at_set idx "player_home" pa df) in
    pai ← ser_getitem row "player_away_id";
    phi ← ser_getitem row "player_home_id";
    let df := at_set idx "player_away_id" phi
                (at_set idx "player_home_id" pai df) in
    let home_cols := filter (λ c, startswith "home_" c) (columns df) in
    df ← for_each home_cols (swap_pair row idx) df;
    let ms := score_text (row "match_score") in
    if str_in "-" ms then
      let parts := split_dash ms in
      match parts !! 1%nat, parts !! 0%nat with
      | Some p1, Some p0 =>
          Ok (at_set idx "match_score" (Str (p1 +:+ "-" +:+ p0)) df)
      | _, _ => IndexError
      end
    else Ok df
  else Ok df.

(** The loop body of [apply_results] for the table row [idx] joined to the
    page facts [s]. *)
Definition apply_row (scrape_cols : list string) (row s : Series) (idx : nat)
    (df : DataFrame) : result DataFrame :=
  swap_row row s idx (backfill_row scrape_cols row s idx df).

(** The position of [uid] in the index of the scraped table. *)
Definition index_of (uid : cell) (uids : list cell) : option nat :=
  fst <$> list_find (λ u, u = uid) uids.

(** [apply_results] on the loaded tables: the rows come from the table as it
    was loaded, the writes go to the current table. *)
Definition apply_results (df scrape : DataFrame) : result DataFrame :=
  uids ← getitem scrape "match_uid";
  for_each (seq 0 (nrows df)) (λ idx cur,
    let row := iterrow df idx in
    uid ← ser_getitem row "match_uid";
    match index_of uid uids with
    | None => Ok cur
    | Some j => apply_row (columns scrape) row (iterrow scrape j) idx cur
    end) df.

(** The scraped table for the sample: the first match is classified swapped
    and the page shows a tiebreak score for its home side; the second match
    is correct and has page times, a date and a surface. *)
Definition sample_scrape : DataFrame :=
  [("match_uid", [Str "m1"; Str "m2"]);
   ("ha_status", [Str "swapped"; Str "correct"]);
   ("page_set2_tb_home", [Num 7; NaN]);
   ("page_set2_tb_away", [Num 5; NaN]);
   ("page_time_overall", [Str "1:30"; Str "2:10"]);
   ("page_time_set1", [NaN; Str "0:40"]);
   ("page_date_time", [Str "02.02.2020 11:00"; Str "03.02.2020 12:00"]);
   ("page_court_type", [Str "Hard"; Str "Hard (indoor)"])].

(** The row of the swap example: A at home, B away, 6-3, match score 2-0. *)
Definition swap_example : DataFrame :=
  [("match_uid", [Str "m1"]);
   ("player_home", [Str "A"]);
   ("player_away", [Str "B"]);
   ("player_home_id", [Str "idA"]);
   ("player_away_id", [Str "idB"]);
   ("match_score", [Str "2-0"]);
   ("home_set1", [Num 6]);
   ("away_set1", [Num 3]);
   ("time_overall", [Str "1:05"]);
   ("list_date_time", [Str "01.02.2020 10:00"])].

Definition swap_example_scrape : DataFrame :=
  [("match_uid", [Str "m1"]);
   ("ha_status", [Str "swapped"])].

(** The value the swap writes into the cell of column [c], when it writes
    one: the snapshot value of the opposite player column, the swapped match
    score, or the snapshot value of the column with the other side prefix. *)
Definition swapped_value (row : Series) (c : string) : option cell :=
  if decide (c = "player_home") then row "player_away"
  else if decide (c = "player_away") then row "player_home"
  else if decide (c = "player_home_id") then row "player_away_id"
  else if decide (c = "player_away_id") then row "player_home_id"
  else if decide (c = "match_score") then
    let parts := split_dash (score_text (row "match_score")) in
    if str_in "-" (score_text (row "match_score")) then
      match parts !! 1%nat, parts !! 0%nat with
      | Some p1, Some p0 => Some (Str (p1 +:+ "-" +:+ p0))
      | _, _ => None
      end
    else None
  else if startswith "home_" c then row (replace_first "home_" "away_" c)
  else if startswith "away_" c then row (replace_first "away_" "home_" c)
  else None.

(** [T] comes from [S] by writes into row [idx] that follow [W]: every cell
    is as it was or holds the value [W] gives for its column, and the
    columns and their lengths are those of [S]. *)
Definition writes_at (W : string → option cell) (idx : nat)
    (S T : DataFrame) : Prop :=
  columns T = columns S ∧ nrows T = nrows S ∧
  ∀ c i, cell_at T c i = cell_at S c i
         ∨ (i = idx ∧ is_Some (cell_at S c i) ∧ is_Some (W c)
            ∧ cell_at T c i = W c).

(** [T] comes from [S] by backfill writes into row [idx]: no column is
    lost, and every cell is as it was, or is a present page value written
    over a cell the snapshot [row] shows missing or blank, or is the NaN of a
    newly added column. *)
Definition fills_at (row s : Series) (idx : nat) (S T : DataFrame) : Prop :=
  (∀ c, has_col S c = true → has_col T c = true) ∧
  ∀ c i, cell_at T c i = cell_at S c i
         ∨ (i = idx ∧ missing_or_blank (row c) = true
            ∧ ∃ k pv, s k = Some pv ∧ is_nan pv = false
                      ∧ cell_at T c i = Some pv)
         ∨ (cell_at S c i = None ∧ cell_at T c i = Some NaN).

(** Every label of the row snapshot is a cell of the current table at row
    [idx]. *)
Definition snapshot_in (row : Series) (idx : nat) (df : DataFrame) : Prop :=
  ∀ c v, row c = Some v → is_Some (cell_at df c idx).

(** [T] keeps every cell of [S] as a cell, and differs from [S] in row
    [idx] only. *)
Definition row_local (idx : nat) (S T : DataFrame) : Prop :=
  (∀ c i, is_Some (cell_at S c i) → is_Some (cell_at T c i)) ∧
  (∀ c i, i ≠ idx → is_Some (cell_at S c i) → cell_at T c i = cell_at S c i).

(** The columns the apply step creates when the table lacks them. *)
Definition apply_new_cols : list string := ["list_date_time"; "court_type"].

(** [T] has the columns of [S] and at most the created ones besides. *)
Definition cols_bounded (S T : DataFrame) : Prop :=
  ∀ c, has_col T c = true → has_col S c = true ∨ c ∈ apply_new_cols.

(** The table row [i] is joined to the scraped row [j]. *)
Definition joined (df scrape : DataFrame) (i j : nat) : Prop :=
  ∃ uid uids, cell_at df "match_uid" i = Some uid
              ∧ getitem scrape "match_uid" = Ok uids
              ∧ index_of uid uids = Some j.

(** The table row [i] is joined to a scraped row classified swapped. *)
Definition swapped_row (df scrape : DataFrame) (i : nat) : Prop :=
  ∃ j, joined df scrape i j
       ∧ cell_at scrape "ha_status" j = Some (Str "swapped").

(** The columns the backfill writes into. *)
Definition backfill_cols : list string :=
  ["home_set1_tb"; "away_set1_tb"; "home_set2_tb"; "away_set2_tb";
   "home_set3_tb"; "away_set3_tb";
   "time_overall"; "time_set1"; "time_set2"; "time_set3";
   "list_date_time"; "court_type"].

(** The columns the swap writes into, besides the [home_] and [away_]
    ones. *)
Definition swap_cols : list string :=
  ["player_home"; "player_away"; "player_home_id"; "player_away_id";
   "match_score"].

(** A column that [apply_results] can write into. *)
Definition apply_target (c : string) : bool :=
  bool_decide (c ∈ backfill_cols) || bool_decide (c ∈ swap_cols)
  || startswith "home_" c || startswith "away_" c.

(** ** The shards of [main] *)

(** [l[skip::step]] for a positive step. *)
Fixpoint slice_step {A} (skip step : nat) (l : list A) : list A :=
  match l with
  | [] => []
  | x :: l' =>
      match skip with
      | O => x :: slice_step (step - 1) step l'
      | S k => slice_step k step l'
      end
  end.

(** [df.iloc[shard::total_shards].copy().reset_index(drop=True)] for a shard
    index that is not negative: a step of zero is refused by the slice. *)
Definition shard_rows (shard total_shards : nat) (df : DataFrame)
  : option DataFrame :=
  if decide (total_shards = 0%nat) then None
  else Some ((λ p, (p.1, slice_step shard total_shards p.2)) <$> df).

(** ** The home/away classifiers *)

Inductive ha_status : Type := Correct | Swapped | Unknown.
Inductive ha_method : Type := IdMatch | NameMatch | NoMatch.

(** An argument of the classifiers: a Python string or [None]. *)
Definition pystr : Type := option string.

(** Truthiness: [None] and the empty string are false. *)
Definition truthy (o : pystr) : bool :=
  match o with
  | Some (String _ _) => true
  | _ => false
  end.

(** [a == b] on two arguments. *)
Definition py_eq (a b : pystr) : bool := bool_decide (a = b).

(** [s.split()]: the maximal runs of characters that are not whitespace. *)
Fixpoint py_split (s : string) : list string :=
  match s with
  | EmptyString => []
  | String a s' =>
      let rest := py_split s' in
      if is_space a then rest
      else match s' with
           | EmptyString => [String a EmptyString]
           | String b _ =>
               if is_space b then String a EmptyString :: rest
               else match rest with
                    | t :: ts => String a t :: ts
                    | [] => [String a EmptyString]
                    end
           end
  end.

(** [str.lower] on a code point below 256: A-Z and the accented capitals. *)
Definition lower_char (a : ascii) : ascii :=
  let n := nat_of_ascii a in
  if bool_decide (65 ≤ n ≤ 90)%nat
     || (bool_decide (192 ≤ n ≤ 222)%nat && negb (bool_decide (n = 215)%nat))
  then ascii_of_nat (n + 32)
  else a.

Fixpoint lower (s : string) : string :=
  match s with
  | EmptyString => EmptyString
  | String a s' => String (lower_char a) (lower s')
  end.

Fixpoint lstrip (s : string) : string :=
  match s with
  | EmptyString => EmptyString
  | String a s' => if is_space a then lstrip s' else s
  end.

Fixpoint rstrip (s : string) : string :=
  match s with
  | EmptyString => EmptyString
  | String a s' =>
      match rstrip s' with
      | EmptyString => if is_space a then EmptyString else String a EmptyString
      | r => String a r
      end
  end.

(** [s.strip()] *)
Definition strip (s : string) : string := rstrip (lstrip s).

(** [toks[-1]], IndexError on an empty list. *)
Definition last_token (toks : list string) : result string :=
  match last toks with
  | Some t => Ok t
  | None => IndexError
  end.

(** [surname] of [determine_home_away_status]:
    [name.split()[-1].lower().strip() if name else ""] *)
Definition surname (name : pystr) : result string :=
  match name with
  | Some (String a n) =>
      t ← last_token (py_split (String a n)); Ok (strip (lower t))
  | _ => Ok EmptyString
  end.

Definition nonempty (s : string) : bool :=
  match s with EmptyString => false | String _ _ => true end.

(** [determine_home_away_status] of [itf_combined_scraper.py]. *)
Definition determine_home_away_status
    (csv_home_id csv_away_id page_home_id page_away_id
     csv_home_name csv_away_name page_home_name page_away_name : pystr)
  : result (ha_status * ha_method) :=
  if truthy page_home_id && truthy page_away_id
     && truthy csv_home_id && truthy csv_away_id
     && py_eq csv_home_id page_home_id && py_eq csv_away_id page_away_id
  then Ok (Correct, IdMatch)
  else if truthy page_home_id && truthy page_away_id
          && truthy csv_home_id && truthy csv_away_id
          && py_eq csv_home_id page_away_id && py_eq csv_away_id page_home_id
  then Ok (Swapped, IdMatch)
  else
    csv_h ← surname csv_home_name;
    csv_a ← surname csv_away_name;
    page_h ← surname page_home_name;
    page_a ← surname page_away_name;
    if nonempty csv_h && nonempty page_h then
      if bool_decide (csv_h = page_h) && bool_decide (csv_a = page_a)
      then Ok (Correct, NameMatch)
      else if bool_decide (csv_h = page_a) && bool_decide (csv_a = page_h)
      then Ok (Swapped, NameMatch)
      else Ok (Unknown, NoMatch)
    else Ok (Unknown, NoMatch).

(** [re.sub(r'[^a-z]', '', s)] *)
Fixpoint only_az (s : string) : string :=
  match s with
  | EmptyString => EmptyString
  | String a s' =>
      if bool_decide (97 ≤ nat_of_ascii a ≤ 122)%nat
      then String a (only_az s')
      else only_az s'
  end.

(** [normalize] of [determine_status]. *)
Definition normalize (name : pystr) : string :=
  match name with
  | Some (String a n) => only_az (strip (lower (String a n)))
  | _ => EmptyString
  end.

(** [name.split()[-1].lower() if name else ""] *)
Definition surname_raw (name : pystr) : result string :=
  match name with
  | Some (String a n) => t ← last_token (py_split (String a n)); Ok (lower t)
  | _ => Ok EmptyString
  end.

(** [determine_status] of [itf_home_away_auditor.py]. *)
Definition determine_status
    (csv_home_id csv_away_id page_home_id page_away_id
     csv_home_name csv_away_name page_home_name page_away_name : pystr)
  : result (ha_status * ha_method) :=
  if truthy page_home_id && truthy page_away_id
     && truthy csv_home_id && truthy csv_away_id
     && py_eq csv_home_id page_home_id && py_eq csv_away_id page_away_id
  then Ok (Correct, IdMatch)
  else if truthy page_home_id && truthy page_away_id
          && truthy csv_home_id && truthy csv_away_id
          && py_eq csv_home_id page_away_id && py_eq csv_away_id page_home_id
  then Ok (Swapped, IdMatch)
  else
    let csv_h := normalize csv_home_name in
    let page_h := normalize page_home_name in
    if nonempty csv_h && nonempty page_h then
      csv_h_surname ← surname_raw csv_home_name;
      csv_a_surname ← surname_raw csv_away_name;
      page_h_surname ← surname_raw page_home_name;
      page_a_surname ← surname_raw page_away_name;
      if bool_decide (csv_h_surname = page_h_surname)
         && bool_decide (csv_a_surname = page_a_surname)
      then Ok (Correct, NameMatch)
      else if bool_decide (csv_h_surname = page_a_surname)
              && bool_decide (csv_a_surname = page_h_surname)
      then Ok (Swapped, NameMatch)
      else Ok (Unknown, NoMatch)
    else Ok (Unknown, NoMatch).

(** The id stage shared by the two classifiers: its verdict, or [None] when
    it falls through to the names. *)
Definition id_verdict (csv_home_id csv_away_id page_home_id page_away_id : pystr)
  : option (ha_status * ha_method) :=
  if truthy page_home_id && truthy page_away_id
     && truthy csv_home_id && truthy csv_away_id
  then
    if py_eq csv_home_id page_home_id && py_eq csv_away_id page_away_id
    then Some (Correct, IdMatch)
    else if py_eq csv_home_id page_away_id && py_eq csv_away_id page_home_id
    then Some (Swapped, IdMatch)
    else None
  else None.

(** The name stage of [determine_home_away_status]. *)
Definition name_verdict
    (csv_home_name csv_away_name page_home_name page_away_name : pystr)
  : result (ha_status * ha_method) :=
  csv_h ← surname csv_home_name;
  csv_a ← surname csv_away_name;
  page_h ← surname page_home_name;
  page_a ← surname page_away_name;
  if nonempty csv_h && nonempty page_h then
    if bool_decide (csv_h = page_h) && bool_decide (csv_a = page_a)
    then Ok (Correct, NameMatch)
    else if bool_decide (csv_h = page_a) && bool_decide (csv_a = page_h)
    then Ok (Swapped, NameMatch)
    else Ok (Unknown, NoMatch)
  else Ok (Unknown, NoMatch).

(** The name stage of [determine_status]. *)
Definition name_verdict_auditor
    (csv_home_name csv_away_name page_home_name page_away_name : pystr)
  : result (ha_status * ha_method) :=
  if nonempty (normalize csv_home_name) && nonempty (normalize page_home_name)
  then
    csv_h_surname ← surname_raw csv_home_name;
    csv_a_surname ← surname_raw csv_away_name;
    page_h_surname ← surname_raw page_home_name;
    page_a_surname ← surname_raw page_away_name;
    if bool_decide (csv_h_surname = page_h_surname)
       && bool_decide (csv_a_surname = page_a_surname)
    then Ok (Correct, NameMatch)
    else if bool_decide (csv_h_surname = page_a_surname)
            && bool_decide (csv_a_surname = page_h_surname)
    then Ok (Swapped, NameMatch)
    else Ok (Unknown, NoMatch)
  else Ok (Unknown, NoMatch).

(** A name that is not empty and holds only whitespace. *)
Definition whitespace_only (name : pystr) : bool :=
  match name with
  | Some (String a n) => is_blank (String a n)
  | _ => false
  end.

(** No character of the string is whitespace. *)
Fixpoint no_space (s : string) : bool :=
  match s with
  | EmptyString => true
  | String a s' => negb (is_space a) && no_space s'
  end.

(** ** The player id of a link *)

(** The class [[A-Za-z0-9]]. *)
Definition is_alnum (a : ascii) : bool :=
  let n := nat_of_ascii a in
  ((48 <=? n) && (n <=? 57) || (65 <=? n) && (n <=? 90)
   || (97 <=? n) && (n <=? 122))%nat.

(** The class [[^/]]. *)
Definition not_slash (a : ascii) : bool := negb (Ascii.eqb a "/").

(** The longest prefix of characters of a class, and what follows it: the
    greedy match of [class*]. *)
Fixpoint span (p : ascii → bool) (s : string) : string * string :=
  match s with
  | EmptyString => (EmptyString, EmptyString)
  | String a s' =>
      if p a then let (x, r) := span p s' in (String a x, r)
      else (EmptyString, s)
  end.

(** [[^/]+/([A-Za-z0-9]+)/?] matched at the start of [s]: its group.  The
    greedy name runs to the next slash, the greedy id over all the letters
    and digits after it; giving characters back never helps, and the
    optional last slash always matches. *)
Definition match_name_id (s : string) : option string :=
  match span not_slash s with
  | (String _ _, String _ r) =>
      match span is_alnum r with
      | (String a id, _) => Some (String a id)
      | (EmptyString, _) => None
      end
  | _ => None
  end.

(** [re.search(r'/player/[^/]+/([A-Za-z0-9]+)/?', s)]: the group of the
    leftmost match. *)
Fixpoint search_player (s : string) : option string :=
  let here := if startswith "/player/" s
              then match_name_id (str_drop 8 s) else None in
  match here with
  | Some id => Some id
  | None => match s with
            | EmptyString => None
            | String _ s' => search_player s'
            end
  end.

(** [extract_id_from_href] *)
Definition extract_id_from_href (href : pystr) : pystr :=
  match href with
  | Some s => if truthy href then search_player s else None
  | None => None
  end.

(** Every character of the string is in the class. *)
Fixpoint all_chars (p : ascii → bool) (s : string) : bool :=
  match s with
  | EmptyString => true
  | String a s' => p a && all_chars p s'
  end.

(** The string does not start with a character of the class. *)
Definition starts_outside (p : ascii → bool) (s : string) : bool :=
  match s with
  | EmptyString => true
  | String a _ => negb (p a)
  end.
(** ** Frames related column by column *)

Section Relations.

Context (P : string → cell → cell → Prop).

Lemma df_rel_refl (S : DataFrame) : (∀ c v, P c v v) → df_rel P S S.
Proof.
  intros Hrefl. induction S as [|[c vs] S IH]; constructor; [|exact IH].
  split; [reflexivity|]. simpl. induction vs; constructor; auto.
Qed.

Lemma df_rel_trans (S T U : DataFrame) :
  cell_preorder P → df_rel P S T → df_rel P T U → df_rel P S U.
Proof.
  intros [_ Htr] HST. revert U.
  induction HST as [|[c vs] [c' vt] S T [Hc Hv] _ IH]; intros U HTU.
  - inversion HTU. constructor.
  - inversion HTU as [|? [c'' vu] ? U' [Hc' Hv'] HTU']; subst.
    simpl in *. subst. constructor; [|by apply IH].
    split; [reflexivity|]. simpl.
    clear -Htr Hv Hv'. revert vu Hv'.
    induction Hv; intros vu Hv'; inversion Hv'; subst; constructor; eauto.
Qed.

Lemma df_rel_columns (S T : DataFrame) : df_rel P S T → columns T = columns S.
Proof.
  unfold columns.
  induction 1 as [|[c vs] [c' vt] S T [Hc _] _ IH]; [reflexivity|].
  cbn in *. subst c'. by f_equal.
Qed.

Lemma df_rel_has_col (S T : DataFrame) (c : string) :
  df_rel P S T → has_col T c = has_col S c.
Proof. intros H. unfold has_col. by rewrite (df_rel_columns S T H). Qed.

Lemma df_rel_nrows (S T : DataFrame) : df_rel P S T → nrows T = nrows S.
Proof.
  destruct 1 as [|[c vs] [c' vt] S T [_ Hv] _]; [reflexivity|].
  simpl in *. symmetry. by eapply Forall2_length.
Qed.

Lemma df_rel_lookup_col (S T : DataFrame) (c : string) :
  df_rel P S T →
  option_Forall2 (Forall2 (P c)) (lookup_col S c) (lookup_col T c).
Proof.
  induction 1 as [|[c1 vs] [c2 vt] S T [Hc Hv] _ IH]; [constructor|].
  simpl in *. subst c2. destruct (decide (c1 = c)) as [->|]; [|exact IH].
  by constructor.
Qed.

Lemma df_rel_cell_at (S T : DataFrame) (c : string) (i : nat) :
  df_rel P S T →
  option_Forall2 (P c) (cell_at S c i) (cell_at T c i).
Proof.
  intros H. unfold cell_at.
  destruct (df_rel_lookup_col S T c H) as [vs vt Hv|]; simpl; [|constructor].
  destruct (vs !! i) as [v|] eqn:Hi.
  - destruct (Forall2_lookup_l _ _ _ _ _ Hv Hi) as (v' & -> & Hp).
    by constructor.
  - rewrite (proj2 (lookup_ge_None vt i)); [constructor|].
    rewrite <-(Forall2_length _ _ _ Hv). by apply lookup_ge_None.
Qed.

End Relations.

Lemma df_rel_mono (P Q : string → cell → cell → Prop) (S T : DataFrame) :
  (∀ c v v', P c v v' → Q c v v') → df_rel P S T → df_rel Q S T.
Proof.
  intros HPQ. induction 1 as [|[c vs] [c' vt] S T [Hc Hv] _ IH]; constructor; auto.
  split; [exact Hc|]. simpl in *. eapply Forall2_impl; eauto.
Qed.

(** ** Column lookups after an update *)

Lemma columns_alter_col f c df : columns (alter_col f c df) = columns df.
Proof.
  unfold columns. induction df as [|[c' vs] df IH]; [reflexivity|].
  cbn. destruct (decide (c' = c)); cbn; [reflexivity|by f_equal].
Qed.

Lemma lookup_col_alter_col f c c' df :
  lookup_col (alter_col f c df) c' =
  if decide (c = c') then f <$> lookup_col df c else lookup_col df c'.
Proof.
  induction df as [|[c1 vs] df IH]; simpl; [by case_decide|].
  destruct (decide (c1 = c)) as [->|Hne]; simpl.
  - by destruct (decide (c = c')) as [->|].
  - destruct (decide (c1 = c')) as [->|]; [|exact IH].
    by rewrite decide_False.
Qed.

Lemma lookup_col_cons_eq c vs df : lookup_col ((c, vs) :: df) c = Some vs.
Proof. simpl. by rewrite decide_True. Qed.

Lemma lookup_col_cons_ne c c' vs df :
  c' ≠ c → lookup_col ((c', vs) :: df) c = lookup_col df c.
Proof. intros. simpl. by rewrite decide_False. Qed.

Lemma alter_col_id f c df :
  (∀ vs, lookup_col df c = Some vs → f vs = vs) → alter_col f c df = df.
Proof.
  induction df as [|[c1 vs] df IH]; intros H; [reflexivity|].
  simpl. destruct (decide (c1 = c)) as [->|Hne].
  - rewrite H; [reflexivity|]. apply lookup_col_cons_eq.
  - f_equal. apply IH. intros vs' Hl. apply H.
    by rewrite lookup_col_cons_ne.
Qed.

Lemma has_col_lookup df c : has_col df c = true ↔ is_Some (lookup_col df c).
Proof.
  unfold has_col, columns. rewrite bool_decide_eq_true.
  induction df as [|[c1 vs] df IH].
  - split; [intros H; inversion H|intros [? ?]; discriminate].
  - cbn [fmap list_fmap fst]. rewrite elem_of_cons.
    destruct (decide (c1 = c)) as [->|Hne].
    + rewrite lookup_col_cons_eq. split; eauto.
    + rewrite lookup_col_cons_ne by done.
      rewrite <-IH. split; [intros [?|?]; congruence|auto].
Qed.

Lemma alter_col_rel P f c df :
  (∀ c v, P c v v) →
  (∀ vs, lookup_col df c = Some vs → Forall2 (P c) vs (f vs)) →
  df_rel P df (alter_col f c df).
Proof.
  intros Hrefl. induction df as [|[c1 vs] df IH]; intros H; [constructor|].
  simpl. destruct (decide (c1 = c)) as [->|Hne].
  - constructor; [|by apply df_rel_refl].
    split; [reflexivity|]. simpl. apply H. apply lookup_col_cons_eq.
  - constructor.
    + split; [reflexivity|]. simpl. clear -Hrefl. induction vs; constructor; auto.
    + apply IH. intros vs' Hl. apply H. by rewrite lookup_col_cons_ne.
Qed.

Lemma null_rows_rel P sel c df :
  (∀ c v, P c v v) →
  (∀ i v, cell_at df c i = Some v → sel i = true → P c v NaN) →
  df_rel P df (null_rows sel c df).
Proof.
  intros Hrefl H. apply alter_col_rel; [exact Hrefl|].
  intros vs Hl. apply Forall2_same_length_lookup. split.
  - by rewrite length_imap.
  - intros i x y Hx. rewrite list_lookup_imap, Hx. simpl. intros [= <-].
    destruct (sel i) eqn:Hs; [|apply Hrefl].
    apply (H i); [|exact Hs]. unfold cell_at. by rewrite Hl.
Qed.

Lemma null_rows_id sel c df :
  (∀ i v, cell_at df c i = Some v → sel i = true → v = NaN) →
  null_rows sel c df = df.
Proof.
  intros H. apply alter_col_id. intros vs Hl. apply list_eq. intros i.
  rewrite list_lookup_imap. destruct (vs !! i) as [v|] eqn:Hi; [|reflexivity].
  simpl. destruct (sel i) eqn:Hs; [|reflexivity].
  f_equal. symmetry. apply (H i); [|exact Hs]. unfold cell_at. by rewrite Hl.
Qed.

Lemma cell_at_null_rows sel c c' i df :
  cell_at (null_rows sel c df) c' i =
  if decide (c = c')
  then (λ v, if sel i then NaN else v) <$> cell_at df c i
  else cell_at df c' i.
Proof.
  unfold cell_at, null_rows. rewrite lookup_col_alter_col.
  destruct (decide (c = c')) as [->|]; [|reflexivity].
  destruct (lookup_col df c') as [vs|]; [|reflexivity].
  simpl. by rewrite list_lookup_imap.
Qed.

Lemma null_rows_ext sel sel' c df :
  (∀ i, sel i = sel' i) → null_rows sel c df = null_rows sel' c df.
Proof.
  intros H. unfold null_rows.
  induction df as [|[c1 vs] df IH]; [reflexivity|].
  simpl. destruct (decide (c1 = c)).
  - f_equal. f_equal. apply imap_ext. intros i v _. by rewrite H.
  - by f_equal.
Qed.

(** ** Results of a sequence of steps *)

Ltac inv_bind H :=
  repeat match type of H with
  | mbind _ ?m = Ok _ =>
      let E := fresh "E" in
      destruct m eqn:E; cbn [mbind result_bind] in H; [|discriminate..]
  | (match ?m with Ok _ => _ | KeyError _ => _ | IndexError => _ end) = Ok _ =>
      let E := fresh "E" in
      destruct m eqn:E; cbn [mbind result_bind] in H; [|discriminate..]
  end.

(** The same, keeping the goal in step with the hypothesis. *)
Ltac inv_bind_goal H :=
  repeat match type of H with
  | mbind _ ?m = Ok _ =>
      let E := fresh "E" in
      destruct m eqn:E; cbn [mbind result_bind] in H |- *; [|discriminate..]
  | (match ?m with Ok _ => _ | KeyError _ => _ | IndexError => _ end) = Ok _ =>
      let E := fresh "E" in
      destruct m eqn:E; cbn [mbind result_bind] in H |- *; [|discriminate..]
  end.

Lemma for_each_cons {A} (x : A) xs body df :
  for_each (x :: xs) body df = (df' ← body x df; for_each xs body df').
Proof. reflexivity. Qed.

Lemma for_each_app {A} (xs ys : list A) body df :
  for_each (xs ++ ys)%list body df = (df' ← for_each xs body df; for_each ys body df').
Proof.
  revert df. induction xs as [|x xs IH]; intros df; [reflexivity|].
  cbn. destruct (body x df); cbn; [apply IH|reflexivity..].
Qed.

Lemma null_cols_for_each mask cols df :
  Ok (null_cols mask cols df) =
  for_each cols (λ c d, Ok (loc_set_nan mask c d)) df.
Proof.
  unfold null_cols. revert df.
  induction cols as [|c cols IH]; intros df; [reflexivity|]. cbn. apply IH.
Qed.

Section RuleRelations.

Context (P : string → cell → cell → Prop) (HP : cell_preorder P).

Lemma for_each_rel {A} (xs : list A) body :
  (∀ x S T, x ∈ xs → body x S = Ok T → df_rel P S T) →
  ∀ S T, for_each xs body S = Ok T → df_rel P S T.
Proof.
  induction xs as [|x xs IH]; intros Hb S T H.
  - cbn in H. injection H as <-. apply df_rel_refl, HP.
  - cbn in H. inv_bind H.
    eapply df_rel_trans; [exact HP| |].
    + eapply Hb; [|exact E]. by left.
    + eapply IH; [|exact H]. intros y S0 T0 Hy. apply Hb. by right.
Qed.

Lemma loc_set_nan_rel mask c df :
  (∀ v, P c v NaN) → df_rel P df (loc_set_nan mask c df).
Proof. intros H. apply null_rows_rel; [apply HP|]. intros; apply H. Qed.

Lemma null_cols_rel mask cols df :
  (∀ c v, c ∈ cols → P c v NaN) → df_rel P df (null_cols mask cols df).
Proof.
  intros H.
  apply (for_each_rel cols (λ c d, Ok (loc_set_nan mask c d))).
  - intros c S T Hc [= <-]. apply loc_set_nan_rel. intros v. by apply H.
  - symmetry. apply null_cols_for_each.
Qed.

End RuleRelations.

(** ** The masks of rules 6-7, row by row *)

Lemma mask_overall_lookup f s i :
  default false
    (band (band (ser_eq_num 0 f) (ser_eq_num 0 s)) (notna s) !! i)
  = both_zero f s i.
Proof.
  unfold band, ser_eq_num, notna, both_zero.
  rewrite !lookup_zip_with, !list_lookup_fmap.
  destruct (f !! i) as [x|], (s !! i) as [y|]; simpl; try reflexivity.
  destruct x, y; simpl; try reflexivity; by rewrite ?andb_true_r, ?andb_false_r.
Qed.

Lemma mask_set_lookup f s i :
  default false
    (band (band (band (notna f) (ser_eq_num 0 f)) (notna s)) (ser_eq_num 0 s) !! i)
  = both_zero f s i.
Proof.
  unfold band, ser_eq_num, notna, both_zero.
  rewrite !lookup_zip_with, !list_lookup_fmap.
  destruct (f !! i) as [x|], (s !! i) as [y|]; simpl; try reflexivity.
  destruct x, y; simpl; try reflexivity; by rewrite ?andb_true_r, ?andb_false_r.
Qed.

Lemma has_col_false_lookup df c : has_col df c = false → lookup_col df c = None.
Proof.
  intros H. destruct (lookup_col df c) eqn:E; [|reflexivity].
  assert (has_col df c = true) by (apply has_col_lookup; eauto). congruence.
Qed.

Lemma has_col_true_lookup df c :
  has_col df c = true → ∃ vs, lookup_col df c = Some vs.
Proof. intros H. by apply has_col_lookup in H as [vs ?]; eauto. Qed.

Lemma gate_overall_spec faced saved df :
  gate_overall faced saved df = Ok (gate faced saved df).
Proof.
  unfold gate_overall, gate, getitem.
  destruct (has_col df faced) eqn:Hf; simpl.
  - destruct (has_col df saved) eqn:Hs; simpl.
    + apply has_col_true_lookup in Hf as [f ->].
      apply has_col_true_lookup in Hs as [s ->]. cbn.
      f_equal. apply null_rows_ext, mask_overall_lookup.
    + rewrite (has_col_false_lookup _ _ Hs). by destruct (lookup_col df faced).
  - by rewrite (has_col_false_lookup _ _ Hf).
Qed.

Lemma gate_set_spec faced saved df :
  gate_set faced saved df = Ok (gate faced saved df).
Proof.
  unfold gate_set, gate, getitem.
  destruct (has_col df faced) eqn:Hf; simpl.
  - destruct (has_col df saved) eqn:Hs; simpl.
    + apply has_col_true_lookup in Hf as [f ->].
      apply has_col_true_lookup in Hs as [s ->]. cbn.
      f_equal. apply null_rows_ext, mask_set_lookup.
    + rewrite (has_col_false_lookup _ _ Hs). by destruct (lookup_col df faced).
  - by rewrite (has_col_false_lookup _ _ Hf).
Qed.

Lemma both_zero_true f s i :
  both_zero f s i = true → f !! i = Some (Num 0) ∧ s !! i = Some (Num 0).
Proof.
  unfold both_zero. destruct (f !! i) as [x|], (s !! i) as [y|]; try discriminate.
  intros [Hx Hy]%andb_true_iff.
  destruct x, y; try discriminate. simpl in *.
  apply bool_decide_eq_true in Hx, Hy. by subst.
Qed.

Lemma eq_num_0_true v : eq_num 0 v = true → v = Num 0.
Proof. destruct v; try discriminate. simpl. by intros ->%bool_decide_eq_true. Qed.

(** ** What each rule may write *)

Ltac elem_cases H :=
  repeat (apply elem_of_cons in H as [->|H]); try (by apply elem_of_nil in H).

Ltac elem_closed := apply (bool_decide_unpack _); vm_compute; exact I.

Section RuleWrites.

Context (P : string → cell → cell → Prop) (HP : cell_preorder P).

Lemma rule1_rel sc S T :
  (∀ c v, c ∈ sc → str_in "_s3_" c = true → P c v NaN) →
  rule1 sc S = Ok T → df_rel P S T.
Proof.
  intros Hc H. unfold rule1 in H. inv_bind H. injection H as <-.
  apply null_cols_rel; [exact HP|].
  intros c v [Hs Hin]%list_elem_of_filter. apply Hc; [exact Hin|].
  by apply Is_true_true.
Qed.

Lemma rule1b_rel sc S T :
  (∀ c v, c ∈ sc → str_in "_s2_" c = true → P c v NaN) →
  rule1b sc S = Ok T → df_rel P S T.
Proof.
  intros Hc H. unfold rule1b in H. inv_bind H. injection H as <-.
  apply null_cols_rel; [exact HP|].
  intros c v [Hs Hin]%list_elem_of_filter. apply Hc; [exact Hin|].
  by apply Is_true_true.
Qed.

Lemma rule2_set_rel n S T :
  (∀ c v, c ∈ tb_set_names n → P c v NaN) →
  rule2_set n S = Ok T → df_rel P S T.
Proof.
  intros Hc H. unfold rule2_set in H.
  destruct (negb _); [injection H as <-; apply df_rel_refl, HP|].
  inv_bind H. injection H as <-.
  apply null_cols_rel; [exact HP|].
  intros c v [_ Hin]%list_elem_of_filter. by apply Hc.
Qed.

Lemma rule2_rel S T :
  (∀ n c v, n ∈ SETS → c ∈ tb_set_names n → P c v NaN) →
  rule2 S = Ok T → df_rel P S T.
Proof.
  intros Hc. apply for_each_rel; [exact HP|].
  intros n S0 T0 Hn. apply rule2_set_rel. intros c v. by apply Hc.
Qed.

Lemma rule3_rel S T :
  (∀ c v, c ∈ overall_tb_names → P c v NaN) →
  rule3 S = Ok T → df_rel P S T.
Proof.
  intros Hc H. unfold rule3 in H. inv_bind H. injection H as <-.
  apply null_cols_rel; [exact HP|].
  intros c v [_ Hin]%list_elem_of_filter. by apply Hc.
Qed.

Lemma foldl_rel {A} (step : DataFrame → A → DataFrame) (xs : list A) :
  (∀ x d, x ∈ xs → df_rel P d (step d x)) →
  ∀ df, df_rel P df (foldl step df xs).
Proof.
  induction xs as [|x xs IH]; intros Hs df; [apply df_rel_refl, HP|].
  simpl. eapply df_rel_trans; [exact HP| |].
  - apply Hs. by left.
  - apply IH. intros y d Hy. apply Hs. by right.
Qed.

Lemma rule4_rel S :
  (∀ c v, c ∈ s1_mp_names → P c v NaN) → df_rel P S (rule4 S).
Proof.
  intros Hc. unfold rule4. apply foldl_rel.
  intros c d [_ Hin]%list_elem_of_filter.
  apply null_rows_rel; [apply HP|]. intros i v _ _. by apply Hc.
Qed.

Lemma at_null_if_zero_rel idx col S T :
  P col (Num 0) NaN → at_null_if_zero idx col S = Ok T → df_rel P S T.
Proof.
  intros Hc H. unfold at_null_if_zero in H.
  destruct (has_col S col); [|injection H as <-; apply df_rel_refl, HP].
  inv_bind H. destruct (eq_num 0 a) eqn:Hz;
    injection H as <-; [|apply df_rel_refl, HP].
  apply eq_num_0_true in Hz as ->.
  apply null_rows_rel; [apply HP|].
  intros i v Hv Hi%bool_decide_eq_true. subst i.
  unfold at_get, getitem in E. unfold cell_at in Hv.
  destruct (lookup_col S col) as [vs|]; [|discriminate].
  cbn in E, Hv. rewrite Hv in E. by injection E as ->.
Qed.

Lemma rule5_row_rel int_of_str idx S T :
  (∀ c, c ∈ rule5_targets → P c (Num 0) NaN) →
  rule5_row int_of_str idx S = Ok T → df_rel P S T.
Proof.
  intros Hc H. unfold rule5_row in H. inv_bind H.
  destruct (is_nan a || is_nan a0); [injection H as <-; apply df_rel_refl, HP|].
  destruct (py_int int_of_str a) as [h|];
    [|injection H as <-; apply df_rel_refl, HP].
  destruct (py_int int_of_str a0) as [a'|];
    [|injection H as <-; apply df_rel_refl, HP].
  destruct (bool_decide (a' < h));
    [|destruct (bool_decide (h < a'));
      [|injection H as <-; apply df_rel_refl, HP]].
  - revert H. apply for_each_rel; [exact HP|].
    intros stat S0 T0 Hstat. apply at_null_if_zero_rel.
    apply Hc. elem_cases Hstat; elem_closed.
  - revert H. apply for_each_rel; [exact HP|].
    intros stat S0 T0 Hstat. apply at_null_if_zero_rel.
    apply Hc. elem_cases Hstat; elem_closed.
Qed.

Lemma rule5_rel int_of_str S T :
  (∀ c, c ∈ rule5_targets → P c (Num 0) NaN) →
  rule5 int_of_str S = Ok T → df_rel P S T.
Proof.
  intros Hc. unfold rule5. apply for_each_rel; [exact HP|].
  intros idx S0 T0 _. by apply rule5_row_rel.
Qed.

Lemma gate_rel faced saved S :
  P saved (Num 0) NaN → df_rel P S (gate faced saved S).
Proof.
  intros Hc. unfold gate.
  destruct (lookup_col S faced) as [f|]; [|apply df_rel_refl, HP].
  destruct (lookup_col S saved) as [s|] eqn:Hs; [|apply df_rel_refl, HP].
  apply null_rows_rel; [apply HP|].
  intros i v Hv [_ Hi]%both_zero_true.
  unfold cell_at in Hv. rewrite Hs in Hv. cbn in Hv. congruence.
Qed.

Lemma gate_overall_rel faced saved S T :
  P saved (Num 0) NaN → gate_overall faced saved S = Ok T → df_rel P S T.
Proof. rewrite gate_overall_spec. intros Hc [= <-]. by apply gate_rel. Qed.

Lemma gate_set_rel faced saved S T :
  P saved (Num 0) NaN → gate_set faced saved S = Ok T → df_rel P S T.
Proof. rewrite gate_set_spec. intros Hc [= <-]. by apply gate_rel. Qed.

Lemma rule67_pair_rel side item S T :
  side ∈ SIDES → item ∈ CONDITIONAL_NAN_PAIRS →
  (∀ c, c ∈ rule67_targets → P c (Num 0) NaN) →
  rule67_pair side item S = Ok T → df_rel P S T.
Proof.
  intros Hside Hitem Hc H. unfold rule67_pair in H. inv_bind H.
  eapply df_rel_trans; [exact HP| |eapply df_rel_trans; [exact HP| |]].
  - eapply gate_overall_rel; [|exact E].
    apply Hc. elem_cases Hside; elem_cases Hitem; elem_closed.
  - elem_cases Hside; elem_cases Hitem; cbn in E0;
      first [ injection E0 as <-; apply df_rel_refl, HP
            | eapply gate_overall_rel; [|exact E0]; apply Hc; elem_closed ].
  - revert H. apply for_each_rel; [exact HP|].
    intros n S0 T0 Hn H. inv_bind H.
    eapply df_rel_trans; [exact HP| |].
    + eapply gate_set_rel; [|exact E1].
      apply Hc. elem_cases Hside; elem_cases Hitem; elem_cases Hn; elem_closed.
    + elem_cases Hside; elem_cases Hitem; cbn in H;
        first [ injection H as <-; apply df_rel_refl, HP
              | eapply gate_set_rel; [|exact H]; apply Hc;
                elem_cases Hn; elem_closed ].
Qed.

Lemma rule67_rel S T :
  (∀ c, c ∈ rule67_targets → P c (Num 0) NaN) →
  rule67 S = Ok T → df_rel P S T.
Proof.
  intros Hc. unfold rule67. apply for_each_rel; [exact HP|].
  intros side S0 T0 Hside. apply for_each_rel; [exact HP|].
  intros item S1 T1 Hitem. by apply rule67_pair_rel.
Qed.

End RuleWrites.

(** ** Steps that settle: a re-run after further nulling changes nothing *)

Lemma cell_nulls_preorder : cell_preorder (λ _, cell_nulls).
Proof.
  split; [by left|]. unfold cell_nulls.
  intros _ v1 v2 v3 [->| ->] [->| ->]; auto.
Qed.

Lemma cell_zero_nulls_preorder : cell_preorder (λ _, cell_zero_nulls).
Proof.
  split; [by left|]. unfold cell_zero_nulls.
  intros _ v1 v2 v3 [->|[-> ->]] [->|[? ->]]; auto; discriminate.
Qed.

Lemma cell_stat_nulls_preorder : cell_preorder cell_stat_nulls.
Proof.
  split; [by left|]. unfold cell_stat_nulls.
  intros c v1 v2 v3 [->|[-> ?]] [->|[-> ?]]; auto.
Qed.

Lemma df_stat_nulls_score S T c :
  df_stat_nulls S T → c ∈ SCORE_COLS → lookup_col T c = lookup_col S c.
Proof.
  intros H Hc.
  destruct (df_rel_lookup_col _ S T c H) as [vs vt Hv|]; [|reflexivity].
  f_equal. symmetry. apply list_eq_Forall2.
  eapply Forall2_impl; [exact Hv|].
  intros v v' [->|[_ ?]]; [reflexivity|contradiction].
Qed.

Lemma getitem_score S T c :
  df_stat_nulls S T → c ∈ SCORE_COLS → getitem T c = getitem S c.
Proof. intros H Hc. unfold getitem. by rewrite (df_stat_nulls_score S T c). Qed.

Lemma at_get_score S T idx c :
  df_stat_nulls S T → c ∈ SCORE_COLS → at_get T idx c = at_get S idx c.
Proof. intros H Hc. unfold at_get. by rewrite (getitem_score S T c). Qed.

Lemma settles_ext f g : (∀ S, f S = g S) → settles f → settles g.
Proof.
  intros Hfg [Hm Hs]. split.
  - intros S S'. rewrite <-Hfg. apply Hm.
  - intros S S' T. rewrite <-!Hfg. apply Hs.
Qed.

Lemma settles_ret : settles Ok.
Proof.
  split.
  - intros S S' [= <-]. apply df_rel_refl. by left.
  - by intros S S' T _ _.
Qed.

Lemma settles_bind f g :
  settles f → settles g → settles (λ S, f S ≫= g).
Proof.
  intros [Hmf Hsf] [Hmg Hsg]. split.
  - intros S S' H. inv_bind H.
    eapply df_rel_trans; [apply cell_stat_nulls_preorder| |].
    + exact (Hmf _ _ E).
    + exact (Hmg _ _ H).
  - intros S S' T H HR. inv_bind H.
    assert (f T = Ok T) as ->.
    { eapply Hsf; [exact E|].
      eapply df_rel_trans; [apply cell_stat_nulls_preorder| |exact HR].
      exact (Hmg _ _ H). }
    cbn. exact (Hsg _ _ _ H HR).
Qed.

Lemma settles_for_each {A} (xs : list A) body :
  (∀ x, x ∈ xs → settles (body x)) → settles (for_each xs body).
Proof.
  induction xs as [|x xs IH]; intros Hb; [apply settles_ret|].
  apply (settles_ext (λ S, body x S ≫= for_each xs body)); [done|].
  apply settles_bind; [apply Hb; by left|].
  apply IH. intros y Hy. apply Hb. by right.
Qed.

Lemma settles_null_rows sel c :
  c ∉ SCORE_COLS → settles (λ S, Ok (null_rows sel c S)).
Proof.
  intros Hc. split.
  - intros S S' [= <-]. apply null_rows_rel; [by left|].
    intros. by right.
  - intros S S' T [= <-] HR. f_equal. apply null_rows_id.
    intros i v Hv Hi.
    pose proof (df_rel_cell_at _ _ _ c i HR) as Hrel.
    rewrite cell_at_null_rows, decide_True, Hi, Hv in Hrel by done.
    destruct (cell_at S c i); inversion Hrel as [? ? Hp|]; subst.
    destruct Hp as [?|[? _]]; done.
Qed.

Lemma settles_null_cols mask cols :
  (∀ c, c ∈ cols → c ∉ SCORE_COLS) →
  settles (λ S, Ok (null_cols mask cols S)).
Proof.
  intros Hc.
  apply (settles_ext (for_each cols (λ c d, Ok (loc_set_nan mask c d)))).
  - intros S. symmetry. apply null_cols_for_each.
  - apply settles_for_each. intros c Hin. apply settles_null_rows. by apply Hc.
Qed.

Lemma at_get_cell_at df idx c :
  at_get df idx c =
  match cell_at df c idx with Some v => Ok v | None => KeyError c end.
Proof.
  unfold at_get, getitem, cell_at.
  destruct (lookup_col df c) as [vs|]; [|reflexivity]. cbn.
  by destruct (vs !! idx).
Qed.

Lemma df_rel_zero_back P S T c i :
  (∀ c v, P c v (Num 0) → v = Num 0) →
  df_rel P S T → cell_at T c i = Some (Num 0) → cell_at S c i = Some (Num 0).
Proof.
  intros HP H Hz. pose proof (df_rel_cell_at P S T c i H) as Hrel.
  rewrite Hz in Hrel. inversion Hrel as [v ? Hp|]; subst.
  f_equal. by eapply HP.
Qed.

Lemma stat_nulls_zero_back c v : cell_stat_nulls c v (Num 0) → v = Num 0.
Proof. by intros [?|[? _]]. Qed.

Lemma df_stat_nulls_trans S T U :
  df_stat_nulls S T → df_stat_nulls T U → df_stat_nulls S U.
Proof. apply df_rel_trans, cell_stat_nulls_preorder. Qed.

Lemma gate_nulls faced saved S i :
  cell_at S faced i = Some (Num 0) → cell_at S saved i = Some (Num 0) →
  cell_at (gate faced saved S) saved i = Some NaN.
Proof.
  unfold gate, cell_at. intros Hf Hs.
  destruct (lookup_col S faced) as [f|] eqn:Ef; [|discriminate].
  destruct (lookup_col S saved) as [s|] eqn:Es; [|discriminate].
  cbn in Hf, Hs.
  pose proof (cell_at_null_rows (both_zero f s) saved saved i S) as Hc.
  unfold cell_at in Hc. rewrite Hc, decide_True, Es by done. cbn.
  rewrite Hs. cbn. unfold both_zero. by rewrite Hf, Hs.
Qed.

Lemma settles_gate faced saved :
  saved ∉ SCORE_COLS → settles (λ S, Ok (gate faced saved S)).
Proof.
  intros Hc.
  assert (Hm : ∀ S, df_stat_nulls S (gate faced saved S)).
  { intros S. apply gate_rel; [apply cell_stat_nulls_preorder|by right]. }
  split; [by intros S S' [= <-]|].
  intros S S' T [= <-] HR. f_equal. unfold gate.
  destruct (lookup_col T faced) as [ft|] eqn:Ef; [|reflexivity].
  destruct (lookup_col T saved) as [st|] eqn:Es; [|reflexivity].
  apply null_rows_id. intros i v Hv [Hfi Hsi]%both_zero_true. exfalso.
  assert (HfT : cell_at T faced i = Some (Num 0)).
  { unfold cell_at. by rewrite Ef. }
  assert (HsT : cell_at T saved i = Some (Num 0)).
  { unfold cell_at. by rewrite Es. }
  pose proof (df_rel_zero_back _ _ _ _ _ stat_nulls_zero_back HR HsT) as Hs'.
  pose proof (df_rel_zero_back _ _ _ _ _ stat_nulls_zero_back
                (df_stat_nulls_trans _ _ _ (Hm S) HR) HfT) as Hf0.
  pose proof (df_rel_zero_back _ _ _ _ _ stat_nulls_zero_back (Hm S) Hs') as Hs0.
  rewrite (gate_nulls _ _ _ _ Hf0 Hs0) in Hs'. discriminate.
Qed.

Lemma settles_gate_overall faced saved :
  saved ∉ SCORE_COLS → settles (gate_overall faced saved).
Proof.
  intros Hc. eapply settles_ext; [|by apply (settles_gate faced saved)].
  intros S. symmetry. apply gate_overall_spec.
Qed.

Lemma settles_gate_set faced saved :
  saved ∉ SCORE_COLS → settles (gate_set faced saved).
Proof.
  intros Hc. eapply settles_ext; [|by apply (settles_gate faced saved)].
  intros S. symmetry. apply gate_set_spec.
Qed.

Lemma settles_at_null_if_zero idx col :
  col ∉ SCORE_COLS → settles (at_null_if_zero idx col).
Proof.
  intros Hc.
  assert (Hm : monotone (at_null_if_zero idx col)).
  { intros S S'. apply at_null_if_zero_rel;
      [apply cell_stat_nulls_preorder|by right]. }
  split; [exact Hm|].
  intros S S' T H HR.
  pose proof (Hm _ _ H) as HSS'.
  pose proof (df_stat_nulls_trans _ _ _ HSS' HR) as HST.
  unfold at_null_if_zero in *.
  rewrite (df_rel_has_col _ S T col HST).
  destruct (has_col S col); [|reflexivity].
  rewrite at_get_cell_at in *.
  pose proof (df_rel_cell_at _ S T col idx HST) as Hrel.
  destruct (cell_at S col idx) as [v|] eqn:Ev; [|discriminate].
  inversion Hrel as [? v' Hp Ev1 Ev'|]; subst. cbn in *.
  destruct (eq_num 0 v') eqn:Hz'; [exfalso|reflexivity].
  apply eq_num_0_true in Hz' as ->.
  apply stat_nulls_zero_back in Hp as ->. cbn in H. injection H as <-.
  assert (HzT : cell_at T col idx = Some (Num 0)) by done.
  pose proof (df_rel_zero_back _ _ _ _ _ stat_nulls_zero_back HR HzT) as Hs'.
  unfold at_set_nan in Hs'.
  rewrite cell_at_null_rows, decide_True, Ev in Hs' by done.
  cbn in Hs'. rewrite bool_decide_eq_true_2 in Hs' by done. discriminate.
Qed.

(** ** No rule writes a score column *)

Lemma s3_not_score c : str_in "_s3_" c = true → c ∉ SCORE_COLS.
Proof. intros H Hin. elem_cases Hin; vm_compute in H; discriminate. Qed.

Lemma s2_not_score c : str_in "_s2_" c = true → c ∉ SCORE_COLS.
Proof. intros H Hin. elem_cases Hin; vm_compute in H; discriminate. Qed.

Lemma tb_set_not_score n c : n ∈ SETS → c ∈ tb_set_names n → c ∉ SCORE_COLS.
Proof.
  intros Hn. revert c. apply Forall_forall.
  elem_cases Hn; elem_closed.
Qed.

Lemma overall_tb_not_score c : c ∈ overall_tb_names → c ∉ SCORE_COLS.
Proof. revert c. apply Forall_forall. elem_closed. Qed.

Lemma s1_mp_not_score c : c ∈ s1_mp_names → c ∉ SCORE_COLS.
Proof. revert c. apply Forall_forall. elem_closed. Qed.

Lemma rule5_not_score c : c ∈ rule5_targets → c ∉ SCORE_COLS.
Proof. revert c. apply Forall_forall. elem_closed. Qed.

Lemma rule67_not_score c : c ∈ rule67_targets → c ∉ SCORE_COLS.
Proof. revert c. apply Forall_forall. elem_closed. Qed.

(** ** Every rule settles *)

Ltac score_col := elem_closed.

Lemma tiebreak_mask_score S T h_col a_col :
  df_stat_nulls S T → h_col ∈ SCORE_COLS → a_col ∈ SCORE_COLS →
  tiebreak_mask T h_col a_col = tiebreak_mask S h_col a_col.
Proof.
  intros H Hh Ha. unfold tiebreak_mask.
  by rewrite (getitem_score S T h_col), (getitem_score S T a_col).
Qed.

Lemma filter_has_col_rel P S T (names : list string) :
  df_rel P S T →
  filter (λ c, has_col T c) names = filter (λ c, has_col S c) names.
Proof.
  intros H. apply list_filter_iff. intros c.
  by rewrite (df_rel_has_col P S T c H).
Qed.

Lemma settles_rule1 sc : settles (rule1 sc).
Proof.
  assert (Hm : monotone (rule1 sc)).
  { intros S S'. apply rule1_rel; [apply cell_stat_nulls_preorder|].
    intros c v _ Hc. right. split; [reflexivity|by apply s3_not_score]. }
  split; [exact Hm|].
  intros S S' T H HR.
  pose proof (df_stat_nulls_trans _ _ _ (Hm _ _ H) HR) as HST.
  unfold rule1 in H |- *.
  rewrite (getitem_score S T "home_set3"), (getitem_score S T "match_score")
    by (done || score_col).
  inv_bind_goal H. injection H as <-.
  eapply (settles_null_cols _ _); [|reflexivity|exact HR].
  intros c [Hc _]%list_elem_of_filter. by apply s3_not_score, Is_true_true.
Qed.

Lemma settles_rule1b sc : settles (rule1b sc).
Proof.
  assert (Hm : monotone (rule1b sc)).
  { intros S S'. apply rule1b_rel; [apply cell_stat_nulls_preorder|].
    intros c v _ Hc. right. split; [reflexivity|by apply s2_not_score]. }
  split; [exact Hm|].
  intros S S' T H HR.
  pose proof (df_stat_nulls_trans _ _ _ (Hm _ _ H) HR) as HST.
  unfold rule1b in H |- *.
  rewrite (getitem_score S T "home_set2"), (getitem_score S T "match_score")
    by (done || score_col).
  inv_bind_goal H. injection H as <-.
  eapply (settles_null_cols _ _); [|reflexivity|exact HR].
  intros c [Hc _]%list_elem_of_filter. by apply s2_not_score, Is_true_true.
Qed.

Lemma settles_rule2_set n : n ∈ SETS → settles (rule2_set n).
Proof.
  intros Hn.
  assert (Hm : monotone (rule2_set n)).
  { intros S S'. apply rule2_set_rel; [apply cell_stat_nulls_preorder|].
    intros c v Hc. right. split; [reflexivity|by eapply tb_set_not_score]. }
  split; [exact Hm|].
  intros S S' T H HR.
  pose proof (df_stat_nulls_trans _ _ _ (Hm _ _ H) HR) as HST.
  assert (Hh : "home_set" +:+ n ∈ SCORE_COLS) by (elem_cases Hn; score_col).
  assert (Ha : "away_set" +:+ n ∈ SCORE_COLS) by (elem_cases Hn; score_col).
  unfold rule2_set in H |- *. cbv zeta in H |- *.
  rewrite (df_rel_has_col _ S T _ HST).
  destruct (negb _); [reflexivity|].
  rewrite (getitem_score S T _ HST Hh), (getitem_score S T _ HST Ha),
    (tiebreak_mask_score S T _ _ HST Hh Ha).
  unfold tb_per_set_cols in *. rewrite (filter_has_col_rel _ S T _ HST).
  inv_bind_goal H. injection H as <-.
  eapply (settles_null_cols _ _); [|reflexivity|exact HR].
  intros c [_ Hc]%list_elem_of_filter. by eapply tb_set_not_score.
Qed.

Lemma settles_rule2 : settles rule2.
Proof. apply settles_for_each. intros n. apply settles_rule2_set. Qed.

Lemma settles_rule3 : settles rule3.
Proof.
  assert (Hm : monotone rule3).
  { intros S S'. apply rule3_rel; [apply cell_stat_nulls_preorder|].
    intros c v Hc. right. split; [reflexivity|by apply overall_tb_not_score]. }
  split; [exact Hm|].
  intros S S' T H HR.
  pose proof (df_stat_nulls_trans _ _ _ (Hm _ _ H) HR) as HST.
  unfold rule3 in H |- *.
  rewrite !(tiebreak_mask_score S T _ _ HST) by score_col.
  rewrite (df_rel_has_col _ S T _ HST), (filter_has_col_rel _ S T _ HST).
  inv_bind_goal H. injection H as <-.
  eapply (settles_null_cols _ _); [|reflexivity|exact HR].
  intros c [_ Hc]%list_elem_of_filter. by apply overall_tb_not_score.
Qed.

Lemma settles_rule4 : settles (λ S, Ok (rule4 S)).
Proof.
  assert (Hm : monotone (λ S, Ok (rule4 S))).
  { intros S S' [= <-]. apply rule4_rel; [apply cell_stat_nulls_preorder|].
    intros c v Hc. right. split; [reflexivity|by apply s1_mp_not_score]. }
  split; [exact Hm|].
  intros S S' T H HR.
  pose proof (df_stat_nulls_trans _ _ _ (Hm _ _ H) HR) as HST.
  injection H as <-. unfold rule4 in *.
  rewrite (filter_has_col_rel _ S T _ HST).
  assert (Hs : settles (for_each (filter (λ c, has_col S c) s1_mp_names)
                          (λ c d, Ok (col_set_nan c d)))).
  { apply settles_for_each. intros c [_ Hc]%list_elem_of_filter.
    apply settles_null_rows. by apply s1_mp_not_score. }
  assert (Hf : ∀ cols d,
    for_each cols (λ c d, Ok (col_set_nan c d)) d =
    Ok (foldl (λ d col, col_set_nan col d) d cols)).
  { induction cols as [|c cols IH]; intros d; [reflexivity|]. cbn. apply IH. }
  rewrite <-Hf. eapply (proj2 Hs); [apply Hf|exact HR].
Qed.

Lemma settles_rule5_row int_of_str idx : settles (rule5_row int_of_str idx).
Proof.
  assert (Hm : monotone (rule5_row int_of_str idx)).
  { intros S S'. apply rule5_row_rel; [apply cell_stat_nulls_preorder|].
    intros c Hc. right. split; [reflexivity|by apply rule5_not_score]. }
  assert (Hs : ∀ side, side ∈ SIDES →
    settles (for_each ["mp_faced"; "mp_saved"]
               (λ stat, at_null_if_zero idx (side +:+ "_s2_" +:+ stat)))).
  { intros side Hside. apply settles_for_each. intros stat Hstat.
    apply settles_at_null_if_zero, rule5_not_score.
    elem_cases Hside; elem_cases Hstat; elem_closed. }
  split; [exact Hm|].
  intros S S' T H HR.
  pose proof (df_stat_nulls_trans _ _ _ (Hm _ _ H) HR) as HST.
  unfold rule5_row in H |- *.
  rewrite (at_get_score S T idx "home_set1"), (at_get_score S T idx "away_set1")
    by (done || score_col).
  inv_bind_goal H.
  destruct (is_nan a || is_nan a0); [reflexivity|].
  destruct (py_int int_of_str a) as [h|]; [|reflexivity].
  destruct (py_int int_of_str a0) as [a'|]; [|reflexivity].
  destruct (bool_decide (a' < h));
    [|destruct (bool_decide (h < a')); [|reflexivity]].
  - eapply (proj2 (Hs "home" _)); [exact H|exact HR].
  - eapply (proj2 (Hs "away" _)); [exact H|exact HR].
  Unshelve. all: elem_closed.
Qed.

Lemma settles_rule5 int_of_str : settles (rule5 int_of_str).
Proof.
  assert (Hm : monotone (rule5 int_of_str)).
  { intros S S'. apply rule5_rel; [apply cell_stat_nulls_preorder|].
    intros c Hc. right. split; [reflexivity|by apply rule5_not_score]. }
  split; [exact Hm|].
  intros S S' T H HR.
  pose proof (df_stat_nulls_trans _ _ _ (Hm _ _ H) HR) as HST.
  unfold rule5 in H |- *. rewrite (df_rel_nrows _ S T HST).
  eapply (proj2 (settles_for_each (seq 0 (nrows S)) (rule5_row int_of_str) _));
    [exact H|exact HR].
  Unshelve. intros idx _. apply settles_rule5_row.
Qed.

Lemma settles_rule67_pair side item :
  side ∈ SIDES → item ∈ CONDITIONAL_NAN_PAIRS → settles (rule67_pair side item).
Proof.
  intros Hside Hitem. unfold rule67_pair.
  apply (settles_bind (gate_overall _ _)).
  { apply settles_gate_overall, rule67_not_score.
    elem_cases Hside; elem_cases Hitem; elem_closed. }
  apply (settles_bind
    (λ df, match conv_col item.2, opp_col item.2 with
           | Some conv, Some opp =>
               gate_overall (side +:+ "_" +:+ opp) (side +:+ "_" +:+ conv) df
           | _, _ => Ok df
           end)).
  { elem_cases Hitem; cbn; first
      [ apply settles_ret
      | apply settles_gate_overall, rule67_not_score;
        elem_cases Hside; elem_closed ]. }
  apply settles_for_each. intros n Hn.
  apply (settles_bind (gate_set _ _)).
  { apply settles_gate_set, rule67_not_score.
    elem_cases Hside; elem_cases Hitem; elem_cases Hn; elem_closed. }
  elem_cases Hitem; cbn; first
    [ apply settles_ret
    | apply settles_gate_set, rule67_not_score;
      elem_cases Hside; elem_cases Hn; elem_closed ].
Qed.

Lemma settles_rule67 : settles rule67.
Proof.
  apply settles_for_each. intros side Hside.
  apply settles_for_each. intros item Hitem.
  by apply settles_rule67_pair.
Qed.

Lemma settles_engine_with int_of_str sc : settles (engine_with int_of_str sc).
Proof.
  unfold engine_with.
  apply (settles_bind (rule1 sc)); [apply settles_rule1|].
  apply (settles_bind (rule1b sc)); [apply settles_rule1b|].
  apply (settles_bind rule2); [apply settles_rule2|].
  apply (settles_bind rule3); [apply settles_rule3|].
  apply (settles_bind (λ S, Ok (rule4 S))); [apply settles_rule4|].
  apply (settles_bind (rule5 int_of_str)); [apply settles_rule5|].
  apply settles_rule67.
Qed.

(** ** Cell writes *)

Lemma has_col_alter_col f c c' df :
  has_col (alter_col f c df) c' = has_col df c'.
Proof. unfold has_col. by rewrite columns_alter_col. Qed.

Lemma nrows_alter_col f c df :
  (∀ vs, length (f vs) = length vs) →
  nrows (alter_col f c df) = nrows df.
Proof.
  intros Hf. destruct df as [|[c1 vs] df]; [reflexivity|].
  simpl. destruct (decide (c1 = c)); simpl; [apply Hf|reflexivity].
Qed.

Lemma lookup_col_app_l df df' c vs :
  lookup_col df c = Some vs → lookup_col (df ++ df')%list c = Some vs.
Proof.
  induction df as [|[c1 vs1] df IH]; [discriminate|].
  simpl. destruct (decide (c1 = c)); [done|exact IH].
Qed.

Lemma lookup_col_app_r df df' c :
  lookup_col df c = None →
  lookup_col (df ++ df')%list c = lookup_col df' c.
Proof.
  induction df as [|[c1 vs1] df IH]; [reflexivity|].
  simpl. destruct (decide (c1 = c)); [discriminate|exact IH].
Qed.

Lemma lookup_col_None_has_col df c :
  lookup_col df c = None → has_col df c = false.
Proof.
  intros H. destruct (has_col df c) eqn:E; [|reflexivity].
  apply has_col_true_lookup in E as [vs ?]. congruence.
Qed.

(** A write into an existing column. *)
Lemma cell_at_at_set_has idx c v df c' i :
  has_col df c = true →
  cell_at (at_set idx c v df) c' i =
  if decide (c = c' ∧ i = idx) then (λ _, v) <$> cell_at df c' i
  else cell_at df c' i.
Proof.
  intros Hc. unfold at_set. rewrite Hc. unfold cell_at.
  rewrite lookup_col_alter_col.
  destruct (decide (c = c')) as [<-|Hne].
  - destruct (lookup_col df c) as [vs|]; cbn.
    + destruct (decide (i = idx)) as [->|Hi].
      * rewrite decide_True by done.
        destruct (vs !! idx) eqn:E; cbn.
        -- apply list_lookup_insert_eq. by eapply lookup_lt_Some.
        -- apply lookup_ge_None. rewrite length_insert.
           by apply lookup_ge_None.
      * rewrite decide_False by (intros [_ ?]; done).
        by rewrite list_lookup_insert_ne.
    + by destruct (decide _).
  - by rewrite decide_False by (intros [? _]; done).
Qed.

Lemma columns_at_set_has idx c v df :
  has_col df c = true → columns (at_set idx c v df) = columns df.
Proof. intros Hc. unfold at_set. rewrite Hc. apply columns_alter_col. Qed.

Lemma nrows_at_set_has idx c v df :
  has_col df c = true → nrows (at_set idx c v df) = nrows df.
Proof.
  intros Hc. unfold at_set. rewrite Hc. apply nrows_alter_col.
  intros vs. apply length_insert.
Qed.

(** The cells of a frame with one more column of NaN. *)
Lemma cell_at_add_nan_col c df c' i :
  has_col df c = false →
  cell_at (add_nan_col c df) c' i =
  if decide (c = c')
  then (if decide (i < nrows df)%nat then Some NaN else None)
  else cell_at df c' i.
Proof.
  intros Hc. apply has_col_false_lookup in Hc.
  unfold cell_at, add_nan_col.
  destruct (decide (c = c')) as [<-|Hne].
  - rewrite lookup_col_app_r by done. simpl. rewrite decide_True by done. cbn.
    destruct (decide (i < nrows df)%nat).
    + by apply lookup_replicate_2.
    + apply lookup_ge_None. rewrite length_replicate. lia.
  - destruct (lookup_col df c') as [vs|] eqn:E.
    + by rewrite (lookup_col_app_l _ _ _ _ E).
    + rewrite lookup_col_app_r by done. simpl. by rewrite decide_False.
Qed.

Lemma has_col_add_nan_col c df c' :
  has_col (add_nan_col c df) c' = has_col df c' || bool_decide (c' = c).
Proof.
  unfold has_col, add_nan_col, columns. rewrite fmap_app. cbn.
  destruct (decide (c' ∈ df.*1)) as [Hin|Hnin].
  - rewrite (bool_decide_eq_true_2 (c' ∈ df.*1)) by done.
    rewrite bool_decide_eq_true_2; [reflexivity|].
    apply elem_of_app. by left.
  - rewrite (bool_decide_eq_false_2 (c' ∈ df.*1)) by done. cbn.
    apply bool_decide_ext. rewrite elem_of_app, list_elem_of_singleton.
    tauto.
Qed.

(** ** Monotonicity and idempotence of the engine *)

Lemma settles_run_rule int_of_str sc r : settles (run_rule int_of_str sc r).
Proof.
  destruct r; cbn.
  - apply settles_rule1.
  - apply settles_rule1b.
  - apply settles_rule2.
  - apply settles_rule3.
  - apply settles_rule4.
  - apply settles_rule5.
  - apply settles_rule67.
Qed.

Lemma df_stat_nulls_nulls S T : df_stat_nulls S T → df_nulls S T.
Proof.
  apply df_rel_mono. intros c v v' [->|[-> _]]; [by left|by right].
Qed.

(** C9: each rule only ever writes the missing marker.  Whatever the table,
    a rule that runs returns a table with the same columns and rows in which
    every cell is either unchanged or NaN; so a cell that was missing stays
    missing, and a cell that holds a value afterwards held that value
    before. *)
Theorem C9_rules_only_null (int_of_str : string → option Z)
    (stat_cols : list string) (r : rule_id) (S T : DataFrame) :
  run_rule int_of_str stat_cols r S = Ok T →
  df_nulls S T ∧
  (∀ c i, cell_at S c i = Some NaN → cell_at T c i = Some NaN) ∧
  (∀ c i v, cell_at T c i = Some v → v = NaN ∨ cell_at S c i = Some v).
Proof.
  intros H.
  assert (HN : df_nulls S T).
  { apply df_stat_nulls_nulls. exact (proj1 (settles_run_rule _ _ r) _ _ H). }
  split; [exact HN|]. split.
  - intros c i Hc. pose proof (df_rel_cell_at _ S T c i HN) as Hrel.
    rewrite Hc in Hrel. inversion Hrel as [? v' [->| ->]|]; reflexivity.
  - intros c i v Hc. pose proof (df_rel_cell_at _ S T c i HN) as Hrel.
    rewrite Hc in Hrel. inversion Hrel as [v0 ? [->| ->]|]; auto.
Qed.

(** C2: a second run of the engine leaves the table of the first run as it
    is. *)
Theorem C2_engine_idempotent (int_of_str : string → option Z)
    (df df1 : DataFrame) :
  engine int_of_str df = Ok df1 → engine int_of_str df1 = Ok df1.
Proof.
  unfold engine. intros H.
  destruct (settles_engine_with int_of_str (drop 28 (columns df))) as [Hm Hs].
  rewrite (df_rel_columns _ df df1 (Hm _ _ H)).
  eapply Hs; [exact H|]. apply df_rel_refl. by left.
Qed.

Lemma C9_rules_only_null_witness :
  ∃ T, run_rule no_text_int (drop 28 (columns sample)) Set2MatchPointRule
         sample = Ok T ∧
       df_nulls sample T ∧
       cell_at sample "away_s2_mp_faced" 1 = Some (Num 0) ∧
       cell_at T "away_s2_mp_faced" 1 = Some NaN.
Proof.
  eexists. split; [vm_compute; reflexivity|]. split.
  - apply (C9_rules_only_null no_text_int (drop 28 (columns sample))
             Set2MatchPointRule sample).
    vm_compute; reflexivity.
  - split; vm_compute; reflexivity.
Defined.

Lemma C2_engine_idempotent_witness :
  ∃ T, engine no_text_int sample = Ok T ∧ engine no_text_int T = Ok T.
Proof.
  eexists. split; [vm_compute; reflexivity|].
  apply (C2_engine_idempotent no_text_int sample). vm_compute; reflexivity.
Defined.

(** ** Which values the engine can lose *)

Lemma engine_with_rel P int_of_str sc S T :
  cell_preorder P →
  (∀ c v, c ∈ sc → str_in "_s3_" c = true → P c v NaN) →
  (∀ c v, c ∈ sc → str_in "_s2_" c = true → P c v NaN) →
  (∀ n c v, n ∈ SETS → c ∈ tb_set_names n → P c v NaN) →
  (∀ c v, c ∈ overall_tb_names → P c v NaN) →
  (∀ c v, c ∈ s1_mp_names → P c v NaN) →
  (∀ c, c ∈ rule5_targets → P c (Num 0) NaN) →
  (∀ c, c ∈ rule67_targets → P c (Num 0) NaN) →
  engine_with int_of_str sc S = Ok T → df_rel P S T.
Proof.
  intros HP H1 H1b H2 H3 H4 H5 H67 H. unfold engine_with in H. inv_bind H.
  eapply df_rel_trans; [exact HP|by eapply rule1_rel|].
  eapply df_rel_trans; [exact HP|by eapply rule1b_rel|].
  eapply df_rel_trans; [exact HP|by eapply rule2_rel|].
  eapply df_rel_trans; [exact HP|by eapply rule3_rel|].
  eapply df_rel_trans; [exact HP|by eapply rule4_rel|].
  eapply df_rel_trans; [exact HP|by eapply rule5_rel|].
  by eapply rule67_rel.
Qed.

Lemma cell_engine_nulls_preorder sc : cell_preorder (cell_engine_nulls sc).
Proof.
  split; [by left|]. unfold cell_engine_nulls.
  intros c v1 v2 v3 [->|[-> H1]] [->|[-> H2]]; auto.
Qed.

Lemma engine_with_engine_nulls int_of_str sc S T :
  engine_with int_of_str sc S = Ok T → df_rel (cell_engine_nulls sc) S T.
Proof.
  assert (Ht : ∀ c v, unconditional_target sc c = true →
                       cell_engine_nulls sc c v NaN).
  { intros c v Hc. right. auto. }
  apply engine_with_rel; [apply cell_engine_nulls_preorder|..].
  - intros c v Hin Hs. apply Ht. unfold unconditional_target.
    by rewrite bool_decide_eq_true_2, Hs.
  - intros c v Hin Hs. apply Ht. unfold unconditional_target.
    rewrite bool_decide_eq_true_2, Hs by done. by rewrite orb_true_r.
  - intros n c v Hn Hc. apply Ht. unfold unconditional_target.
    rewrite (bool_decide_eq_true_2 (c ∈ n ← SETS; tb_set_names n)).
    + by rewrite orb_true_r.
    + apply list_elem_of_bind. eauto.
  - intros c v Hc. apply Ht. unfold unconditional_target.
    rewrite (bool_decide_eq_true_2 (c ∈ overall_tb_names)) by done.
    by rewrite orb_true_r.
  - intros c v Hc. apply Ht. unfold unconditional_target.
    rewrite (bool_decide_eq_true_2 (c ∈ s1_mp_names)) by done.
    by rewrite orb_true_r.
  - intros c _. right. auto.
  - intros c _. right. auto.
Qed.




(** ** Opportunity gating, cell by cell *)

Lemma cell_at_gate faced saved S c i :
  cell_at (gate faced saved S) c i =
  if decide (saved = c) then
    match cell_at S faced i with
    | Some x => (λ y, if eq_num 0 x && eq_num 0 y then NaN else y)
                  <$> cell_at S saved i
    | None => cell_at S saved i
    end
  else cell_at S c i.
Proof.
  unfold gate.
  destruct (lookup_col S faced) as [f|] eqn:Ef.
  - destruct (lookup_col S saved) as [s|] eqn:Es.
    + rewrite cell_at_null_rows.
      destruct (decide (saved = c)) as [<-|]; [|reflexivity].
      unfold cell_at, both_zero. rewrite Ef, Es. cbn.
      destruct (f !! i) as [x|], (s !! i) as [y|]; reflexivity.
    + destruct (decide (saved = c)) as [<-|]; [|reflexivity].
      unfold cell_at. rewrite Ef, Es. cbn. by destruct (f !! i).
  - destruct (decide (saved = c)) as [<-|]; [|reflexivity].
    unfold cell_at. by rewrite Ef.
Qed.

Lemma run_gates_other gs S c i :
  c ∉ gs.*2 → cell_at (run_gates gs S) c i = cell_at S c i.
Proof.
  revert S.
  induction gs as [|[f s] gs IH]; intros S Hc; [reflexivity|].
  change (run_gates ((f, s) :: gs) S) with (run_gates gs (gate f s S)).
  change (((f, s) :: gs).*2) with (s :: gs.*2) in Hc.
  apply not_elem_of_cons in Hc as [Hne Hc].
  rewrite IH by done. rewrite cell_at_gate. by rewrite decide_False.
Qed.

Lemma run_gates_cell gs S f s i :
  NoDup gs.*2 → (∀ p, p ∈ gs → p.1 ∉ gs.*2) → (f, s) ∈ gs →
  cell_at (run_gates gs S) s i = cell_at (gate f s S) s i.
Proof.
  revert S. induction gs as [|[f0 s0] gs IH]; intros S Hnd Hdis Hin.
  - by apply elem_of_nil in Hin.
  - cbn in Hnd. apply NoDup_cons in Hnd as [Hs0 Hnd].
    apply elem_of_cons in Hin as [[= <- <-]|Hin].
    + change (run_gates ((f, s) :: gs) S) with (run_gates gs (gate f s S)).
      by apply run_gates_other.
    + change (run_gates ((f0, s0) :: gs) S) with (run_gates gs (gate f0 s0 S)).
      assert (Hs : s ≠ s0).
      { intros ->. apply Hs0. apply (list_elem_of_fmap_2 snd _ _ Hin). }
      assert (Hf : f ≠ s0).
      { intros ->. apply (Hdis (s0, s)); [by right|]. cbn. by left. }
      rewrite IH; [|exact Hnd| |exact Hin].
      * rewrite !(cell_at_gate f s), !decide_True by done.
        rewrite !(cell_at_gate f0 s0), !decide_False by done. reflexivity.
      * intros p Hp Hp'. apply (Hdis p); [by right|]. cbn. by right.
Qed.

Lemma run_gates_app gs1 gs2 S :
  run_gates (gs1 ++ gs2)%list S = run_gates gs2 (run_gates gs1 S).
Proof. apply foldl_app. Qed.

Lemma for_each_run {A} (xs : list A) body (g : A → list (string * string)) :
  (∀ x S, body x S = Ok (run_gates (g x) S)) →
  ∀ S, for_each xs body S = Ok (run_gates (xs ≫= g) S).
Proof.
  intros Hb. induction xs as [|x xs IH]; intros S; [reflexivity|].
  change ((x :: xs) ≫= g) with (g x ++ (xs ≫= g))%list.
  rewrite run_gates_app. cbn [for_each]. rewrite Hb. exact (IH _).
Qed.

Lemma rule67_pair_run side item S :
  rule67_pair side item S =
  Ok (run_gates
        (pair_gates side item.2 None
         ++ (SETS ≫= λ set_n, pair_gates side item.2 (Some set_n)))%list S).
Proof.
  unfold rule67_pair. rewrite run_gates_app, gate_overall_spec.
  cbn [mbind result_bind].
  destruct item as [pt [sv fc cv op]].
  cbn [snd saved_col faced_col conv_col opp_col].
  assert (Hsets : ∀ n S0,
    (df ← gate_set (side +:+ "_" +:+ ("s" +:+ n) +:+ "_" +:+ fc)
                   (side +:+ "_" +:+ ("s" +:+ n) +:+ "_" +:+ sv) S0;
     match cv, op with
     | Some conv, Some opp =>
         gate_set (side +:+ "_" +:+ ("s" +:+ n) +:+ "_" +:+ opp)
                  (side +:+ "_" +:+ ("s" +:+ n) +:+ "_" +:+ conv) df
     | _, _ => Ok df
     end) =
    Ok (run_gates (pair_gates side (NanPair sv fc cv op) (Some n)) S0)).
  { intros n S0. rewrite gate_set_spec. cbn [mbind result_bind].
    destruct cv as [cv|], op as [op|]; rewrite ?gate_set_spec; reflexivity. }
  destruct cv as [cv|], op as [op|]; rewrite ?gate_overall_spec;
    cbn [mbind result_bind];
    rewrite (for_each_run SETS _ _ Hsets); reflexivity.
Qed.

Lemma rule67_run S : rule67 S = Ok (run_gates rule67_gates S).
Proof.
  unfold rule67, rule67_gates.
  apply (for_each_run SIDES _
          (λ side, CONDITIONAL_NAN_PAIRS ≫= λ item,
             (pair_gates side item.2 None
              ++ (SETS ≫= λ set_n, pair_gates side item.2 (Some set_n)))%list)).
  intros side S0. apply for_each_run. intros item S1. apply rule67_pair_run.
Qed.

(** C3, as the code has it: for every side, scope and point family, the
    saved (or converted) cell of a row becomes NaN exactly when it is zero
    and the faced (or opportunities) cell of that row is present and zero;
    beside a missing counterpart a zero is left as it is. *)
Theorem C3_gate_needs_zero_counterpart (S : DataFrame) :
  ∃ T, rule67 S = Ok T ∧
    ∀ faced saved i x y,
      (faced, saved) ∈ rule67_gates →
      cell_at S faced i = Some x → cell_at S saved i = Some y →
      cell_at T saved i = Some (if eq_num 0 x && eq_num 0 y then NaN else y).
Proof.
  exists (run_gates rule67_gates S). split; [apply rule67_run|].
  intros faced saved i x y Hin Hx Hy.
  rewrite (run_gates_cell _ _ faced saved); [| | |exact Hin].
  - by rewrite cell_at_gate, decide_True, Hx, Hy.
  - apply (bool_decide_unpack _). vm_compute. exact I.
  - apply Forall_forall. apply (bool_decide_unpack _). vm_compute. exact I.
Qed.

Lemma C3_gate_witness :
  ("home_bp_faced", "home_bp_saved") ∈ rule67_gates ∧
  cell_at sample "home_bp_faced" 0 = Some (Num 0) ∧
  cell_at sample "home_bp_saved" 0 = Some (Num 0) ∧
  ∃ T, rule67 sample = Ok T ∧ cell_at T "home_bp_saved" 0 = Some NaN.
Proof.
  split; [elem_closed|].
  split; [vm_compute; reflexivity|]. split; [vm_compute; reflexivity|].
  destruct (C3_gate_needs_zero_counterpart sample) as (T & HT & Hcell).
  exists T. split; [exact HT|].
  apply (Hcell "home_bp_faced" "home_bp_saved" 0%nat (Num 0) (Num 0));
    [elem_closed|vm_compute; reflexivity|vm_compute; reflexivity].
Defined.

(** The claim as it is written fails: beside a missing faced (or
    opportunities) cell, a zero saved (or converted) cell is still zero
    after the rule. *)
Lemma C3_counterexample :
  ∃ T, rule67 sample = Ok T ∧
    (cell_at sample "away_sp_faced" 0 = Some NaN ∧
     cell_at sample "away_sp_saved" 0 = Some (Num 0) ∧
     cell_at T "away_sp_saved" 0 = Some (Num 0)) ∧
    (cell_at sample "away_bp_opportunities" 1 = Some NaN ∧
     cell_at sample "away_bp_converted" 1 = Some (Num 0) ∧
     cell_at T "away_bp_converted" 1 = Some (Num 0)).
Proof.
  eexists. split; [vm_compute; reflexivity|].
  vm_compute. repeat split.
Qed.

(** ** Rule 1, row by row *)

Lemma cell_at_null_cols mask cols S c i :
  cell_at (null_cols mask cols S) c i =
  if bool_decide (c ∈ cols)
  then (λ v, if default false (mask !! i) then NaN else v) <$> cell_at S c i
  else cell_at S c i.
Proof.
  unfold null_cols. revert S.
  induction cols as [|c0 cols IH]; intros S; [reflexivity|].
  cbn [foldl]. rewrite IH. unfold loc_set_nan. rewrite cell_at_null_rows.
  destruct (decide (c0 = c)) as [->|Hne].
  - rewrite (bool_decide_eq_true_2 (c ∈ c :: cols)) by by left.
    destruct (bool_decide (c ∈ cols)); [|reflexivity].
    destruct (cell_at S c i) as [v|]; [|reflexivity]. cbn.
    by destruct (default false (mask !! i)).
  - destruct (decide (c ∈ cols)) as [Hin|Hnin].
    + rewrite !bool_decide_eq_true_2; [reflexivity|by right|done].
    + rewrite !bool_decide_eq_false_2; [reflexivity| |done].
      intros [?|?]%elem_of_cons; congruence.
Qed.

Lemma getitem_cell_at S c vs i :
  getitem S c = Ok vs → cell_at S c i = vs !! i.
Proof.
  unfold getitem, cell_at.
  destruct (lookup_col S c); [|discriminate]. by intros [= ->].
Qed.

Lemma no_s3_lookup (h3 ms : list cell) i h m :
  h3 !! i = Some h → ms !! i = Some m →
  default false
    (bor (bor (bor (isna h3) (isin ["2-0"; "0-2"] ms))
              (isin ["1-0"; "0-1"; "0-0"] ms))
         (band (ser_eq_str "1-1" ms) (isna h3)) !! i)
  = lacks_set3 h m.
Proof.
  intros Hh Hm. unfold bor, band, isna, isin, ser_eq_str, lacks_set3.
  rewrite !lookup_zip_with, !list_lookup_fmap, Hh, Hm. reflexivity.
Qed.

Lemma lacks_set3_simpl h m :
  lacks_set3 h m =
  is_nan h || existsb (λ x, eq_str x m) ["2-0"; "0-2"; "1-0"; "0-1"; "0-0"].
Proof.
  unfold lacks_set3. cbn [existsb].
  destruct (is_nan h); cbn; [reflexivity|].
  rewrite andb_false_r, !orb_false_r.
  by rewrite <-!orb_assoc.
Qed.

(** C4, as the code has it: rule 1 nulls the set-3-scoped statistic cells of
    exactly the rows whose [home_set3] is missing, whatever [away_set3]
    holds, or whose [match_score] is one of 2-0, 0-2, 1-0, 0-1, 0-0; every
    other cell is left as it is.  A row with a [home_set3] count and a score
    outside that list is not such a row, also when its [away_set3] is
    missing. *)
Theorem C4_rule1_tests_home_set3 (stat_cols : list string) (S T : DataFrame)
    (c : string) (i : nat) (h ms v : cell) :
  rule1 stat_cols S = Ok T →
  cell_at S "home_set3" i = Some h →
  cell_at S "match_score" i = Some ms →
  cell_at S c i = Some v →
  cell_at T c i =
    Some (if bool_decide (c ∈ stat_cols) && str_in "_s3_" c
             && (is_nan h || existsb (λ x, eq_str x ms)
                               ["2-0"; "0-2"; "1-0"; "0-1"; "0-0"])
          then NaN else v).
Proof.
  intros H Hh Hm Hv. unfold rule1 in H. inv_bind H. injection H as <-.
  rewrite (getitem_cell_at _ _ _ i E) in Hh.
  rewrite (getitem_cell_at _ _ _ i E0) in Hm.
  rewrite cell_at_null_cols, Hv, (no_s3_lookup _ _ _ _ _ Hh Hm),
    lacks_set3_simpl.
  cbn [fmap option_fmap option_map].
  destruct (decide (c ∈ stat_cols)) as [Hin|Hnin].
  - rewrite (bool_decide_eq_true_2 (c ∈ stat_cols)) by done.
    destruct (str_in "_s3_" c) eqn:Hs.
    + rewrite bool_decide_eq_true_2; [reflexivity|].
      apply list_elem_of_filter. split; [by apply Is_true_true|done].
    + rewrite bool_decide_eq_false_2; [reflexivity|].
      intros [Hc _]%list_elem_of_filter. apply Is_true_true in Hc. congruence.
  - rewrite (bool_decide_eq_false_2 (c ∈ stat_cols)) by done.
    rewrite bool_decide_eq_false_2; [reflexivity|].
    by intros [_ ?]%list_elem_of_filter.
Qed.

Lemma C4_rule1_witness :
  ∃ T, rule1 (drop 28 (columns sample)) sample = Ok T ∧
    cell_at sample "home_set3" 1 = Some (Num 6) ∧
    cell_at sample "match_score" 1 = Some (Str "2-1") ∧
    cell_at sample "home_s3_bp_faced" 1 = Some (Num 4) ∧
    cell_at T "home_s3_bp_faced" 1 = Some (Num 4).
Proof.
  eexists. split; [vm_compute; reflexivity|].
  split; [vm_compute; reflexivity|]. split; [vm_compute; reflexivity|].
  split; [vm_compute; reflexivity|].
  apply (C4_rule1_tests_home_set3 (drop 28 (columns sample)) sample _
           "home_s3_bp_faced" 1%nat (Num 6) (Str "2-1") (Num 4));
    vm_compute; reflexivity.
Defined.

(** The claim as it is written fails: a row with a 2-1 score, no
    [home_set3] and a recorded [away_set3] does not lack set 3 by the
    description, and rule 1 nulls its set-3 statistics. *)
Lemma C4_counterexample :
  ∃ T, rule1 (drop 28 (columns sample_half_set3)) sample_half_set3 = Ok T ∧
    cell_at sample_half_set3 "home_set3" 1 = Some NaN ∧
    cell_at sample_half_set3 "away_set3" 1 = Some (Num 2) ∧
    cell_at sample_half_set3 "match_score" 1 = Some (Str "2-1") ∧
    described_lacks_set3 NaN (Num 2) (Str "2-1") = false ∧
    cell_at sample_half_set3 "home_s3_bp_faced" 1 = Some (Num 4) ∧
    cell_at T "home_s3_bp_faced" 1 = Some NaN.
Proof.
  eexists. split; [vm_compute; reflexivity|].
  vm_compute. repeat split.
Qed.

(** ** A table without the set-3 score columns *)

(** C8 fails on the code: on every table without a [home_set3] column rule 1
    raises KeyError, and so does the run, while the per-set tiebreak rule
    steps over the same missing column. *)
Theorem C8_rule1_raises_without_home_set3 (int_of_str : string → option Z)
    (df : DataFrame) :
  has_col df "home_set3" = false →
  rule1 (drop 28 (columns df)) df = KeyError "home_set3" ∧
  engine int_of_str df = KeyError "home_set3" ∧
  rule2_set "3" df = Ok df.
Proof.
  intros H. pose proof (has_col_false_lookup _ _ H) as Hl.
  assert (H1 : ∀ sc, rule1 sc df = KeyError "home_set3").
  { intros sc. unfold rule1, getitem. by rewrite Hl. }
  split; [apply H1|]. split.
  - unfold engine, engine_with. by rewrite H1.
  - unfold rule2_set. cbv zeta.
    change ("home_set" +:+ "3") with "home_set3". by rewrite H.
Qed.

Lemma C8_rule1_raises_witness :
  has_col sample_no_set3 "home_set3" = false ∧
  has_col sample_no_set3 "away_set3" = false ∧
  engine no_text_int sample_no_set3 = KeyError "home_set3".
Proof.
  split; [vm_compute; reflexivity|]. split; [vm_compute; reflexivity|].
  apply (C8_rule1_raises_without_home_set3 no_text_int sample_no_set3).
  vm_compute; reflexivity.
Defined.

(** ** The backfill writes *)

Section Backfill.

Context (row s : Series) (idx : nat).

Lemma fills_at_refl S : fills_at row s idx S S.
Proof. split; [done|]. intros c i. by left. Qed.

Lemma fills_at_trans S T U :
  fills_at row s idx S T → fills_at row s idx T U → fills_at row s idx S U.
Proof.
  intros [HcST HST] [HcTU HTU]. split; [by auto|]. intros c i.
  destruct (HTU c i) as [HU|[(-> & Hb & k & pv & Hk & Hpv & HU)|[HT HU]]].
  - rewrite HU. apply HST.
  - right. left. eauto 10.
  - destruct (HST c i) as [HS|[(_ & _ & k & pv & _ & _ & HS)|[_ HS]]];
      [|congruence..].
    right. right. split; congruence.
Qed.

Lemma foldl_fills {A} (step : DataFrame → A → DataFrame) (xs : list A) :
  (∀ x d, fills_at row s idx d (step d x)) →
  ∀ df, fills_at row s idx df (foldl step df xs).
Proof.
  intros Hs. induction xs as [|x xs IH]; intros df; [apply fills_at_refl|].
  simpl. eapply fills_at_trans; [apply Hs|apply IH].
Qed.

Lemma add_nan_col_fills c df :
  has_col df c = false → fills_at row s idx df (add_nan_col c df).
Proof.
  intros Hc. split.
  { intros c' Hc'. rewrite has_col_add_nan_col, Hc'. reflexivity. }
  intros c' i. rewrite cell_at_add_nan_col by done.
  destruct (decide (c = c')) as [<-|]; [|by left].
  assert (cell_at df c i = None) as Hn.
  { unfold cell_at. by rewrite (has_col_false_lookup _ _ Hc). }
  destruct (decide (i < nrows df)%nat); [|left; congruence].
  right. right. done.
Qed.

Lemma at_set_fills c k pv df :
  missing_or_blank (row c) = true → s k = Some pv → is_nan pv = false →
  fills_at row s idx df (at_set idx c pv df).
Proof.
  intros Hb Hk Hpv.
  assert (Hhas : ∀ d, has_col d c = true →
                      fills_at row s idx d (at_set idx c pv d)).
  { intros d Hc. split.
    { intros c' Hc'. unfold has_col. by rewrite columns_at_set_has. }
    intros c' i. rewrite cell_at_at_set_has by done.
    destruct (decide (c = c' ∧ i = idx)) as [[<- ->]|]; [|by left].
    destruct (cell_at d c idx); [|by left].
    right. left. eauto 10. }
  destruct (has_col df c) eqn:Hc; [by apply Hhas|].
  eapply fills_at_trans; [by apply add_nan_col_fills|].
  assert (Hc' : has_col (add_nan_col c df) c = true).
  { rewrite has_col_add_nan_col, bool_decide_eq_true_2 by done.
    apply orb_true_r. }
  replace (at_set idx c pv df) with (at_set idx c pv (add_nan_col c df)).
  - by apply Hhas.
  - unfold at_set. by rewrite Hc, Hc'.
Qed.

Lemma isna_missing_or_blank o : isna_opt o = true → missing_or_blank o = true.
Proof. unfold missing_or_blank. by intros ->. Qed.

Lemma fill_tb_fills scols set_n side df :
  fills_at row s idx df (fill_tb scols row s idx set_n side df).
Proof.
  unfold fill_tb. cbv zeta.
  destruct (_ && _); [|apply fills_at_refl].
  destruct (s _) as [pv|] eqn:Hk; [|apply fills_at_refl].
  destruct (negb (is_nan pv)) eqn:Hpv; [|apply fills_at_refl].
  destruct (isna_opt _) eqn:Hr; [|apply fills_at_refl]. cbn.
  eapply at_set_fills; [by apply isna_missing_or_blank|exact Hk|].
  by apply negb_true_iff.
Qed.

Lemma fill_time_fills scols item df :
  fills_at row s idx df (fill_time scols row s idx item df).
Proof.
  unfold fill_time. cbv zeta.
  destruct (_ && _); [|apply fills_at_refl].
  destruct (s _) as [pv|] eqn:Hk; [|apply fills_at_refl].
  destruct (negb (is_nan pv)) eqn:Hpv; [|apply fills_at_refl].
  destruct (missing_or_blank _) eqn:Hr; [|apply fills_at_refl]. cbn.
  eapply at_set_fills; [exact Hr|exact Hk|]. by apply negb_true_iff.
Qed.

Lemma fill_date_time_fills df :
  fills_at row s idx df (fill_date_time row s idx df).
Proof.
  unfold fill_date_time.
  destruct (s _) as [pv|] eqn:Hk; [|apply fills_at_refl].
  destruct (negb (is_nan pv)) eqn:Hpv; [|apply fills_at_refl].
  destruct (missing_or_blank _) eqn:Hr; [|apply fills_at_refl]. cbn.
  eapply at_set_fills; [exact Hr|exact Hk|]. by apply negb_true_iff.
Qed.

Lemma fill_surface_fills scols df :
  fills_at row s idx df (fill_surface scols row s idx df).
Proof.
  unfold fill_surface.
  destruct (bool_decide _); [|apply fills_at_refl].
  destruct (s _) as [pv|] eqn:Hk; [|apply fills_at_refl].
  destruct (negb (is_nan pv)) eqn:Hpv; [|apply fills_at_refl]. cbv zeta.
  eapply fills_at_trans.
  - instantiate (1 := if has_col df "court_type" then df
                      else add_nan_col "court_type" df).
    destruct (has_col df "court_type") eqn:Hc;
      [apply fills_at_refl|by apply add_nan_col_fills].
  - destruct (missing_or_blank _) eqn:Hr; [|apply fills_at_refl].
    eapply at_set_fills; [exact Hr|exact Hk|]. by apply negb_true_iff.
Qed.

Lemma backfill_row_fills scols df :
  fills_at row s idx df (backfill_row scols row s idx df).
Proof.
  unfold backfill_row. cbv zeta.
  eapply fills_at_trans; [|apply fill_surface_fills].
  eapply fills_at_trans; [|apply fill_date_time_fills].
  eapply fills_at_trans;
    [|apply foldl_fills; intros; apply fill_time_fills].
  apply foldl_fills. intros set_n d.
  apply foldl_fills. intros side d'. apply fill_tb_fills.
Qed.

End Backfill.

(** C6: the backfill of a row changes no cell of another row and no cell
    that the row holds with a value that is neither missing nor blank; a
    cell it does change was missing or blank in the row and now holds a page
    value that is present. *)
Theorem C6_backfill_keeps_nonblank (scrape_cols : list string)
    (row s : Series) (idx : nat) (df : DataFrame) (c : string) (i : nat)
    (v : cell) :
  cell_at df c i = Some v →
  (i ≠ idx → cell_at (backfill_row scrape_cols row s idx df) c i = Some v) ∧
  (row c = Some v → is_nan v = false → blank_opt (Some v) = false →
   cell_at (backfill_row scrape_cols row s idx df) c i = Some v) ∧
  (cell_at (backfill_row scrape_cols row s idx df) c i ≠ Some v →
   i = idx ∧ missing_or_blank (row c) = true ∧
   ∃ k pv, s k = Some pv ∧ is_nan pv = false ∧
           cell_at (backfill_row scrape_cols row s idx df) c i = Some pv).
Proof.
  intros Hv.
  pose proof (proj2 (backfill_row_fills row s idx scrape_cols df) c i) as Hf.
  split; [|split].
  - intros Hi. destruct Hf as [->|[(-> & _)|[Hn _]]]; [exact Hv|done|congruence].
  - intros Hr Hnan Hbl.
    destruct Hf as [->|[(-> & Hb & _)|[Hn _]]]; [exact Hv| |congruence].
    rewrite Hr in Hb. unfold missing_or_blank, isna_opt, notna_opt in Hb.
    rewrite Hnan, Hbl in Hb. discriminate.
  - intros Hne.
    destruct Hf as [Hs|[(-> & Hb & Hpv)|[Hn _]]]; [congruence| |congruence].
    auto.
Qed.

Lemma C6_backfill_witness :
  cell_at sample "time_overall" 0 = Some (Str "1:25") ∧
  iterrow sample 0 "time_overall" = Some (Str "1:25") ∧
  iterrow sample_scrape 0 "page_time_overall" = Some (Str "1:30") ∧
  cell_at (backfill_row (columns sample_scrape) (iterrow sample 0)
             (iterrow sample_scrape 0) 0 sample) "time_overall" 0
  = Some (Str "1:25").
Proof.
  split; [vm_compute; reflexivity|]. split; [vm_compute; reflexivity|].
  split; [vm_compute; reflexivity|].
  refine (proj1 (proj2 (C6_backfill_keeps_nonblank (columns sample_scrape)
           (iterrow sample 0) (iterrow sample_scrape 0) 0 sample
           "time_overall" 0 (Str "1:25") _)) _ _ _).
  - vm_compute; reflexivity.
  - vm_compute; reflexivity.
  - reflexivity.
  - reflexivity.
Defined.

(** ** Strings of the swap *)

Lemma replace_first_prefix old new s :
  startswith old s = true →
  replace_first old new s = new +:+ str_drop (String.length old) s.
Proof. destruct s; cbn [replace_first]; by intros ->. Qed.

Lemma startswith_app p s :
  startswith p s = true → s = p +:+ str_drop (String.length p) s.
Proof.
  revert s. induction p as [|a p IH]; intros s; [reflexivity|].
  destruct s as [|b s]; [discriminate|]. cbn [startswith].
  destruct (Ascii.eqb a b) eqn:E; [|discriminate].
  apply Ascii.eqb_eq in E as ->. intros H.
  change (String b s = String b (p +:+ str_drop (String.length p) s)).
  f_equal. by apply IH.
Qed.

Lemma home_col_split hc :
  startswith "home_" hc = true →
  ∃ sfx, hc = "home_" +:+ sfx ∧
         replace_first "home_" "away_" hc = "away_" +:+ sfx.
Proof.
  intros H. exists (str_drop 5 hc). split.
  - by apply (startswith_app "home_").
  - by rewrite replace_first_prefix.
Qed.

Lemma swapped_value_home row sfx :
  swapped_value row ("home_" +:+ sfx) = row ("away_" +:+ sfx).
Proof. unfold swapped_value. repeat (rewrite decide_False by done). done. Qed.

Lemma swapped_value_away row sfx :
  swapped_value row ("away_" +:+ sfx) = row ("home_" +:+ sfx).
Proof. unfold swapped_value. repeat (rewrite decide_False by done). done. Qed.

Lemma ascii_eqb_sym a b : Ascii.eqb a b = Ascii.eqb b a.
Proof.
  destruct (Ascii.eqb a b) eqn:E.
  - apply Ascii.eqb_eq in E as ->. symmetry. apply Ascii.eqb_refl.
  - symmetry. apply Ascii.eqb_neq. apply Ascii.eqb_neq in E. congruence.
Qed.

Lemma str_in_dash_cons a s :
  str_in "-" (String a s) = Ascii.eqb a "-" || str_in "-" s.
Proof.
  change (str_in "-" (String a s))
    with ((if Ascii.eqb "-" a then true else false) || str_in "-" s).
  rewrite (ascii_eqb_sym "-" a). by destruct (Ascii.eqb a "-").
Qed.

Lemma split_dash_nodash s : str_in "-" s = false → split_dash s = [s].
Proof.
  induction s as [|a s IH]; [reflexivity|].
  rewrite str_in_dash_cons. intros [Ha Hs]%orb_false_iff.
  cbn [split_dash]. rewrite Ha, (IH Hs). reflexivity.
Qed.

Lemma split_dash_app w l :
  str_in "-" w = false →
  split_dash (w +:+ "-" +:+ l) = w :: split_dash l.
Proof.
  induction w as [|a w IH]; [reflexivity|].
  rewrite str_in_dash_cons. intros [Ha Hw]%orb_false_iff.
  change (String a w +:+ "-" +:+ l) with (String a (w +:+ "-" +:+ l)).
  cbn [split_dash]. by rewrite Ha, (IH Hw).
Qed.

Lemma str_in_dash_app w l : str_in "-" (w +:+ "-" +:+ l) = true.
Proof.
  induction w as [|a w IH]; [reflexivity|].
  change (String a w +:+ "-" +:+ l) with (String a (w +:+ "-" +:+ l)).
  rewrite str_in_dash_cons, IH. apply orb_true_r.
Qed.

Lemma swapped_value_score row w l :
  row "match_score" = Some (Str (w +:+ "-" +:+ l)) →
  str_in "-" w = false → str_in "-" l = false →
  swapped_value row "match_score" = Some (Str (l +:+ "-" +:+ w)).
Proof.
  intros Hr Hw Hl. unfold swapped_value.
  repeat (rewrite decide_False by done). rewrite decide_True by done.
  rewrite Hr. cbn [score_text].
  by rewrite str_in_dash_app, split_dash_app, split_dash_nodash.
Qed.

(** ** Writes that follow a plan *)

Section Writes.

Context (W : string → option cell) (idx : nat).

Lemma writes_at_refl S : writes_at W idx S S.
Proof. split; [done|]. split; [done|]. intros c i. by left. Qed.

Lemma writes_at_trans S T U :
  writes_at W idx S T → writes_at W idx T U → writes_at W idx S U.
Proof.
  intros (Hc1 & Hn1 & H1) (Hc2 & Hn2 & H2).
  split; [congruence|]. split; [congruence|]. intros c i.
  destruct (H2 c i) as [->|(-> & Hs & Hw & ->)]; [apply H1|].
  right. split; [done|]. split; [|done].
  destruct (H1 c idx) as [<-|(_ & ? & _)]; done.
Qed.

Lemma writes_at_has_col S T c :
  writes_at W idx S T → has_col T c = has_col S c.
Proof. intros (Hc & _). unfold has_col. by rewrite Hc. Qed.

Lemma writes_at_is_Some S T c i :
  writes_at W idx S T → is_Some (cell_at S c i) → is_Some (cell_at T c i).
Proof.
  intros (_ & _ & H) Hs.
  destruct (H c i) as [->|(_ & _ & Hw & ->)]; done.
Qed.

Lemma writes_at_keep S T c :
  writes_at W idx S T → is_Some (W c) →
  cell_at S c idx = W c → cell_at T c idx = W c.
Proof.
  intros (_ & _ & H) Hw Hs.
  destruct (H c idx) as [->|(_ & _ & _ & ->)]; done.
Qed.

Lemma writes_at_other S T c i :
  writes_at W idx S T → i ≠ idx ∨ W c = None →
  cell_at T c i = cell_at S c i.
Proof.
  intros (_ & _ & H) Hi.
  destruct (H c i) as [->|(-> & _ & Hw & _)]; [done|].
  destruct Hi as [?|Hn]; [done|]. rewrite Hn in Hw. by destruct Hw.
Qed.

Lemma at_set_writes c v S :
  has_col S c = true → W c = Some v → writes_at W idx S (at_set idx c v S).
Proof.
  intros Hc Hw. split; [by apply columns_at_set_has|].
  split; [by apply nrows_at_set_has|]. intros c' i.
  rewrite cell_at_at_set_has by done.
  destruct (decide (c = c' ∧ i = idx)) as [[<- ->]|]; [|by left].
  destruct (cell_at S c idx) eqn:E; [|by left].
  right. rewrite Hw. eauto.
Qed.

Lemma at_set_written c v S :
  has_col S c = true → is_Some (cell_at S c idx) →
  cell_at (at_set idx c v S) c idx = Some v.
Proof.
  intros Hc [v0 Hs]. rewrite cell_at_at_set_has, decide_True, Hs by done.
  reflexivity.
Qed.

Lemma for_each_writes {A} (xs : list A) body :
  (∀ x S T, x ∈ xs → body x S = Ok T → writes_at W idx S T) →
  ∀ S T, for_each xs body S = Ok T → writes_at W idx S T.
Proof.
  induction xs as [|x xs IH]; intros Hb S T H.
  - cbn in H. injection H as <-. apply writes_at_refl.
  - cbn in H. inv_bind H. eapply writes_at_trans.
    + eapply Hb; [by left|exact E].
    + eapply IH; [|exact H]. intros y S0 T0 Hy. apply Hb. by right.
Qed.

End Writes.

Lemma is_Some_cell_has_col df c i : is_Some (cell_at df c i) → has_col df c = true.
Proof.
  intros [v Hv]. apply has_col_lookup. unfold cell_at in Hv.
  destruct (lookup_col df c); [eauto|discriminate].
Qed.

(** ** The swap of one row *)

Lemma ser_getitem_Ok row c v : ser_getitem row c = Ok v → row c = Some v.
Proof. unfold ser_getitem. destruct (row c); [by intros [= ->]|discriminate]. Qed.

Section Swap.

Context (row : Series) (idx : nat).

Local Abbreviation W := (swapped_value row).

Lemma swap_pair_writes hc S T :
  startswith "home_" hc = true → has_col S hc = true →
  swap_pair row idx hc S = Ok T → writes_at W idx S T.
Proof.
  intros Hh Hc H. destruct (home_col_split hc Hh) as (sfx & -> & Hac).
  unfold swap_pair in H. cbv zeta in H. rewrite Hac in H.
  destruct (has_col S ("away_" +:+ sfx)) eqn:Ha;
    [|injection H as <-; apply writes_at_refl].
  inv_bind H. injection H as <-.
  apply ser_getitem_Ok in E, E0.
  eapply writes_at_trans.
  - apply at_set_writes; [exact Hc|]. by rewrite swapped_value_home.
  - apply at_set_writes; [|by rewrite swapped_value_away].
    unfold has_col. rewrite columns_at_set_has by done. exact Ha.
Qed.

Lemma swap_pair_written sfx S T :
  snapshot_in row idx S →
  has_col S ("home_" +:+ sfx) = true → has_col S ("away_" +:+ sfx) = true →
  swap_pair row idx ("home_" +:+ sfx) S = Ok T →
  is_Some (row ("away_" +:+ sfx)) ∧ is_Some (row ("home_" +:+ sfx)) ∧
  cell_at T ("home_" +:+ sfx) idx = row ("away_" +:+ sfx) ∧
  cell_at T ("away_" +:+ sfx) idx = row ("home_" +:+ sfx).
Proof.
  intros Hsnap Hc Ha H. unfold swap_pair in H. cbv zeta in H.
  rewrite (replace_first_prefix "home_" "away_") in H by done.
  change ("away_" +:+ str_drop (String.length "home_") ("home_" +:+ sfx))
    with ("away_" +:+ sfx) in H.
  rewrite Ha in H. inv_bind H. injection H as <-.
  apply ser_getitem_Ok in E, E0. rewrite E, E0.
  split; [done|]. split; [done|].
  assert (Ha' : has_col (at_set idx ("home_" +:+ sfx) a S) ("away_" +:+ sfx)
                = true).
  { unfold has_col. rewrite columns_at_set_has by done. exact Ha. }
  split.
  - rewrite cell_at_at_set_has, decide_False by (done || by intros [? _]).
    apply at_set_written; [done|]. by eapply Hsnap.
  - apply at_set_written; [done|].
    rewrite cell_at_at_set_has, decide_False by (done || by intros [? _]).
    by eapply Hsnap.
Qed.

Lemma swap_loop_writes cols S T :
  (∀ h, h ∈ cols → startswith "home_" h = true ∧ has_col S h = true) →
  for_each cols (swap_pair row idx) S = Ok T → writes_at W idx S T.
Proof.
  revert S. induction cols as [|h cols IH]; intros S Hcols H.
  - injection H as <-. apply writes_at_refl.
  - cbn in H. inv_bind H.
    destruct (Hcols h) as [Hh Hc]; [by left|].
    pose proof (swap_pair_writes _ _ _ Hh Hc E) as HW.
    eapply writes_at_trans; [exact HW|]. apply IH; [|exact H].
    intros h' Hin. destruct (Hcols h') as [? ?]; [by right|].
    split; [done|]. by rewrite (writes_at_has_col _ _ _ _ _ HW).
Qed.

Lemma snapshot_in_writes S T :
  writes_at W idx S T → snapshot_in row idx S → snapshot_in row idx T.
Proof.
  intros HW Hs c v Hr. eapply writes_at_is_Some; [exact HW|]. by eapply Hs.
Qed.

Lemma swap_loop_written cols S T sfx :
  snapshot_in row idx S →
  (∀ h, h ∈ cols → startswith "home_" h = true ∧ has_col S h = true) →
  for_each cols (swap_pair row idx) S = Ok T →
  "home_" +:+ sfx ∈ cols → has_col S ("away_" +:+ sfx) = true →
  is_Some (row ("away_" +:+ sfx)) ∧ is_Some (row ("home_" +:+ sfx)) ∧
  cell_at T ("home_" +:+ sfx) idx = row ("away_" +:+ sfx) ∧
  cell_at T ("away_" +:+ sfx) idx = row ("home_" +:+ sfx).
Proof.
  revert S. induction cols as [|h cols IH]; intros S Hsnap Hcols H Hin Ha.
  - by apply elem_of_nil in Hin.
  - cbn in H. inv_bind H.
    destruct (Hcols h) as [Hh Hc]; [by left|].
    pose proof (swap_pair_writes _ _ _ Hh Hc E) as HW.
    assert (Hcols' : ∀ h', h' ∈ cols →
              startswith "home_" h' = true ∧ has_col a h' = true).
    { intros h' Hin'. destruct (Hcols h') as [? ?]; [by right|].
      split; [done|]. by rewrite (writes_at_has_col _ _ _ _ _ HW). }
    apply elem_of_cons in Hin as [<-|Hin].
    + destruct (swap_pair_written _ _ _ Hsnap Hc Ha E) as (Hra & Hrh & H1 & H2).
      pose proof (swap_loop_writes _ _ _ Hcols' H) as HW'.
      split; [done|]. split; [done|]. split.
      * rewrite <-swapped_value_home.
        apply (writes_at_keep _ _ _ _ _ HW');
          rewrite swapped_value_home; done.
      * rewrite <-swapped_value_away.
        apply (writes_at_keep _ _ _ _ _ HW');
          rewrite swapped_value_away; done.
    + apply (IH a); [by eapply snapshot_in_writes|done|done|done|].
      by rewrite (writes_at_has_col _ _ _ _ _ HW).
Qed.

End Swap.

Lemma swapped_value_player row :
  swapped_value row "player_home" = row "player_away" ∧
  swapped_value row "player_away" = row "player_home" ∧
  swapped_value row "player_home_id" = row "player_away_id" ∧
  swapped_value row "player_away_id" = row "player_home_id".
Proof. done. Qed.

Lemma score_text_dash_Some row :
  str_in "-" (score_text (row "match_score")) = true →
  is_Some (row "match_score").
Proof. destruct (row "match_score"); [done|discriminate]. Qed.

(** What the swap leaves in the row of a swapped match: the frame comes from
    planned writes; the player cells, the paired side columns and a match
    score with a dash hold their planned value. *)
Lemma swap_row_spec row s idx D D' :
  snapshot_in row idx D →
  s "ha_status" = Some (Str "swapped") →
  swap_row row s idx D = Ok D' →
  writes_at (swapped_value row) idx D D' ∧
  (cell_at D' "player_home" idx = row "player_away" ∧
   cell_at D' "player_away" idx = row "player_home" ∧
   cell_at D' "player_home_id" idx = row "player_away_id" ∧
   cell_at D' "player_away_id" idx = row "player_home_id") ∧
  (∀ sfx, has_col D ("home_" +:+ sfx) = true →
          has_col D ("away_" +:+ sfx) = true →
          cell_at D' ("home_" +:+ sfx) idx = row ("away_" +:+ sfx) ∧
          cell_at D' ("away_" +:+ sfx) idx = row ("home_" +:+ sfx)) ∧
  (is_Some (swapped_value row "match_score") →
   cell_at D' "match_score" idx = swapped_value row "match_score").
Proof.
  intros Hsnap Hsw H. unfold swap_row in H.
  rewrite bool_decide_eq_true_2 in H by done.
  inv_bind H. cbv zeta in H.
  destruct (swapped_value_player row) as (Wph & Wpa & Wphi & Wpai).
  apply ser_getitem_Ok in E, E0, E1, E2.
  set (W := swapped_value row) in *.
  set (D1 := at_set idx "player_home" a D) in *.
  set (D2 := at_set idx "player_away" a0 D1) in *.
  set (D3 := at_set idx "player_home_id" a1 D2) in *.
  set (D4 := at_set idx "player_away_id" a2 D3) in *.
  assert (Hc : ∀ c v, row c = Some v → has_col D c = true).
  { intros c v Hr. eapply is_Some_cell_has_col. by eapply Hsnap. }
  assert (W1 : writes_at W idx D D1).
  { apply at_set_writes; [by eapply Hc|]. by rewrite Wph. }
  assert (W2 : writes_at W idx D1 D2).
  { apply at_set_writes; [|by rewrite Wpa].
    rewrite (writes_at_has_col _ _ _ _ _ W1). by eapply Hc. }
  assert (W3 : writes_at W idx D2 D3).
  { apply at_set_writes; [|by rewrite Wphi].
    rewrite (writes_at_has_col _ _ _ _ _ W2),
      (writes_at_has_col _ _ _ _ _ W1). by eapply Hc. }
  assert (W4 : writes_at W idx D3 D4).
  { apply at_set_writes; [|by rewrite Wpai].
    rewrite (writes_at_has_col _ _ _ _ _ W3),
      (writes_at_has_col _ _ _ _ _ W2),
      (writes_at_has_col _ _ _ _ _ W1). by eapply Hc. }
  pose proof (writes_at_trans _ _ _ _ _ W1 W2) as W12.
  pose proof (writes_at_trans _ _ _ _ _ W12 W3) as W13.
  pose proof (writes_at_trans _ _ _ _ _ W13 W4) as W14.
  assert (Hcols : ∀ h, h ∈ filter (λ c, startswith "home_" c) (columns D4) →
            startswith "home_" h = true ∧ has_col D4 h = true).
  { intros h [Hh Hin]%list_elem_of_filter. split; [by apply Is_true_true|].
    unfold has_col. by apply bool_decide_eq_true_2. }
  pose proof (swap_loop_writes _ _ _ _ _ Hcols E3) as W5.
  pose proof (writes_at_trans _ _ _ _ _ W14 W5) as W15.
  assert (Hsnap5 : snapshot_in row idx a3) by by eapply snapshot_in_writes.
  assert (W6 : writes_at W idx a3 D' ∧
               (is_Some (W "match_score") → cell_at D' "match_score" idx
                                             = W "match_score")).
  { unfold W at 2 3. unfold swapped_value.
    repeat (rewrite decide_False by done). rewrite decide_True by done.
    cbv zeta.
    destruct (str_in "-" (score_text (row "match_score"))) eqn:Hd;
      [|injection H as <-; split; [apply writes_at_refl|by intros [? ?]]].
    destruct (split_dash _ !! 1%nat) as [p1|] eqn:Hp1; [|discriminate].
    destruct (split_dash _ !! 0%nat) as [p0|] eqn:Hp0; [|discriminate].
    injection H as <-.
    destruct (score_text_dash_Some _ Hd) as [v Hv].
    assert (Hm : is_Some (cell_at a3 "match_score" idx)) by by eapply Hsnap5.
    split.
    - apply at_set_writes; [by eapply is_Some_cell_has_col|].
      unfold W, swapped_value.
      repeat (rewrite decide_False by done). rewrite decide_True by done.
      cbv zeta. by rewrite Hd, Hp1, Hp0.
    - intros _. apply at_set_written; [by eapply is_Some_cell_has_col|done]. }
  destruct W6 as [W6 Hscore].
  pose proof (writes_at_trans _ _ _ _ _ W5 W6) as W56.
  pose proof (writes_at_trans _ _ _ _ _ W4 W56) as W46.
  pose proof (writes_at_trans _ _ _ _ _ W3 W46) as W36.
  pose proof (writes_at_trans _ _ _ _ _ W2 W36) as W26.
  split; [by eapply writes_at_trans|]. split; [|split; [|exact Hscore]].
  - assert (K : ∀ c v Dk, writes_at W idx Dk D' → W c = Some v →
                cell_at Dk c idx = Some v → cell_at D' c idx = Some v).
    { intros c v Dk HW Hw Hk. rewrite <-Hw.
      eapply writes_at_keep; [exact HW|by rewrite Hw|congruence]. }
    rewrite E, E0, E1, E2. repeat split.
    + apply (K _ _ D1); [exact W26|by rewrite Wph|].
      apply at_set_written; [by eapply Hc|by eapply Hsnap].
    + apply (K _ _ D2); [exact W36|by rewrite Wpa|].
      apply at_set_written;
        [by eapply is_Some_cell_has_col, (snapshot_in_writes _ _ _ _ W1)
        |by eapply (snapshot_in_writes _ _ _ _ W1)].
    + apply (K _ _ D3); [exact W46|by rewrite Wphi|].
      apply at_set_written;
        [by eapply is_Some_cell_has_col, (snapshot_in_writes _ _ _ _ W12)
        |by eapply (snapshot_in_writes _ _ _ _ W12)].
    + apply (K _ _ D4); [exact W56|by rewrite Wpai|].
      apply at_set_written;
        [by eapply is_Some_cell_has_col, (snapshot_in_writes _ _ _ _ W13)
        |by eapply (snapshot_in_writes _ _ _ _ W13)].
  - subst W. intros sfx Hh Ha.
    assert (Hin : "home_" +:+ sfx
                  ∈ filter (λ c, startswith "home_" c) (columns D4)).
    { apply list_elem_of_filter. split; [done|].
      destruct W14 as (-> & _). unfold has_col in Hh.
      by apply bool_decide_eq_true in Hh. }
    assert (Ha4 : has_col D4 ("away_" +:+ sfx) = true).
    { by rewrite (writes_at_has_col _ _ _ _ _ W14). }
    destruct (swap_loop_written row idx _ _ _ sfx
                (snapshot_in_writes _ _ _ _ W14 Hsnap) Hcols E3 Hin Ha4)
      as (Hra & Hrh & H1 & H2).
    split.
    + rewrite <-swapped_value_home.
      apply (writes_at_keep _ _ _ _ _ W6); rewrite swapped_value_home; done.
    + rewrite <-swapped_value_away.
      apply (writes_at_keep _ _ _ _ _ W6); rewrite swapped_value_away; done.
Qed.

(** ** The swap corrector on a table row *)

Lemma snapshot_in_iterrow df idx : snapshot_in (iterrow df idx) idx df.
Proof. intros c v Hr. unfold iterrow in Hr. by rewrite Hr. Qed.

Lemma swapped_value_other row c :
  c ∉ ["player_home"; "player_away"; "player_home_id"; "player_away_id";
       "match_score"] →
  startswith "home_" c = false → startswith "away_" c = false →
  swapped_value row c = None.
Proof.
  intros Hc Hh Ha. unfold swapped_value.
  repeat (rewrite decide_False by (intros ->; apply Hc; elem_closed)).
  by rewrite Hh, Ha.
Qed.

(** C5: on a row classified swapped the swap exchanges the two player names
    and the two player ids, exchanges every [home_] column with the [away_]
    column of the same suffix, turns a match score W-L into L-W, and leaves
    every other row and every column that is not side-specific as it
    was. *)
Theorem C5_swap_exchanges_sides (s : Series) (idx : nat) (df df' : DataFrame) :
  s "ha_status" = Some (Str "swapped") →
  swap_row (iterrow df idx) s idx df = Ok df' →
  (cell_at df' "player_home" idx = cell_at df "player_away" idx ∧
   cell_at df' "player_away" idx = cell_at df "player_home" idx ∧
   cell_at df' "player_home_id" idx = cell_at df "player_away_id" idx ∧
   cell_at df' "player_away_id" idx = cell_at df "player_home_id" idx) ∧
  (∀ sfx, has_col df ("home_" +:+ sfx) = true →
          has_col df ("away_" +:+ sfx) = true →
          cell_at df' ("home_" +:+ sfx) idx = cell_at df ("away_" +:+ sfx) idx ∧
          cell_at df' ("away_" +:+ sfx) idx = cell_at df ("home_" +:+ sfx) idx) ∧
  (∀ w l, cell_at df "match_score" idx = Some (Str (w +:+ "-" +:+ l)) →
          str_in "-" w = false → str_in "-" l = false →
          cell_at df' "match_score" idx = Some (Str (l +:+ "-" +:+ w))) ∧
  (∀ c i, (i ≠ idx ∨
           ((c ∉ ["player_home"; "player_away"; "player_home_id";
                  "player_away_id"; "match_score"])
            ∧ startswith "home_" c = false ∧ startswith "away_" c = false)) →
          cell_at df' c i = cell_at df c i).
Proof.
  intros Hsw H.
  destruct (swap_row_spec _ _ _ _ _ (snapshot_in_iterrow df idx) Hsw H)
    as (HW & Hplayers & Hpairs & Hscore).
  split; [exact Hplayers|]. split; [exact Hpairs|]. split.
  - intros w l Hms Hw Hl.
    pose proof (swapped_value_score (iterrow df idx) w l Hms Hw Hl) as Hv.
    rewrite Hscore; [exact Hv|by rewrite Hv].
  - intros c i [Hi|(Hc & Hh & Ha)].
    + eapply writes_at_other; [exact HW|by left].
    + eapply writes_at_other; [exact HW|]. right.
      by apply swapped_value_other.
Qed.

Lemma C5_swap_witness :
  iterrow swap_example_scrape 0 "ha_status" = Some (Str "swapped") ∧
  ∃ df',
    swap_row (iterrow swap_example 0) (iterrow swap_example_scrape 0) 0
      swap_example = Ok df' ∧
    df' = [("match_uid", [Str "m1"]);
           ("player_home", [Str "B"]);
           ("player_away", [Str "A"]);
           ("player_home_id", [Str "idB"]);
           ("player_away_id", [Str "idA"]);
           ("match_score", [Str "0-2"]);
           ("home_set1", [Num 3]);
           ("away_set1", [Num 6]);
           ("time_overall", [Str "1:05"]);
           ("list_date_time", [Str "01.02.2020 10:00"])] ∧
    cell_at df' "player_home" 0 = cell_at swap_example "player_away" 0 ∧
    cell_at df' "home_set1" 0 = cell_at swap_example "away_set1" 0 ∧
    cell_at df' "match_score" 0 = Some (Str "0-2") ∧
    cell_at df' "time_overall" 0 = cell_at swap_example "time_overall" 0.
Proof.
  split; [vm_compute; reflexivity|]. eexists.
  split; [vm_compute; reflexivity|]. split; [reflexivity|].
  assert (Hrun : swap_row (iterrow swap_example 0)
                   (iterrow swap_example_scrape 0) 0 swap_example
                 = Ok [("match_uid", [Str "m1"]);
           ("player_home", [Str "B"]);
           ("player_away", [Str "A"]);
           ("player_home_id", [Str "idB"]);
           ("player_away_id", [Str "idA"]);
           ("match_score", [Str "0-2"]);
           ("home_set1", [Num 3]);
           ("away_set1", [Num 6]);
           ("time_overall", [Str "1:05"]);
           ("list_date_time", [Str "01.02.2020 10:00"])])
    by (vm_compute; reflexivity).
  destruct (C5_swap_exchanges_sides (iterrow swap_example_scrape 0) 0
              swap_example _ ltac:(vm_compute; reflexivity) Hrun)
    as (Hp & Hpairs & Hscore & Hother).
  split; [apply Hp|]. split.
  - apply (Hpairs "set1"); vm_compute; reflexivity.
  - split.
    + apply (Hscore "2" "0"); vm_compute; reflexivity.
    + apply Hother. right. split; [|split; vm_compute; reflexivity].
      intros Hin. vm_compute in Hin.
      repeat (apply elem_of_cons in Hin as [Hin|Hin]; [discriminate|]).
      by apply elem_of_nil in Hin.
Defined.

(** ** Backfill followed by swap *)

Lemma snapshot_in_backfill scols s idx df :
  snapshot_in (iterrow df idx) idx
    (backfill_row scols (iterrow df idx) s idx df).
Proof.
  intros c v Hr. unfold iterrow in Hr.
  destruct (proj2 (backfill_row_fills (iterrow df idx) s idx scols df) c idx)
    as [->|[(_ & _ & k & pv & _ & _ & ->)|[Hn _]]]; [by rewrite Hr|done|].
  congruence.
Qed.



(** ** The classifiers on empty names *)

Lemma surname_falsy name : truthy name = false → surname name = Ok EmptyString.
Proof. by destruct name as [[|? ?]|]. Qed.

Lemma surname_raw_falsy name :
  truthy name = false → surname_raw name = Ok EmptyString.
Proof. by destruct name as [[|? ?]|]. Qed.

(** C7 fails on the code: without usable ids, two home names with the same
    non-empty surname and two away names that are both empty or absent are
    classified correct by name match, because the two empty away surnames
    compare equal.  Both classifiers do so. *)
Theorem C7_empty_away_names_match
    (csv_home_id csv_away_id page_home_id page_away_id : pystr)
    (csv_home_name csv_away_name page_home_name page_away_name : pystr)
    (x : string) :
  truthy page_home_id && truthy page_away_id
    && truthy csv_home_id && truthy csv_away_id = false →
  truthy csv_away_name = false → truthy page_away_name = false →
  (surname csv_home_name = Ok x → surname page_home_name = Ok x →
   nonempty x = true →
   determine_home_away_status csv_home_id csv_away_id page_home_id
     page_away_id csv_home_name csv_away_name page_home_name page_away_name
   = Ok (Correct, NameMatch)) ∧
  (surname_raw csv_home_name = Ok x → surname_raw page_home_name = Ok x →
   nonempty (normalize csv_home_name) = true →
   nonempty (normalize page_home_name) = true →
   determine_status csv_home_id csv_away_id page_home_id
     page_away_id csv_home_name csv_away_name page_home_name page_away_name
   = Ok (Correct, NameMatch)).
Proof.
  intros Hid Hca Hpa. split.
  - intros Hch Hph Hx. unfold determine_home_away_status.
    rewrite Hid. cbn [andb].
    rewrite Hch, Hph, (surname_falsy _ Hca), (surname_falsy _ Hpa).
    cbn [mbind result_bind]. rewrite Hx. cbn [andb].
    rewrite (bool_decide_eq_true_2 (x = x)) by done. reflexivity.
  - intros Hch Hph Hnc Hnp. unfold determine_status.
    rewrite Hid. cbn [andb]. cbv zeta. rewrite Hnc, Hnp. cbn [andb].
    rewrite Hch, Hph, (surname_raw_falsy _ Hca), (surname_raw_falsy _ Hpa).
    cbn [mbind result_bind].
    rewrite (bool_decide_eq_true_2 (x = x)) by done. reflexivity.
Qed.

Lemma C7_empty_away_names_witness :
  determine_home_away_status None None None None
    (Some "A. Smith") (Some "") (Some "Anna SMITH") None
  = Ok (Correct, NameMatch) ∧
  determine_status None None None None
    (Some "A. Smith") (Some "") (Some "Anna SMITH") None
  = Ok (Correct, NameMatch).
Proof.
  destruct (C7_empty_away_names_match None None None None
              (Some "A. Smith") (Some "") (Some "Anna SMITH") None "smith")
    as [H1 H2]; [reflexivity..|].
  split.
  - apply H1; vm_compute; reflexivity.
  - apply H2; vm_compute; reflexivity.
Defined.

(** ** The run, rule by rule *)

Lemma engine_with_inv int_of_str sc S T :
  engine_with int_of_str sc S = Ok T →
  ∃ d1 d2 d3 d4 d5,
    rule1 sc S = Ok d1 ∧ rule1b sc d1 = Ok d2 ∧ rule2 d2 = Ok d3 ∧
    rule3 d3 = Ok d4 ∧ rule5 int_of_str (rule4 d4) = Ok d5 ∧
    rule67 d5 = Ok T ∧
    df_stat_nulls S d1 ∧ df_stat_nulls d1 d2 ∧ df_stat_nulls d2 d3 ∧
    df_stat_nulls d3 d4 ∧ df_stat_nulls d4 (rule4 d4) ∧
    df_stat_nulls (rule4 d4) d5 ∧ df_stat_nulls d5 T.
Proof.
  intros H. unfold engine_with in H. inv_bind H.
  exists a, a0, a1, a2, a3. repeat split; try done.
  - exact (proj1 (settles_rule1 sc) _ _ E).
  - exact (proj1 (settles_rule1b sc) _ _ E0).
  - exact (proj1 settles_rule2 _ _ E1).
  - exact (proj1 settles_rule3 _ _ E2).
  - exact (proj1 settles_rule4 _ _ eq_refl).
  - exact (proj1 (settles_rule5 int_of_str) _ _ E3).
  - exact (proj1 settles_rule67 _ _ H).
Qed.

Lemma stat_nulls_nan_stays S T c i :
  df_stat_nulls S T → cell_at S c i = Some NaN → cell_at T c i = Some NaN.
Proof.
  intros H Hc. pose proof (df_rel_cell_at _ S T c i H) as Hrel.
  rewrite Hc in Hrel. inversion Hrel as [? v' [->|[-> _]]|]; reflexivity.
Qed.

Lemma stat_nulls_cell_score S T c i :
  df_stat_nulls S T → c ∈ SCORE_COLS → cell_at T c i = cell_at S c i.
Proof.
  intros H Hc. unfold cell_at. by rewrite (df_stat_nulls_score S T c).
Qed.

Lemma stat_nulls_is_Some S T c i :
  df_stat_nulls S T → is_Some (cell_at S c i) → is_Some (cell_at T c i).
Proof.
  intros H [v Hc]. pose proof (df_rel_cell_at _ S T c i H) as Hrel.
  rewrite Hc in Hrel. inversion Hrel; subst. eauto.
Qed.

Lemma cell_at_foldl_null_rows sel cols S c i :
  cell_at (foldl (λ d col, null_rows sel col d) S cols) c i =
  if bool_decide (c ∈ cols)
  then (λ v, if sel i then NaN else v) <$> cell_at S c i
  else cell_at S c i.
Proof.
  revert S. induction cols as [|c0 cols IH]; intros S; [reflexivity|].
  cbn [foldl]. rewrite IH, cell_at_null_rows.
  destruct (decide (c0 = c)) as [->|Hne].
  - rewrite (bool_decide_eq_true_2 (c ∈ c :: cols)) by by left.
    destruct (bool_decide (c ∈ cols)); [|reflexivity].
    destruct (cell_at S c i) as [v|]; [|reflexivity]. cbn.
    by destruct (sel i).
  - destruct (decide (c ∈ cols)) as [Hin|Hnin].
    + rewrite !bool_decide_eq_true_2; [reflexivity|by right|done].
    + rewrite !bool_decide_eq_false_2; [reflexivity| |done].
      intros [?|?]%elem_of_cons; congruence.
Qed.

Lemma tiebreak_mask_lookup S hc ac m i h a :
  tiebreak_mask S hc ac = Ok m →
  cell_at S hc i = Some h → cell_at S ac i = Some a →
  m !! i = Some (is_tb_score h a).
Proof.
  intros H Hh Ha. unfold tiebreak_mask in H. inv_bind H. injection H as <-.
  rewrite (getitem_cell_at _ _ _ i E) in Hh.
  rewrite (getitem_cell_at _ _ _ i E0) in Ha.
  unfold bor, band, ser_eq_num, is_tb_score.
  rewrite !lookup_zip_with, !list_lookup_fmap, Hh, Ha. reflexivity.
Qed.

Lemma has_col_elem df c : has_col df c = true ↔ c ∈ columns df.
Proof. unfold has_col. apply bool_decide_eq_true. Qed.

(** ** What the checks at the end of [main] expect *)

Lemma rule1_cell (stat_cols : list string) (S T : DataFrame)
    (c : string) (i : nat) (h ms v : cell) :
  rule1 stat_cols S = Ok T →
  cell_at S "home_set3" i = Some h →
  cell_at S "match_score" i = Some ms →
  cell_at S c i = Some v →
  cell_at T c i =
    Some (if bool_decide (c ∈ stat_cols) && str_in "_s3_" c
             && (is_nan h || existsb (λ x, eq_str x ms)
                               ["2-0"; "0-2"; "1-0"; "0-1"; "0-0"])
          then NaN else v).
Proof.
  intros H Hh Hm Hv. unfold rule1 in H. inv_bind H. injection H as <-.
  rewrite (getitem_cell_at _ _ _ i E) in Hh.
  rewrite (getitem_cell_at _ _ _ i E0) in Hm.
  rewrite cell_at_null_cols, Hv, (no_s3_lookup _ _ _ _ _ Hh Hm),
    lacks_set3_simpl.
  cbn [fmap option_fmap option_map].
  destruct (decide (c ∈ stat_cols)) as [Hin|Hnin].
  - rewrite (bool_decide_eq_true_2 (c ∈ stat_cols)) by done.
    destruct (str_in "_s3_" c) eqn:Hs.
    + rewrite bool_decide_eq_true_2; [reflexivity|].
      apply list_elem_of_filter. split; [by apply Is_true_true|done].
    + rewrite bool_decide_eq_false_2; [reflexivity|].
      intros [Hc _]%list_elem_of_filter. apply Is_true_true in Hc. congruence.
  - rewrite (bool_decide_eq_false_2 (c ∈ stat_cols)) by done.
    rewrite bool_decide_eq_false_2; [reflexivity|].
    by intros [_ ?]%list_elem_of_filter.
Qed.

(** X1: after a run, every set-3-scoped statistic cell of a match decided in
    two sets (match score 2-0 or 0-2) is missing: the first validation check
    of [main] always reports 0. *)
Theorem engine_two_set_match_has_no_s3 (int_of_str : string → option Z)
    (df df' : DataFrame) (c : string) (i : nat) (h ms : cell) :
  engine int_of_str df = Ok df' →
  c ∈ drop 28 (columns df) → str_in "_s3_" c = true →
  cell_at df "home_set3" i = Some h →
  cell_at df "match_score" i = Some ms →
  existsb (λ x, eq_str x ms) ["2-0"; "0-2"] = true →
  is_Some (cell_at df c i) →
  cell_at df' c i = Some NaN.
Proof.
  intros H Hc Hs Hh Hms Hsc [v Hv].
  destruct (engine_with_inv _ _ _ _ H)
    as (d1 & d2 & d3 & d4 & d5 & E1 & _ & _ & _ & _ & _ &
        _ & N2 & N3 & N4 & N5 & N6 & N7).
  pose proof (rule1_cell _ _ _ c i h ms v E1 Hh Hms Hv) as H1.
  rewrite (bool_decide_eq_true_2 (c ∈ drop 28 (columns df))), Hs in H1 by done.
  cbn [existsb] in Hsc, H1.
  replace (is_nan h || _) with true in H1.
  - cbn in H1.
    by apply (stat_nulls_nan_stays _ _ _ _ N7), (stat_nulls_nan_stays _ _ _ _ N6),
      (stat_nulls_nan_stays _ _ _ _ N5), (stat_nulls_nan_stays _ _ _ _ N4),
      (stat_nulls_nan_stays _ _ _ _ N3), (stat_nulls_nan_stays _ _ _ _ N2).
  - symmetry. destruct (is_nan h); [reflexivity|]. cbn.
    destruct (eq_str "2-0" ms); [reflexivity|].
    destruct (eq_str "0-2" ms); [reflexivity|discriminate].
Qed.

Lemma engine_two_set_match_witness :
  ∃ df', engine no_text_int sample = Ok df' ∧
    cell_at sample "match_score" 0 = Some (Str "2-0") ∧
    cell_at sample "home_s3_bp_faced" 0 = Some (Num 2) ∧
    cell_at df' "home_s3_bp_faced" 0 = Some NaN.
Proof.
  eexists. split; [vm_compute; reflexivity|].
  split; [vm_compute; reflexivity|]. split; [vm_compute; reflexivity|].
  apply (engine_two_set_match_has_no_s3 no_text_int sample _
           "home_s3_bp_faced" 0 NaN (Str "2-0")).
  - vm_compute; reflexivity.
  - elem_closed.
  - vm_compute; reflexivity.
  - vm_compute; reflexivity.
  - vm_compute; reflexivity.
  - vm_compute; reflexivity.
  - vm_compute. eauto.
Defined.

(** X2: after a run every cell of every set-1 match-point column is
    missing, whatever it held: the second validation check of [main] always
    reports 0. *)
Theorem engine_s1_mp_all_missing (int_of_str : string → option Z)
    (df df' : DataFrame) (c : string) (i : nat) :
  engine int_of_str df = Ok df' →
  c ∈ s1_mp_names → is_Some (cell_at df c i) →
  cell_at df' c i = Some NaN.
Proof.
  intros H Hc Hv.
  destruct (engine_with_inv _ _ _ _ H)
    as (d1 & d2 & d3 & d4 & d5 & _ & _ & _ & _ & _ & _ &
        N1 & N2 & N3 & N4 & N5 & N6 & N7).
  apply (stat_nulls_nan_stays _ _ _ _ N7), (stat_nulls_nan_stays _ _ _ _ N6).
  assert (Hv4 : is_Some (cell_at d4 c i)).
  { by apply (stat_nulls_is_Some _ _ _ _ N4), (stat_nulls_is_Some _ _ _ _ N3),
      (stat_nulls_is_Some _ _ _ _ N2), (stat_nulls_is_Some _ _ _ _ N1). }
  unfold rule4, col_set_nan. rewrite cell_at_foldl_null_rows.
  rewrite bool_decide_eq_true_2.
  - destruct Hv4 as [v ->]. reflexivity.
  - apply list_elem_of_filter. split; [|done].
    apply Is_true_true. by eapply is_Some_cell_has_col.
Qed.

Lemma engine_s1_mp_witness :
  ∃ df', engine no_text_int sample = Ok df' ∧
    cell_at sample "home_s1_mp_saved" 0 = Some (Num 3) ∧
    cell_at df' "home_s1_mp_saved" 0 = Some NaN.
Proof.
  eexists. split; [vm_compute; reflexivity|].
  split; [vm_compute; reflexivity|].
  apply (engine_s1_mp_all_missing no_text_int sample _ "home_s1_mp_saved" 0).
  - vm_compute; reflexivity.
  - elem_closed.
  - vm_compute. eauto.
Defined.

(** ** What a run never touches *)

Lemma cell_target_nulls_preorder sc : cell_preorder (cell_target_nulls sc).
Proof.
  split; [by left|]. unfold cell_target_nulls.
  intros c v1 v2 v3 [->|[-> H1]] [->|[-> H2]]; auto.
Qed.

Lemma engine_with_target_nulls int_of_str sc S T :
  engine_with int_of_str sc S = Ok T → df_rel (cell_target_nulls sc) S T.
Proof.
  assert (Hu : ∀ c v, unconditional_target sc c = true →
                       cell_target_nulls sc c v NaN).
  { intros c v Hc. right. split; [done|]. unfold engine_target. by rewrite Hc. }
  assert (Hx : ∀ c v, cell_engine_nulls sc c v NaN →
                       cell_target_nulls sc c v NaN ∨ v = Num 0).
  { intros c v [?|[_ [?|?]]]; [left; by left|by right|left; by apply Hu]. }
  apply engine_with_rel; [apply cell_target_nulls_preorder|..].
  - intros c v Hin Hs. apply Hu. unfold unconditional_target.
    by rewrite bool_decide_eq_true_2, Hs.
  - intros c v Hin Hs. apply Hu. unfold unconditional_target.
    rewrite bool_decide_eq_true_2, Hs by done. by rewrite orb_true_r.
  - intros n c v Hn Hc. apply Hu. unfold unconditional_target.
    rewrite (bool_decide_eq_true_2 (c ∈ n ← SETS; tb_set_names n)).
    + by rewrite orb_true_r.
    + apply list_elem_of_bind. eauto.
  - intros c v Hc. apply Hu. unfold unconditional_target.
    rewrite (bool_decide_eq_true_2 (c ∈ overall_tb_names)) by done.
    by rewrite orb_true_r.
  - intros c v Hc. apply Hu. unfold unconditional_target.
    rewrite (bool_decide_eq_true_2 (c ∈ s1_mp_names)) by done.
    by rewrite orb_true_r.
  - intros c Hc. right. split; [done|]. unfold engine_target.
    rewrite (bool_decide_eq_true_2 (c ∈ rule5_targets)) by done.
    by rewrite orb_true_r.
  - intros c Hc. right. split; [done|]. unfold engine_target.
    rewrite (bool_decide_eq_true_2 (c ∈ rule67_targets)) by done.
    by rewrite orb_true_r.
Qed.

(** X3: a run keeps the header and the number of rows, and changes no cell
    of a column that no rule targets by name; the score columns, from which
    every rule condition is computed, are among those. *)
Theorem engine_keeps_shape_and_other_columns
    (int_of_str : string → option Z) (df df' : DataFrame) :
  engine int_of_str df = Ok df' →
  columns df' = columns df ∧ nrows df' = nrows df ∧
  (∀ c, engine_target (drop 28 (columns df)) c = false →
        lookup_col df' c = lookup_col df c) ∧
  (∀ c, c ∈ SCORE_COLS → lookup_col df' c = lookup_col df c).
Proof.
  intros H. pose proof (engine_with_target_nulls _ _ _ _ H) as HR.
  split; [by eapply df_rel_columns|]. split; [by eapply df_rel_nrows|].
  split.
  - intros c Hc.
    destruct (df_rel_lookup_col _ _ _ c HR) as [vs vt Hv|]; [|reflexivity].
    f_equal. symmetry. apply list_eq_Forall2.
    eapply Forall2_impl; [exact Hv|].
    intros v v' [->|[_ Ht]]; [reflexivity|congruence].
  - intros c Hc. apply (df_stat_nulls_score df df' c); [|done].
    exact (proj1 (settles_engine_with _ _) _ _ H).
Qed.

Lemma engine_keeps_shape_witness :
  ∃ df', engine no_text_int sample = Ok df' ∧
    columns df' = columns sample ∧
    engine_target (drop 28 (columns sample)) "time_overall" = false ∧
    lookup_col df' "time_overall" = lookup_col sample "time_overall".
Proof.
  eexists. split; [vm_compute; reflexivity|].
  match goal with |- columns ?d = _ ∧ _ =>
    destruct (engine_keeps_shape_and_other_columns no_text_int sample d)
      as (Hc & _ & Ho & _)
  end.
  - vm_compute; reflexivity.
  - split; [exact Hc|]. split; [vm_compute; reflexivity|].
    apply Ho. vm_compute; reflexivity.
Defined.

(** ** The opportunity invariant after a run *)

Lemma rule67_gates_nodup : NoDup rule67_gates.*2.
Proof. apply (bool_decide_unpack _). vm_compute. exact I. Qed.

Lemma rule67_gates_disjoint p : p ∈ rule67_gates → p.1 ∉ rule67_gates.*2.
Proof.
  revert p. apply Forall_forall. apply (bool_decide_unpack _).
  vm_compute. exact I.
Qed.

Lemma Ok_inj {A} (a b : A) : Ok a = Ok b → a = b.
Proof. by intros [= ->]. Qed.

Lemma rule67_leaves_no_zero_pair (S T : DataFrame) (faced saved : string)
    (i : nat) :
  rule67 S = Ok T → (faced, saved) ∈ rule67_gates →
  ¬ (cell_at T faced i = Some (Num 0) ∧ cell_at T saved i = Some (Num 0)).
Proof.
  intros H Hin [Hf Hs]. rewrite rule67_run in H. apply Ok_inj in H.
  subst T.
  rewrite run_gates_other in Hf by by apply (rule67_gates_disjoint _ Hin).
  rewrite (run_gates_cell _ _ faced saved) in Hs;
    [|apply rule67_gates_nodup|apply rule67_gates_disjoint|exact Hin].
  rewrite cell_at_gate, decide_True, Hf in Hs by done.
  destruct (cell_at S saved i) as [y|]; [|discriminate]. cbn in Hs.
  destruct (eq_num 0 y) eqn:Hy; [discriminate|].
  injection Hs as ->. discriminate.
Qed.

(** X4: after a run no row holds an exactly-zero saved (or converted) cell
    beside an exactly-zero faced (or opportunities) cell, for any side,
    scope and point family. *)
Theorem engine_leaves_no_zero_pair (int_of_str : string → option Z)
    (df df' : DataFrame) (faced saved : string) (i : nat) :
  engine int_of_str df = Ok df' → (faced, saved) ∈ rule67_gates →
  ¬ (cell_at df' faced i = Some (Num 0) ∧ cell_at df' saved i = Some (Num 0)).
Proof.
  intros H Hin.
  destruct (engine_with_inv _ _ _ _ H)
    as (d1 & d2 & d3 & d4 & d5 & _ & _ & _ & _ & _ & E & _).
  by eapply rule67_leaves_no_zero_pair.
Qed.

Lemma engine_no_zero_pair_witness :
  ∃ df', engine no_text_int sample = Ok df' ∧
    ("home_bp_faced", "home_bp_saved") ∈ rule67_gates ∧
    ¬ (cell_at df' "home_bp_faced" 0 = Some (Num 0)
       ∧ cell_at df' "home_bp_saved" 0 = Some (Num 0)).
Proof.
  eexists. split; [vm_compute; reflexivity|]. split; [elem_closed|].
  apply (engine_leaves_no_zero_pair no_text_int sample _
           "home_bp_faced" "home_bp_saved" 0);
    [vm_compute; reflexivity|elem_closed].
Defined.

(** ** Tiebreak gating after a run *)

Lemma for_each_split {A} (xs : list A) body x S T :
  (∀ y, y ∈ xs → monotone (body y)) →
  x ∈ xs → for_each xs body S = Ok T →
  ∃ Sa Sb, df_stat_nulls S Sa ∧ body x Sa = Ok Sb ∧ df_stat_nulls Sb T.
Proof.
  revert S. induction xs as [|y xs IH]; intros S Hm Hin H.
  - by apply elem_of_nil in Hin.
  - cbn in H. inv_bind H.
    assert (Hrest : df_stat_nulls a T).
    { revert H. apply for_each_rel; [apply cell_stat_nulls_preorder|].
      intros z S0 T0 Hz. apply Hm. by right. }
    apply elem_of_cons in Hin as [->|Hin].
    + exists S, a. split; [apply df_rel_refl; by left|]. split; done.
    + destruct (IH a) as (Sa & Sb & H1 & H2 & H3); [|done..|].
      { intros z Hz. apply Hm. by right. }
      exists Sa, Sb. split; [|done].
      eapply df_stat_nulls_trans; [|exact H1]. eapply Hm; [by left|exact E].
Qed.

Lemma rule2_set_nulls n D D' c i h a :
  rule2_set n D = Ok D' → c ∈ tb_set_names n →
  cell_at D ("home_set" +:+ n) i = Some h →
  cell_at D ("away_set" +:+ n) i = Some a →
  is_nan h = false → is_nan a = false → is_tb_score h a = false →
  is_Some (cell_at D c i) →
  cell_at D' c i = Some NaN.
Proof.
  intros H Hc Hh Ha Hnh Hna Htb [v Hv]. unfold rule2_set in H. cbv zeta in H.
  rewrite (is_Some_cell_has_col D ("home_set" +:+ n) i) in H by eauto.
  cbn [negb] in H. inv_bind H. apply Ok_inj in H. subst D'.
  pose proof (tiebreak_mask_lookup _ _ _ _ i h a E1 Hh Ha) as Hm.
  rewrite (getitem_cell_at _ _ _ i E) in Hh.
  rewrite (getitem_cell_at _ _ _ i E0) in Ha.
  rewrite cell_at_null_cols, Hv, bool_decide_eq_true_2.
  - unfold band, bnot, notna.
    rewrite !lookup_zip_with, !list_lookup_fmap, Hh, Ha, Hm. cbn.
    by rewrite Hnh, Hna, Htb.
  - apply list_elem_of_filter. split; [|done].
    apply Is_true_true. apply (is_Some_cell_has_col D c i). eauto.
Qed.

(** X5: after a run, every tiebreak statistic scoped to a set that was played
    (both game counts present) and did not end 7-6 or 6-7 is missing,
    whatever the cell held. *)
Theorem engine_nulls_set_tiebreak_stats (int_of_str : string → option Z)
    (df df' : DataFrame) (n c : string) (i : nat) (h a : cell) :
  engine int_of_str df = Ok df' →
  n ∈ SETS → c ∈ tb_set_names n →
  cell_at df ("home_set" +:+ n) i = Some h →
  cell_at df ("away_set" +:+ n) i = Some a →
  is_nan h = false → is_nan a = false → is_tb_score h a = false →
  is_Some (cell_at df c i) →
  cell_at df' c i = Some NaN.
Proof.
  intros H Hn Hc Hh Ha Hnh Hna Htb Hv.
  destruct (engine_with_inv _ _ _ _ H)
    as (d1 & d2 & d3 & d4 & d5 & _ & _ & E2 & _ & _ & _ &
        N1 & N2 & N3 & N4 & N5 & N6 & N7).
  destruct (for_each_split SETS rule2_set n d2 d3) as (Sa & Sb & A1 & A2 & A3);
    [|done..|].
  { intros y Hy. apply settles_rule2_set, Hy. }
  pose proof (df_stat_nulls_trans _ _ _ (df_stat_nulls_trans _ _ _ N1 N2) A1)
    as NA.
  assert (Hh' : "home_set" +:+ n ∈ SCORE_COLS) by (elem_cases Hn; elem_closed).
  assert (Ha' : "away_set" +:+ n ∈ SCORE_COLS) by (elem_cases Hn; elem_closed).
  assert (cell_at Sb c i = Some NaN) as Hb.
  { eapply rule2_set_nulls; [exact A2|exact Hc| | |exact Hnh|exact Hna|exact Htb|].
    - by rewrite (stat_nulls_cell_score _ _ _ _ NA Hh').
    - by rewrite (stat_nulls_cell_score _ _ _ _ NA Ha').
    - by eapply stat_nulls_is_Some. }
  by apply (stat_nulls_nan_stays _ _ _ _ N7), (stat_nulls_nan_stays _ _ _ _ N6),
    (stat_nulls_nan_stays _ _ _ _ N5), (stat_nulls_nan_stays _ _ _ _ N4),
    (stat_nulls_nan_stays _ _ _ _ A3).
Qed.

Lemma engine_nulls_set_tiebreak_witness :
  ∃ df', engine no_text_int sample = Ok df' ∧
    cell_at sample "home_set1" 0 = Some (Num 6) ∧
    cell_at sample "away_set1" 0 = Some (Num 3) ∧
    cell_at sample "home_s1_tb_serve_pts_won" 0 = Some (Num 5) ∧
    cell_at df' "home_s1_tb_serve_pts_won" 0 = Some NaN.
Proof.
  eexists. split; [vm_compute; reflexivity|].
  split; [vm_compute; reflexivity|]. split; [vm_compute; reflexivity|].
  split; [vm_compute; reflexivity|].
  apply (engine_nulls_set_tiebreak_stats no_text_int sample _ "1"
           "home_s1_tb_serve_pts_won" 0 (Num 6) (Num 3)).
  - vm_compute; reflexivity.
  - elem_closed.
  - elem_closed.
  - vm_compute; reflexivity.
  - vm_compute; reflexivity.
  - reflexivity.
  - reflexivity.
  - reflexivity.
  - vm_compute. eauto.
Defined.

Lemma rule3_nulls D D' c i h1 a1 h2 a2 :
  rule3 D = Ok D' → c ∈ overall_tb_names → is_Some (cell_at D c i) →
  cell_at D "home_set1" i = Some h1 → cell_at D "away_set1" i = Some a1 →
  cell_at D "home_set2" i = Some h2 → cell_at D "away_set2" i = Some a2 →
  is_tb_score h1 a1 = false → is_tb_score h2 a2 = false →
  (has_col D "home_set3" = false
   ∨ ∃ h3 a3, cell_at D "home_set3" i = Some h3
              ∧ cell_at D "away_set3" i = Some a3
              ∧ is_tb_score h3 a3 = false) →
  cell_at D' c i = Some NaN.
Proof.
  intros H Hc [v Hv] Hh1 Ha1 Hh2 Ha2 T1 T2 H3. unfold rule3 in H.
  assert (Hin : c ∈ filter (λ c, has_col D c) overall_tb_names).
  { apply list_elem_of_filter. split; [|done].
    apply Is_true_true. apply (is_Some_cell_has_col D c i). eauto. }
  destruct (has_col D "home_set3") eqn:Hs3.
  - destruct H3 as [?|(h3 & a3 & Hh3 & Ha3 & T3)]; [discriminate|].
    inv_bind H. apply Ok_inj in H. subst D'.
    inv_bind E1. apply Ok_inj in E1. subst a4.
    rewrite cell_at_null_cols, Hv, bool_decide_eq_true_2 by done.
    unfold bnot, bor. rewrite list_lookup_fmap, !lookup_zip_with.
    rewrite (tiebreak_mask_lookup _ _ _ _ i _ _ E Hh1 Ha1),
      (tiebreak_mask_lookup _ _ _ _ i _ _ E0 Hh2 Ha2),
      (tiebreak_mask_lookup _ _ _ _ i _ _ E2 Hh3 Ha3).
    cbn. by rewrite T1, T2, T3.
  - inv_bind H. apply Ok_inj in H. subst D'.
    rewrite cell_at_null_cols, Hv, bool_decide_eq_true_2 by done.
    unfold bnot, bor. rewrite !list_lookup_fmap, !lookup_zip_with.
    rewrite (tiebreak_mask_lookup _ _ _ _ i _ _ E Hh1 Ha1),
      (tiebreak_mask_lookup _ _ _ _ i _ _ E0 Hh2 Ha2).
    cbn. by rewrite T1, T2.
Qed.



(** ** When a run raises *)

Lemma df_rel_aligned P S T : df_rel P S T → aligned S → aligned T.
Proof.
  intros H Ha. unfold aligned in *. rewrite (df_rel_nrows P S T H).
  generalize (nrows S) Ha. clear Ha. intros n.
  induction H as [|[c vs] [c' vt] S T [_ Hv] _ IH]; intros Ha; [constructor|].
  apply Forall_cons in Ha as [Hl Ha]. constructor; [|by apply IH].
  cbn in *. by rewrite <-(Forall2_length _ _ _ Hv).
Qed.

Lemma aligned_cell df c i :
  aligned df → has_col df c = true → (i < nrows df)%nat →
  is_Some (cell_at df c i).
Proof.
  intros Ha Hc Hi. apply has_col_true_lookup in Hc as [vs Hl].
  unfold cell_at. rewrite Hl. cbn. apply lookup_lt_is_Some.
  assert (length vs = nrows df) as ->; [|done].
  unfold aligned in Ha. generalize (nrows df) Ha. clear Ha Hi. intros n Ha.
  induction df as [|[c1 vs1] df IH]; [discriminate|].
  apply Forall_cons in Ha as [Hl1 Ha]. cbn in Hl.
  destruct (decide (c1 = c)); [by injection Hl as <-|by apply IH].
Qed.

Lemma has_col_getitem df c :
  has_col df c = true → ∃ vs, getitem df c = Ok vs.
Proof.
  intros [vs Hl]%has_col_true_lookup. exists vs. unfold getitem. by rewrite Hl.
Qed.

Lemma getitem_has_col df c vs : getitem df c = Ok vs → has_col df c = true.
Proof.
  unfold getitem. intros H. apply has_col_lookup.
  destruct (lookup_col df c); [eauto|discriminate].
Qed.

Lemma tiebreak_mask_total df hc ac :
  has_col df hc = true → has_col df ac = true →
  ∃ m, tiebreak_mask df hc ac = Ok m.
Proof.
  intros [h Hh]%has_col_getitem [a Ha]%has_col_getitem.
  unfold tiebreak_mask. rewrite Hh, Ha. cbn. eauto.
Qed.

Lemma tiebreak_mask_has_col df hc ac m :
  tiebreak_mask df hc ac = Ok m →
  has_col df hc = true ∧ has_col df ac = true.
Proof.
  intros H. unfold tiebreak_mask in H. inv_bind H.
  split; by eapply getitem_has_col.
Qed.

Lemma at_get_total df idx c :
  aligned df → has_col df c = true → (idx < nrows df)%nat →
  ∃ v, at_get df idx c = Ok v.
Proof.
  intros Ha Hc Hi. destruct (aligned_cell df c idx Ha Hc Hi) as [v Hv].
  exists v. by rewrite at_get_cell_at, Hv.
Qed.

Lemma at_null_if_zero_total df idx c :
  aligned df → (idx < nrows df)%nat → ∃ df', at_null_if_zero idx c df = Ok df'.
Proof.
  intros Ha Hi. unfold at_null_if_zero.
  destruct (has_col df c) eqn:Hc; [|eauto].
  destruct (at_get_total df idx c Ha Hc Hi) as [v ->]. cbn.
  destruct (eq_num 0 v); eauto.
Qed.

Lemma mp_steps_total side df idx :
  aligned df → (idx < nrows df)%nat →
  ∃ df', for_each ["mp_faced"; "mp_saved"]
           (λ stat, at_null_if_zero idx (side +:+ "_s2_" +:+ stat)) df = Ok df'.
Proof.
  intros Ha Hi. cbn [for_each].
  destruct (at_null_if_zero_total df idx (side +:+ "_s2_" +:+ "mp_faced") Ha Hi)
    as [d1 E1].
  rewrite E1. cbn [mbind result_bind].
  assert (R1 : df_nulls df d1).
  { revert E1. apply at_null_if_zero_rel; [apply cell_nulls_preorder|by right]. }
  destruct (at_null_if_zero_total d1 idx (side +:+ "_s2_" +:+ "mp_saved"))
    as [d2 E2]; [by eapply df_rel_aligned|by rewrite (df_rel_nrows _ _ _ R1)|].
  rewrite E2. cbn. eauto.
Qed.

Lemma rule5_row_total int_of_str df idx :
  aligned df → (idx < nrows df)%nat →
  has_col df "home_set1" = true → has_col df "away_set1" = true →
  ∃ df', rule5_row int_of_str idx df = Ok df'.
Proof.
  intros Ha Hi Hh Haw. unfold rule5_row.
  destruct (at_get_total df idx _ Ha Hh Hi) as [h ->].
  destruct (at_get_total df idx _ Ha Haw Hi) as [a ->].
  cbn [mbind result_bind].
  destruct (is_nan h || is_nan a); [eauto|].
  destruct (py_int int_of_str h); [|eauto].
  destruct (py_int int_of_str a); [|eauto].
  destruct (bool_decide _); [by apply mp_steps_total|].
  destruct (bool_decide _); [by apply mp_steps_total|eauto].
Qed.

Lemma rule5_total int_of_str df :
  aligned df →
  has_col df "home_set1" = true → has_col df "away_set1" = true →
  ∃ df', rule5 int_of_str df = Ok df'.
Proof.
  intros Ha Hh Haw. unfold rule5.
  assert (Hidx : ∀ idx, idx ∈ seq 0 (nrows df) → (idx < nrows df)%nat).
  { intros idx Hin%elem_of_seq. lia. }
  revert Hidx. generalize (seq 0 (nrows df)). intros idxs.
  generalize (eq_refl (nrows df)). generalize (nrows df) at 1 3. intros n Hn.
  revert df Ha Hh Haw Hn.
  induction idxs as [|idx idxs IH]; intros df Ha Hh Haw Hn Hidx; [cbn; eauto|].
  cbn [for_each].
  destruct (rule5_row_total int_of_str df idx) as [d1 E1];
    [done|rewrite <-Hn; apply Hidx; by left|done..|].
  rewrite E1. cbn [mbind result_bind].
  pose proof (proj1 (settles_rule5_row int_of_str idx) _ _ E1) as R1.
  apply (IH d1).
  - by eapply df_rel_aligned.
  - by rewrite (df_rel_has_col _ _ _ _ R1).
  - by rewrite (df_rel_has_col _ _ _ _ R1).
  - by rewrite (df_rel_nrows _ _ _ R1).
  - intros j Hj. apply Hidx. by right.
Qed.

Lemma rule1_needs sc D D' :
  rule1 sc D = Ok D' →
  has_col D "home_set3" = true ∧ has_col D "match_score" = true.
Proof.
  intros H. unfold rule1 in H. inv_bind H.
  split; by eapply getitem_has_col.
Qed.

Lemma rule1b_needs sc D D' : rule1b sc D = Ok D' → has_col D "home_set2" = true.
Proof. intros H. unfold rule1b in H. inv_bind H. by eapply getitem_has_col. Qed.

Lemma rule3_needs D D' :
  rule3 D = Ok D' →
  has_col D "home_set1" = true ∧ has_col D "away_set1" = true ∧
  has_col D "home_set2" = true ∧ has_col D "away_set2" = true ∧
  (has_col D "home_set3" = true → has_col D "away_set3" = true).
Proof.
  intros H. unfold rule3 in H.
  destruct (tiebreak_mask D "home_set1" "away_set1") as [m1| |] eqn:E1;
    [|discriminate..].
  destruct (tiebreak_mask D "home_set2" "away_set2") as [m2| |] eqn:E2;
    [|discriminate..].
  cbn [mbind result_bind] in H.
  apply tiebreak_mask_has_col in E1 as [? ?], E2 as [? ?].
  repeat (split; [done|]). intros Hs3. rewrite Hs3 in H.
  destruct (tiebreak_mask D "home_set3" "away_set3") as [m3| |] eqn:E3;
    [|discriminate..].
  by apply tiebreak_mask_has_col in E3 as [? ?].
Qed.



(** ** Rule 5, row by row *)

Lemma at_null_if_zero_cell idx col D D' c j v :
  at_null_if_zero idx col D = Ok D' → cell_at D c j = Some v →
  cell_at D' c j =
  Some (if bool_decide (c = col) && bool_decide (j = idx) && eq_num 0 v
        then NaN else v).
Proof.
  intros H Hv. unfold at_null_if_zero in H.
  destruct (has_col D col) eqn:Hc.
  - rewrite at_get_cell_at in H.
    destruct (cell_at D col idx) as [v0|] eqn:E0; [|discriminate]. cbn in H.
    destruct (eq_num 0 v0) eqn:Hz; apply Ok_inj in H; subst D'.
    + unfold at_set_nan. rewrite cell_at_null_rows.
      destruct (decide (col = c)) as [->|Hne].
      * rewrite Hv. cbn. rewrite (bool_decide_eq_true_2 (c = c)) by done. cbn.
        destruct (decide (j = idx)) as [->|Hj].
        -- rewrite bool_decide_eq_true_2 by done. cbn.
           assert (v0 = v) as -> by congruence. by rewrite Hz.
        -- by rewrite bool_decide_eq_false_2.
      * rewrite Hv, (bool_decide_eq_false_2 (c = col)) by congruence. done.
    + rewrite Hv. f_equal.
      destruct (decide (c = col)) as [->|]; [|by rewrite bool_decide_eq_false_2].
      destruct (decide (j = idx)) as [->|];
        [|by rewrite (bool_decide_eq_false_2 (j = idx)), andb_false_r].
      assert (v0 = v) as -> by congruence. by rewrite Hz, andb_false_r.
  - apply Ok_inj in H. subst D'. rewrite Hv. f_equal.
    destruct (decide (c = col)) as [->|]; [|by rewrite bool_decide_eq_false_2].
    apply has_col_false_lookup in Hc. unfold cell_at in Hv.
    rewrite Hc in Hv. discriminate.
Qed.

Lemma mp_steps_cell side idx D D' c j v :
  side ∈ SIDES →
  for_each ["mp_faced"; "mp_saved"]
    (λ stat, at_null_if_zero idx (side +:+ "_s2_" +:+ stat)) D = Ok D' →
  cell_at D c j = Some v →
  cell_at D' c j =
  Some (if bool_decide (c ∈ [side +:+ "_s2_" +:+ "mp_faced";
                             side +:+ "_s2_" +:+ "mp_saved"])
           && bool_decide (j = idx) && eq_num 0 v
        then NaN else v).
Proof.
  intros Hside H Hv. cbn [for_each] in H.
  destruct (at_null_if_zero idx (side +:+ "_s2_" +:+ "mp_faced") D)
    as [D1| |] eqn:E1; [|discriminate..].
  cbn [mbind result_bind] in H.
  destruct (at_null_if_zero idx (side +:+ "_s2_" +:+ "mp_saved") D1)
    as [D2| |] eqn:E2; [|discriminate..].
  cbn [mbind result_bind] in H. apply Ok_inj in H. subst D2.
  rewrite (at_null_if_zero_cell _ _ _ _ c j _ E2
             (at_null_if_zero_cell _ _ _ _ c j v E1 Hv)).
  f_equal.
  destruct (eq_num 0 v) eqn:Hz; repeat case_bool_decide; cbn;
    rewrite ?Hz; cbn; try done; exfalso;
    try (match goal with
         | Hn : _ ∉ _ |- _ =>
             apply Hn; subst; first [by left | right; by left]
         end);
    match goal with Hin : _ ∈ _ |- _ => elem_cases Hin; congruence end.
Qed.

Lemma rule5_row_cell int_of_str idx D D' c j h a v :
  rule5_row int_of_str idx D = Ok D' →
  cell_at D "home_set1" idx = Some h → cell_at D "away_set1" idx = Some a →
  cell_at D c j = Some v →
  cell_at D' c j =
  Some (if rule5_hits int_of_str h a c && bool_decide (j = idx) && eq_num 0 v
        then NaN else v).
Proof.
  intros H Hh Ha Hv. unfold rule5_row in H.
  rewrite !at_get_cell_at, Hh, Ha in H. cbn [mbind result_bind] in H.
  unfold rule5_hits, set1_winner.
  destruct (is_nan h || is_nan a); [apply Ok_inj in H; by subst D'|].
  destruct (py_int int_of_str h) as [x|]; [|apply Ok_inj in H; by subst D'].
  destruct (py_int int_of_str a) as [y|]; [|apply Ok_inj in H; by subst D'].
  destruct (bool_decide (y < x)).
  - eapply mp_steps_cell; [|exact H|exact Hv]. elem_closed.
  - destruct (bool_decide (x < y)); [|apply Ok_inj in H; by subst D'].
    eapply mp_steps_cell; [|exact H|exact Hv]. elem_closed.
Qed.

Lemma at_null_if_zero_other idx col D D' c j :
  at_null_if_zero idx col D = Ok D' → j ≠ idx →
  cell_at D' c j = cell_at D c j.
Proof.
  intros H Hj. unfold at_null_if_zero in H.
  destruct (has_col D col); [|apply Ok_inj in H; by subst D'].
  destruct (at_get D idx col) as [v0| |]; [|discriminate..]. cbn in H.
  destruct (eq_num 0 v0); apply Ok_inj in H; subst D'; [|done].
  unfold at_set_nan. rewrite cell_at_null_rows.
  destruct (decide (col = c)) as [->|]; [|done].
  rewrite bool_decide_eq_false_2 by done. by destruct (cell_at D c j).
Qed.

Lemma rule5_row_other int_of_str idx D D' c j :
  rule5_row int_of_str idx D = Ok D' → j ≠ idx →
  cell_at D' c j = cell_at D c j.
Proof.
  intros H Hj.
  assert (Hs : ∀ side X Y,
    for_each ["mp_faced"; "mp_saved"]
      (λ stat, at_null_if_zero idx (side +:+ "_s2_" +:+ stat)) X = Ok Y →
    cell_at Y c j = cell_at X c j).
  { intros side X Y HX. cbn [for_each] in HX.
    destruct (at_null_if_zero idx (side +:+ "_s2_" +:+ "mp_faced") X)
      as [D1| |] eqn:E1; [|discriminate..].
    cbn [mbind result_bind] in HX.
    destruct (at_null_if_zero idx (side +:+ "_s2_" +:+ "mp_saved") D1)
      as [D2| |] eqn:E2; [|discriminate..].
    cbn [mbind result_bind] in HX. apply Ok_inj in HX. subst D2.
    rewrite (at_null_if_zero_other _ _ _ _ c j E2 Hj).
    apply (at_null_if_zero_other _ _ _ _ c j E1 Hj). }
  unfold rule5_row in H.
  destruct (at_get D idx "home_set1") as [h| |]; [|discriminate..].
  destruct (at_get D idx "away_set1") as [a| |]; [|discriminate..].
  cbn [mbind result_bind] in H.
  destruct (is_nan h || is_nan a); [apply Ok_inj in H; by subst D'|].
  destruct (py_int int_of_str h) as [x|]; [|apply Ok_inj in H; by subst D'].
  destruct (py_int int_of_str a) as [y|]; [|apply Ok_inj in H; by subst D'].
  destruct (bool_decide (y < x)); [by eapply Hs|].
  destruct (bool_decide (x < y)); [by eapply Hs|].
  apply Ok_inj in H; by subst D'.
Qed.

Lemma rule5_rows_cell int_of_str idxs D T c i h a v :
  NoDup idxs →
  for_each idxs (rule5_row int_of_str) D = Ok T →
  cell_at D "home_set1" i = Some h → cell_at D "away_set1" i = Some a →
  cell_at D c i = Some v →
  cell_at T c i =
  Some (if rule5_hits int_of_str h a c && bool_decide (i ∈ idxs) && eq_num 0 v
        then NaN else v).
Proof.
  revert D. induction idxs as [|j idxs IH]; intros D Hnd H Hh Ha Hv.
  - apply Ok_inj in H. subst T. by rewrite andb_false_r.
  - cbn [for_each] in H.
    destruct (rule5_row int_of_str j D) as [D1| |] eqn:E; [|discriminate..].
    cbn [mbind result_bind] in H. apply NoDup_cons in Hnd as [Hj Hnd].
    destruct (decide (i = j)) as [->|Hij].
    + pose proof (rule5_row_cell _ _ _ _ c j h a v E Hh Ha Hv) as H1.
      rewrite (bool_decide_eq_true_2 (j = j)), andb_true_r in H1 by done.
      assert (Hrest : ∀ x, cell_at T x j = cell_at D1 x j).
      { intros x. clear -H Hj. revert D1 H.
        induction idxs as [|k idxs IH]; intros D1 H.
        - apply Ok_inj in H. by subst T.
        - cbn [for_each] in H.
          destruct (rule5_row int_of_str k D1) as [D2| |] eqn:E;
            [|discriminate..].
          cbn [mbind result_bind] in H.
          apply not_elem_of_cons in Hj as [Hjk Hj].
          rewrite (IH Hj D2 H).
          by apply (rule5_row_other _ _ _ _ x j E). }
      rewrite Hrest, H1.
      rewrite (bool_decide_eq_true_2 (j ∈ j :: idxs)) by by left.
      by rewrite andb_true_r.
    + rewrite (IH D1 Hnd H); rewrite ?(rule5_row_other _ _ _ _ _ i E Hij); try done.
      f_equal. destruct (decide (i ∈ idxs)) as [Hin|Hnin].
      * rewrite !bool_decide_eq_true_2; [done|by right|done].
      * rewrite !bool_decide_eq_false_2; [done| |done].
        by intros [?|?]%elem_of_cons.
Qed.

(** X8: rule 5 on one row.  With the set-1 game counts of the row read as
    integers, the side with more games is the set-1 winner; its set-2
    [mp_faced] and [mp_saved] cells become NaN when they are exactly zero.
    Every other cell of the row keeps its value: the cells of the set-1
    loser, every non-zero cell, and all cells of a row whose set-1 score is
    missing, unreadable or tied. *)
Theorem rule5_nulls_winner_zero_mp (int_of_str : string → option Z)
    (S T : DataFrame) (c : string) (i : nat) (h a v : cell) :
  rule5 int_of_str S = Ok T →
  (i < nrows S)%nat →
  cell_at S "home_set1" i = Some h → cell_at S "away_set1" i = Some a →
  cell_at S c i = Some v →
  cell_at T c i =
  Some (if rule5_hits int_of_str h a c && eq_num 0 v then NaN else v).
Proof.
  intros H Hi Hh Ha Hv. unfold rule5 in H.
  rewrite (rule5_rows_cell _ _ _ _ c i h a v (NoDup_seq _ _) H Hh Ha Hv).
  rewrite (bool_decide_eq_true_2 (i ∈ seq 0 (nrows S))), andb_true_r; [done|].
  apply elem_of_seq. lia.
Qed.

Lemma rule5_nulls_winner_witness :
  ∃ T, rule5 no_text_int sample = Ok T ∧
    (1 < nrows sample)%nat ∧
    cell_at sample "home_set1" 1 = Some (Num 3) ∧
    cell_at sample "away_set1" 1 = Some (Num 6) ∧
    cell_at sample "away_s2_mp_faced" 1 = Some (Num 0) ∧
    cell_at T "away_s2_mp_faced" 1 = Some NaN.
Proof.
  eexists. split; [vm_compute; reflexivity|].
  split; [vm_compute; lia|]. split; [vm_compute; reflexivity|].
  split; [vm_compute; reflexivity|]. split; [vm_compute; reflexivity|].
  apply (rule5_nulls_winner_zero_mp no_text_int sample _ "away_s2_mp_faced" 1
           (Num 3) (Num 6) (Num 0)).
  - vm_compute; reflexivity.
  - vm_compute; lia.
  - vm_compute; reflexivity.
  - vm_compute; reflexivity.
  - vm_compute; reflexivity.
Defined.

(** ** The classifiers: ids first *)

Lemma determine_home_away_status_stages hid aid phid paid hn an phn pan :
  determine_home_away_status hid aid phid paid hn an phn pan =
  match id_verdict hid aid phid paid with
  | Some r => Ok r
  | None => name_verdict hn an phn pan
  end.
Proof.
  unfold determine_home_away_status, id_verdict, name_verdict.
  destruct (truthy phid && truthy paid && truthy hid && truthy aid);
    cbn [andb]; [|reflexivity].
  destruct (py_eq hid phid && py_eq aid paid); [reflexivity|].
  by destruct (py_eq hid paid && py_eq aid phid).
Qed.

Lemma determine_status_stages hid aid phid paid hn an phn pan :
  determine_status hid aid phid paid hn an phn pan =
  match id_verdict hid aid phid paid with
  | Some r => Ok r
  | None => name_verdict_auditor hn an phn pan
  end.
Proof.
  unfold determine_status, id_verdict, name_verdict_auditor.
  destruct (truthy phid && truthy paid && truthy hid && truthy aid);
    cbn [andb]; [|reflexivity].
  destruct (py_eq hid phid && py_eq aid paid); [reflexivity|].
  by destruct (py_eq hid paid && py_eq aid phid).
Qed.

Lemma id_verdict_exchange hid aid phid paid :
  match id_verdict hid aid phid paid with
  | Some (Swapped, m) => id_verdict aid hid phid paid = Some (Correct, m)
  | Some _ => True
  | None => id_verdict aid hid phid paid = None
  end.
Proof.
  unfold id_verdict, py_eq.
  destruct (truthy phid), (truthy paid), (truthy hid), (truthy aid);
    cbn [andb]; try done.
  destruct (decide (hid = phid)), (decide (aid = paid)),
    (decide (hid = paid)), (decide (aid = phid));
    repeat first
      [ rewrite (bool_decide_eq_true_2 (hid = phid)) by done
      | rewrite (bool_decide_eq_false_2 (hid = phid)) by done
      | rewrite (bool_decide_eq_true_2 (aid = paid)) by done
      | rewrite (bool_decide_eq_false_2 (aid = paid)) by done
      | rewrite (bool_decide_eq_true_2 (hid = paid)) by done
      | rewrite (bool_decide_eq_false_2 (hid = paid)) by done
      | rewrite (bool_decide_eq_true_2 (aid = phid)) by done
      | rewrite (bool_decide_eq_false_2 (aid = phid)) by done ];
    cbn [andb]; done.
Qed.

(** X9: when the four ids are present and equal in order, both classifiers
    answer correct by id match, and when they are equal crosswise (and not in
    order) swapped by id match; the names are not looked at, whatever they
    are. *)
Theorem classifiers_ids_decide
    (csv_home_id csv_away_id page_home_id page_away_id : pystr)
    (csv_home_name csv_away_name page_home_name page_away_name : pystr) :
  truthy page_home_id = true → truthy page_away_id = true →
  truthy csv_home_id = true → truthy csv_away_id = true →
  (csv_home_id = page_home_id → csv_away_id = page_away_id →
   determine_home_away_status csv_home_id csv_away_id page_home_id
     page_away_id csv_home_name csv_away_name page_home_name page_away_name
   = Ok (Correct, IdMatch) ∧
   determine_status csv_home_id csv_away_id page_home_id
     page_away_id csv_home_name csv_away_name page_home_name page_away_name
   = Ok (Correct, IdMatch)) ∧
  (csv_home_id = page_away_id → csv_away_id = page_home_id →
   ¬ (csv_home_id = page_home_id ∧ csv_away_id = page_away_id) →
   determine_home_away_status csv_home_id csv_away_id page_home_id
     page_away_id csv_home_name csv_away_name page_home_name page_away_name
   = Ok (Swapped, IdMatch) ∧
   determine_status csv_home_id csv_away_id page_home_id
     page_away_id csv_home_name csv_away_name page_home_name page_away_name
   = Ok (Swapped, IdMatch)).
Proof.
  intros T1 T2 T3 T4.
  rewrite !determine_home_away_status_stages, !determine_status_stages.
  unfold id_verdict, py_eq. rewrite T1, T2, T3, T4. cbn [andb]. split.
  - intros E1 E2.
    rewrite (bool_decide_eq_true_2 (csv_home_id = page_home_id)) by done.
    rewrite (bool_decide_eq_true_2 (csv_away_id = page_away_id)) by done.
    done.
  - intros E1 E2 Hn.
    rewrite (bool_decide_eq_true_2 (csv_home_id = page_away_id)) by done.
    rewrite (bool_decide_eq_true_2 (csv_away_id = page_home_id)) by done.
    destruct (decide (csv_home_id = page_home_id)) as [Ha|Ha].
    + rewrite (bool_decide_eq_true_2 (csv_home_id = page_home_id)) by done.
      rewrite (bool_decide_eq_false_2 (csv_away_id = page_away_id)); [done|].
      intros Hb. by apply Hn.
    + by rewrite (bool_decide_eq_false_2 (csv_home_id = page_home_id)).
Qed.

Lemma classifiers_ids_witness :
  determine_home_away_status (Some "b7") (Some "a3") (Some "a3") (Some "b7")
    (Some "   ") None (Some "X") (Some "Y") = Ok (Swapped, IdMatch) ∧
  determine_status (Some "b7") (Some "a3") (Some "a3") (Some "b7")
    (Some "   ") None (Some "X") (Some "Y") = Ok (Swapped, IdMatch).
Proof.
  apply (proj2 (classifiers_ids_decide (Some "b7") (Some "a3") (Some "a3")
                  (Some "b7") (Some "   ") None (Some "X") (Some "Y")
                  eq_refl eq_refl eq_refl eq_refl));
    [reflexivity|reflexivity|].
  intros [H _]. discriminate.
Defined.

(** ** The classifiers: names *)

Lemma surname_result name :
  (∃ x, surname name = Ok x) ∨ surname name = IndexError.
Proof.
  destruct name as [[|a n]|]; cbn; eauto.
  unfold last_token. destruct (last _); cbn; eauto.
Qed.

Lemma surname_nonempty_truthy name x :
  surname name = Ok x → nonempty x = true → truthy name = true.
Proof. destruct name as [[|a n]|]; [|done|]; cbn; intros [= <-]; done. Qed.

(** X10: a name match needs two home names that are neither empty nor
    absent, and a swapped verdict by name needs four such names: an empty
    surname never takes part in a swapped verdict. *)
Theorem name_match_needs_names
    (csv_home_id csv_away_id page_home_id page_away_id : pystr)
    (csv_home_name csv_away_name page_home_name page_away_name : pystr)
    (st : ha_status) :
  determine_home_away_status csv_home_id csv_away_id page_home_id
    page_away_id csv_home_name csv_away_name page_home_name page_away_name
  = Ok (st, NameMatch) →
  truthy csv_home_name = true ∧ truthy page_home_name = true ∧
  (st = Swapped →
   truthy csv_away_name = true ∧ truthy page_away_name = true).
Proof.
  rewrite determine_home_away_status_stages.
  destruct (id_verdict _ _ _ _) as [[st' m']|] eqn:Eid.
  { unfold id_verdict in Eid.
    destruct (_ && _ && _ && _); [|discriminate].
    destruct (_ && _); [injection Eid as <- <-; discriminate|].
    destruct (_ && _); [injection Eid as <- <-; discriminate|discriminate]. }
  unfold name_verdict.
  destruct (surname csv_home_name) as [ch| |] eqn:Ech; [|discriminate..].
  destruct (surname csv_away_name) as [ca| |] eqn:Eca; [|discriminate..].
  destruct (surname page_home_name) as [ph| |] eqn:Eph; [|discriminate..].
  destruct (surname page_away_name) as [pa| |] eqn:Epa; [|discriminate..].
  cbn [mbind result_bind].
  destruct (nonempty ch) eqn:Nch; [|discriminate].
  destruct (nonempty ph) eqn:Nph; [|discriminate]. cbn [andb].
  intros H.
  split; [by eapply surname_nonempty_truthy|].
  split; [by eapply surname_nonempty_truthy|].
  intros ->.
  destruct (bool_decide (ch = ph) && bool_decide (ca = pa)); [discriminate|].
  destruct (bool_decide (ch = pa)) eqn:E1; [|discriminate].
  destruct (bool_decide (ca = ph)) eqn:E2; [|discriminate].
  apply bool_decide_eq_true in E1, E2. subst pa ca.
  split; by eapply surname_nonempty_truthy.
Qed.

Lemma name_match_needs_names_witness :
  determine_home_away_status None None None None
    (Some "A. Smith") (Some "B. Brown") (Some "Bea Brown") (Some "Al Smith")
  = Ok (Swapped, NameMatch) ∧ truthy (Some "B. Brown") = true.
Proof.
  split; [vm_compute; reflexivity|].
  apply (name_match_needs_names None None None None
           (Some "A. Smith") (Some "B. Brown") (Some "Bea Brown")
           (Some "Al Smith") Swapped); [vm_compute; reflexivity|reflexivity].
Defined.

(** X11: a verdict of swapped turns into correct, by the same method, once
    the home and away sides of the record are exchanged: the classifier
    agrees with what the swap corrector does. *)
Theorem swapped_becomes_correct_after_exchange
    (csv_home_id csv_away_id page_home_id page_away_id : pystr)
    (csv_home_name csv_away_name page_home_name page_away_name : pystr)
    (m : ha_method) :
  determine_home_away_status csv_home_id csv_away_id page_home_id
    page_away_id csv_home_name csv_away_name page_home_name page_away_name
  = Ok (Swapped, m) →
  determine_home_away_status csv_away_id csv_home_id page_home_id
    page_away_id csv_away_name csv_home_name page_home_name page_away_name
  = Ok (Correct, m).
Proof.
  rewrite !determine_home_away_status_stages.
  pose proof (id_verdict_exchange csv_home_id csv_away_id page_home_id
                page_away_id) as Hid.
  destruct (id_verdict csv_home_id csv_away_id page_home_id page_away_id)
    as [[st' m']|].
  - intros [= -> ->]. by rewrite Hid.
  - rewrite Hid. unfold name_verdict.
    destruct (surname csv_home_name) as [ch| |]; [|discriminate..].
    destruct (surname csv_away_name) as [ca| |]; [|discriminate..].
    destruct (surname page_home_name) as [ph| |]; [|discriminate..].
    destruct (surname page_away_name) as [pa| |]; [|discriminate..].
    cbn [mbind result_bind].
    destruct (nonempty ch) eqn:Nch; [|discriminate].
    destruct (nonempty ph) eqn:Nph; [|discriminate]. cbn [andb].
    destruct (bool_decide (ch = ph) && bool_decide (ca = pa)); [discriminate|].
    destruct (bool_decide (ch = pa)) eqn:E1; [|discriminate].
    destruct (bool_decide (ca = ph)) eqn:E2; [|discriminate].
    cbn [andb]. intros [= <-].
    apply bool_decide_eq_true in E1, E2. subst pa ca.
    rewrite ?Nph. cbn [andb].
    rewrite ?bool_decide_eq_true_2 by done. reflexivity.
Qed.

Lemma swapped_becomes_correct_witness :
  determine_home_away_status None None None None
    (Some "A. Smith") (Some "B. Brown") (Some "Bea Brown") (Some "Al Smith")
  = Ok (Swapped, NameMatch) ∧
  determine_home_away_status None None None None
    (Some "B. Brown") (Some "A. Smith") (Some "Bea Brown") (Some "Al Smith")
  = Ok (Correct, NameMatch).
Proof.
  split; [vm_compute; reflexivity|].
  apply (swapped_becomes_correct_after_exchange None None None None
           (Some "A. Smith") (Some "B. Brown") (Some "Bea Brown")
           (Some "Al Smith") NameMatch).
  vm_compute; reflexivity.
Defined.

(** ** Names of whitespace *)

Lemma py_split_blank s : is_blank s = true → py_split s = [].
Proof.
  induction s as [|a s IH]; [done|]. cbn [is_blank py_split].
  intros [Ha Hs]%andb_true_iff. rewrite Ha. by apply IH.
Qed.

Lemma surname_whitespace name : whitespace_only name = true → surname name = IndexError.
Proof.
  destruct name as [[|a n]|]; try discriminate. intros H.
  unfold surname. by rewrite (py_split_blank _ H).
Qed.

Lemma surname_raw_whitespace name :
  whitespace_only name = true → surname_raw name = IndexError.
Proof.
  destruct name as [[|a n]|]; try discriminate. intros H.
  unfold surname_raw. by rewrite (py_split_blank _ H).
Qed.

Lemma surname_raw_result name :
  (∃ x, surname_raw name = Ok x) ∨ surname_raw name = IndexError.
Proof.
  destruct name as [[|a n]|]; cbn; eauto.
  unfold last_token. destruct (last _); cbn; eauto.
Qed.

(** X12: when the ids do not settle the verdict, a name that is not empty
    but holds only whitespace makes [determine_home_away_status] raise
    IndexError ([name.split()[-1]] on an empty list); [determine_status]
    raises too once its two home names pass its letter test. *)
Theorem whitespace_name_raises
    (csv_home_id csv_away_id page_home_id page_away_id : pystr)
    (csv_home_name csv_away_name page_home_name page_away_name : pystr) :
  id_verdict csv_home_id csv_away_id page_home_id page_away_id = None →
  whitespace_only csv_home_name || whitespace_only csv_away_name
    || whitespace_only page_home_name || whitespace_only page_away_name
  = true →
  determine_home_away_status csv_home_id csv_away_id page_home_id
    page_away_id csv_home_name csv_away_name page_home_name page_away_name
  = IndexError ∧
  (nonempty (normalize csv_home_name) && nonempty (normalize page_home_name)
   = true →
   determine_status csv_home_id csv_away_id page_home_id
     page_away_id csv_home_name csv_away_name page_home_name page_away_name
   = IndexError).
Proof.
  intros Hid Hw.
  rewrite determine_home_away_status_stages, determine_status_stages, Hid.
  split.
  - unfold name_verdict.
    destruct (whitespace_only csv_home_name) eqn:W1;
      [by rewrite (surname_whitespace _ W1)|].
    destruct (surname_result csv_home_name) as [[x1 ->]| ->]; [|done].
    cbn [mbind result_bind].
    destruct (whitespace_only csv_away_name) eqn:W2;
      [by rewrite (surname_whitespace _ W2)|].
    destruct (surname_result csv_away_name) as [[x2 ->]| ->]; [|done].
    cbn [mbind result_bind].
    destruct (whitespace_only page_home_name) eqn:W3;
      [by rewrite (surname_whitespace _ W3)|].
    destruct (surname_result page_home_name) as [[x3 ->]| ->]; [|done].
    cbn [mbind result_bind]. cbn [orb] in Hw.
    by rewrite (surname_whitespace _ Hw).
  - intros Hg. unfold name_verdict_auditor. rewrite Hg.
    destruct (whitespace_only csv_home_name) eqn:W1;
      [by rewrite (surname_raw_whitespace _ W1)|].
    destruct (surname_raw_result csv_home_name) as [[x1 ->]| ->]; [|done].
    cbn [mbind result_bind].
    destruct (whitespace_only csv_away_name) eqn:W2;
      [by rewrite (surname_raw_whitespace _ W2)|].
    destruct (surname_raw_result csv_away_name) as [[x2 ->]| ->]; [|done].
    cbn [mbind result_bind].
    destruct (whitespace_only page_home_name) eqn:W3;
      [by rewrite (surname_raw_whitespace _ W3)|].
    destruct (surname_raw_result page_home_name) as [[x3 ->]| ->]; [|done].
    cbn [mbind result_bind]. cbn [orb] in Hw.
    by rewrite (surname_raw_whitespace _ Hw).
Qed.

Lemma whitespace_name_raises_witness :
  determine_home_away_status None None None None
    (Some "A. Smith") (Some "  ") (Some "Anna Smith") (Some "B. Brown")
  = IndexError ∧
  determine_status None None None None
    (Some "A. Smith") (Some "  ") (Some "Anna Smith") (Some "B. Brown")
  = IndexError.
Proof.
  destruct (whitespace_name_raises None None None None
              (Some "A. Smith") (Some "  ") (Some "Anna Smith")
              (Some "B. Brown")) as [H1 H2];
    [reflexivity|vm_compute; reflexivity|].
  split; [exact H1|]. apply H2. vm_compute; reflexivity.
Defined.

(** ** The two classifiers side by side *)

Lemma lower_char_space a : is_space (lower_char a) = is_space a.
Proof.
  destruct a as [[] [] [] [] [] [] [] []]; vm_compute; reflexivity.
Qed.

Lemma lower_no_space s : no_space (lower s) = no_space s.
Proof.
  induction s as [|a s IH]; [done|]. cbn. by rewrite lower_char_space, IH.
Qed.

Lemma rstrip_no_space s : no_space s = true → rstrip s = s.
Proof.
  induction s as [|a s IH]; [done|]. cbn [no_space rstrip].
  intros [Ha Hs]%andb_true_iff. rewrite (IH Hs).
  apply negb_true_iff in Ha. rewrite Ha. by destruct s.
Qed.

Lemma strip_no_space s : no_space s = true → strip s = s.
Proof.
  intros H. unfold strip.
  assert (lstrip s = s) as ->; [|by apply rstrip_no_space].
  destruct s as [|a s]; [done|]. cbn in *.
  apply andb_true_iff in H as [Ha _]. apply negb_true_iff in Ha.
  by rewrite Ha.
Qed.

Lemma py_split_no_space s t :
  t ∈ py_split s → no_space t = true ∧ nonempty t = true.
Proof.
  revert t. induction s as [|a s IH]; intros t Hin.
  - by apply elem_of_nil in Hin.
  - cbn [py_split] in Hin. cbv zeta in Hin.
    destruct (is_space a) eqn:Ha; [by apply IH|].
    assert (Hone : no_space (String a EmptyString) = true
                   ∧ nonempty (String a EmptyString) = true).
    { cbn. by rewrite Ha. }
    destruct s as [|b s'].
    + apply list_elem_of_singleton in Hin as ->. exact Hone.
    + destruct (is_space b) eqn:Hb.
      * apply elem_of_cons in Hin as [->|Hin]; [exact Hone|by apply IH].
      * destruct (py_split (String b s')) as [|t0 ts] eqn:Ets.
        -- apply list_elem_of_singleton in Hin as ->. exact Hone.
        -- apply elem_of_cons in Hin as [->|Hin].
           ++ destruct (IH t0) as [H1 _]; [by left|].
              cbn. by rewrite Ha, H1.
           ++ apply IH. by right.
Qed.

Lemma surname_raw_surname name x :
  surname_raw name = Ok x → surname name = Ok x.
Proof.
  destruct name as [[|a n]|]; try done. unfold surname_raw, surname, last_token.
  destruct (last (py_split (String a n))) as [t|] eqn:El; [|discriminate].
  cbn. intros [= <-]. f_equal. apply strip_no_space.
  rewrite lower_no_space. apply last_Some_elem_of in El.
  by destruct (py_split_no_space _ _ El).
Qed.

Lemma lower_nonempty s : nonempty (lower s) = nonempty s.
Proof. by destruct s. Qed.

Lemma only_az_blank s : is_blank s = true → only_az s = EmptyString.
Proof.
  induction s as [|a s IH]; [done|]. cbn [is_blank only_az].
  intros [Ha Hs]%andb_true_iff. rewrite (IH Hs).
  destruct a as [[] [] [] [] [] [] [] []]; vm_compute in Ha |- *;
    done.
Qed.

Lemma strip_blank s : is_blank s = true → strip s = EmptyString.
Proof.
  intros H. unfold strip. assert (lstrip s = EmptyString) as ->; [|done].
  induction s as [|a s IH]; [done|]. cbn in *.
  apply andb_true_iff in H as [Ha Hs]. rewrite Ha. by apply IH.
Qed.

Lemma lower_blank s : is_blank (lower s) = is_blank s.
Proof.
  induction s as [|a s IH]; [done|]. cbn. by rewrite lower_char_space, IH.
Qed.

Lemma py_split_nil_blank s : py_split s = [] → is_blank s = true.
Proof.
  induction s as [|a s IH]; [done|]. cbn [py_split is_blank]. cbv zeta.
  destruct (is_space a); [by intros ?%IH|].
  destruct s as [|b s']; [discriminate|].
  destruct (is_space b); [discriminate|].
  by destruct (py_split (String b s')).
Qed.

Lemma normalize_nonempty_surname name :
  nonempty (normalize name) = true →
  ∃ x, surname_raw name = Ok x ∧ nonempty x = true.
Proof.
  destruct name as [[|a n]|]; try discriminate. intros H.
  unfold surname_raw, last_token.
  destruct (last (py_split (String a n))) as [t|] eqn:El.
  - exists (lower t). split; [done|]. rewrite lower_nonempty.
    apply last_Some_elem_of in El. by destruct (py_split_no_space _ _ El).
  - apply last_None in El. apply py_split_nil_blank in El.
    unfold normalize in H.
    rewrite strip_blank in H by by rewrite lower_blank. discriminate.
Qed.

(** X13: the two classifiers side by side.  Whenever [determine_status]
    (the auditor) reaches a verdict of correct or swapped,
    [determine_home_away_status] (the combined scraper) reaches the same
    verdict by the same method. *)
Theorem auditor_verdict_is_scraper_verdict
    (csv_home_id csv_away_id page_home_id page_away_id : pystr)
    (csv_home_name csv_away_name page_home_name page_away_name : pystr)
    (st : ha_status) (m : ha_method) :
  determine_status csv_home_id csv_away_id page_home_id
    page_away_id csv_home_name csv_away_name page_home_name page_away_name
  = Ok (st, m) →
  st ≠ Unknown →
  determine_home_away_status csv_home_id csv_away_id page_home_id
    page_away_id csv_home_name csv_away_name page_home_name page_away_name
  = Ok (st, m).
Proof.
  rewrite determine_home_away_status_stages, determine_status_stages.
  destruct (id_verdict _ _ _ _); [done|].
  unfold name_verdict_auditor, name_verdict.
  destruct (nonempty (normalize csv_home_name)) eqn:N1;
    [|by intros [= <- <-]].
  destruct (nonempty (normalize page_home_name)) eqn:N2;
    [|by intros [= <- <-]].
  cbn [andb].
  destruct (normalize_nonempty_surname _ N1) as (ch & Ech & Nch).
  destruct (normalize_nonempty_surname _ N2) as (ph & Eph & Nph).
  rewrite Ech, Eph, (surname_raw_surname _ _ Ech), (surname_raw_surname _ _ Eph).
  cbn [mbind result_bind].
  destruct (surname_raw csv_away_name) as [ca| |] eqn:Eca; [|discriminate..].
  rewrite (surname_raw_surname _ _ Eca). cbn [mbind result_bind].
  destruct (surname_raw page_away_name) as [pa| |] eqn:Epa; [|discriminate..].
  rewrite (surname_raw_surname _ _ Epa). cbn [mbind result_bind].
  rewrite Nch, Nph. cbn [andb]. done.
Qed.

Lemma auditor_verdict_witness :
  determine_status None None None None
    (Some "A. Smith") (Some "B. Brown") (Some "Bea Brown") (Some "Al Smith")
  = Ok (Swapped, NameMatch) ∧
  determine_home_away_status None None None None
    (Some "A. Smith") (Some "B. Brown") (Some "Bea Brown") (Some "Al Smith")
  = Ok (Swapped, NameMatch).
Proof.
  split; [vm_compute; reflexivity|].
  apply auditor_verdict_is_scraper_verdict; [vm_compute; reflexivity|done].
Defined.

(** ** The apply step on the whole table *)

Lemma row_local_refl idx S : row_local idx S S.
Proof. split; by intros. Qed.

Lemma row_local_trans idx S T U :
  row_local idx S T → row_local idx T U → row_local idx S U.
Proof.
  intros [H1 H1'] [H2 H2']. split.
  - intros c i Hs. by apply H2, H1.
  - intros c i Hi Hs. rewrite H2' by auto. by apply H1'.
Qed.

Lemma fills_at_local row s idx S T : fills_at row s idx S T → row_local idx S T.
Proof.
  intros [_ H]. split.
  - intros c i Hs.
    destruct (H c i) as [->|[(_ & _ & k & pv & _ & _ & ->)|[Hn _]]];
      [done|done|]. rewrite Hn in Hs. by destruct Hs.
  - intros c i Hi Hs.
    destruct (H c i) as [->|[(-> & _)|[Hn _]]]; [done|done|].
    rewrite Hn in Hs. by destruct Hs.
Qed.

Lemma writes_at_local W idx S T : writes_at W idx S T → row_local idx S T.
Proof.
  intros HW. split.
  - intros c i. by eapply writes_at_is_Some.
  - intros c i Hi _. eapply writes_at_other; [exact HW|by left].
Qed.

Lemma cols_bounded_refl S : cols_bounded S S.
Proof. intros c Hc. by left. Qed.

Lemma cols_bounded_trans S T U :
  cols_bounded S T → cols_bounded T U → cols_bounded S U.
Proof.
  intros H1 H2 c Hc. destruct (H2 c Hc) as [Hc'|?]; [by apply H1|by right].
Qed.

Lemma has_col_at_set idx c v df c' :
  has_col (at_set idx c v df) c' = has_col df c' || bool_decide (c' = c).
Proof.
  unfold at_set. destruct (has_col df c) eqn:Hc.
  - rewrite has_col_alter_col. destruct (decide (c' = c)) as [->|Hne].
    + by rewrite Hc.
    + by rewrite (bool_decide_eq_false_2 _ Hne), orb_false_r.
  - by rewrite has_col_alter_col, has_col_add_nan_col.
Qed.

Lemma at_set_cols_bounded idx c v df :
  has_col df c = true ∨ c ∈ apply_new_cols →
  cols_bounded df (at_set idx c v df).
Proof.
  intros Hc c' Hc'. rewrite has_col_at_set in Hc'.
  apply orb_true_iff in Hc' as [?|Hc']; [by left|].
  apply bool_decide_eq_true in Hc' as ->. exact Hc.
Qed.

Lemma foldl_cols_bounded {A} (step : DataFrame → A → DataFrame) (xs : list A) :
  (∀ x d, cols_bounded d (step d x)) →
  ∀ df, cols_bounded df (foldl step df xs).
Proof.
  intros Hs. induction xs as [|x xs IH]; intros df; [apply cols_bounded_refl|].
  simpl. eapply cols_bounded_trans; [apply Hs|apply IH].
Qed.

Lemma fill_tb_cols_bounded scols row s idx set_n side df :
  cols_bounded df (fill_tb scols row s idx set_n side df).
Proof.
  unfold fill_tb. cbv zeta.
  destruct (has_col df _) eqn:Hc; [|apply cols_bounded_refl]. cbn [andb].
  destruct (bool_decide _); [|apply cols_bounded_refl].
  destruct (s _); [|apply cols_bounded_refl].
  destruct (_ && _); [|apply cols_bounded_refl].
  apply at_set_cols_bounded. by left.
Qed.

Lemma fill_time_cols_bounded scols row s idx item df :
  cols_bounded df (fill_time scols row s idx item df).
Proof.
  unfold fill_time. cbv zeta.
  destruct (has_col df _) eqn:Hc; [|apply cols_bounded_refl]. cbn [andb].
  destruct (bool_decide _); [|apply cols_bounded_refl].
  destruct (s _); [|apply cols_bounded_refl].
  destruct (_ && _); [|apply cols_bounded_refl].
  apply at_set_cols_bounded. by left.
Qed.

Lemma fill_date_time_cols_bounded row s idx df :
  cols_bounded df (fill_date_time row s idx df).
Proof.
  unfold fill_date_time.
  destruct (s _); [|apply cols_bounded_refl].
  destruct (_ && _); [|apply cols_bounded_refl].
  apply at_set_cols_bounded. right. unfold apply_new_cols. elem_closed.
Qed.

Lemma fill_surface_cols_bounded scols row s idx df :
  cols_bounded df (fill_surface scols row s idx df).
Proof.
  unfold fill_surface.
  destruct (bool_decide _); [|apply cols_bounded_refl].
  destruct (s _); [|apply cols_bounded_refl].
  destruct (negb _); [|apply cols_bounded_refl]. cbv zeta.
  eapply (cols_bounded_trans _
            (if has_col df "court_type" then df
             else add_nan_col "court_type" df)).
  - destruct (has_col df "court_type"); [apply cols_bounded_refl|].
    intros c' Hc. rewrite has_col_add_nan_col in Hc.
    apply orb_true_iff in Hc as [?|Hc]; [by left|].
    apply bool_decide_eq_true in Hc as ->. right.
    unfold apply_new_cols. elem_closed.
  - destruct (missing_or_blank _); [|apply cols_bounded_refl].
    apply at_set_cols_bounded. right. unfold apply_new_cols. elem_closed.
Qed.

Lemma backfill_row_cols_bounded scols row s idx df :
  cols_bounded df (backfill_row scols row s idx df).
Proof.
  unfold backfill_row. cbv zeta.
  eapply cols_bounded_trans; [|apply fill_surface_cols_bounded].
  eapply cols_bounded_trans; [|apply fill_date_time_cols_bounded].
  eapply cols_bounded_trans;
    [|apply foldl_cols_bounded; intros; apply fill_time_cols_bounded].
  apply foldl_cols_bounded. intros set_n d.
  apply foldl_cols_bounded. intros side d'. apply fill_tb_cols_bounded.
Qed.

Lemma writes_at_cols_bounded W idx S T : writes_at W idx S T → cols_bounded S T.
Proof.
  intros HW c Hc. left. by rewrite <- (writes_at_has_col _ _ _ _ _ HW).
Qed.

Lemma snapshot_in_local row idx i S T :
  row_local i S T → snapshot_in row idx S → snapshot_in row idx T.
Proof. intros [H _] Hs c v Hr. eapply H, Hs, Hr. Qed.

(** One pass of the loop body. *)
Lemma apply_row_local scols row s idx D D' :
  snapshot_in row idx D →
  apply_row scols row s idx D = Ok D' →
  row_local idx D D' ∧ cols_bounded D D'.
Proof.
  intros Hsnap H. unfold apply_row in H.
  pose proof (backfill_row_fills row s idx scols D) as Hf.
  pose proof (fills_at_local _ _ _ _ _ Hf) as Hl.
  pose proof (backfill_row_cols_bounded scols row s idx D) as Hb.
  destruct (decide (s "ha_status" = Some (Str "swapped"))) as [Hsw|Hsw].
  - destruct (swap_row_spec _ _ _ _ _
                (snapshot_in_local _ _ _ _ _ Hl Hsnap) Hsw H) as (HW & _).
    split.
    + eapply row_local_trans; [exact Hl|]. by eapply writes_at_local.
    + eapply cols_bounded_trans; [exact Hb|]. by eapply writes_at_cols_bounded.
  - unfold swap_row in H. rewrite bool_decide_eq_false_2 in H by done.
    injection H as <-. done.
Qed.

Section ApplyLoop.

Context (df scrape : DataFrame) (uids : list cell).

Local Abbreviation body :=
  (λ (idx : nat) (cur : DataFrame),
     let row := iterrow df idx in
     uid ← ser_getitem row "match_uid";
     match index_of uid uids with
     | None => Ok cur
     | Some j => apply_row (columns scrape) row (iterrow scrape j) idx cur
     end).

(** The table keeps the cells of the loaded table. *)
Local Abbreviation keeps_cells cur :=
  (∀ c i, is_Some (cell_at df c i) → is_Some (cell_at cur c i)).

(** Row [i] has no partner in the scraped table. *)
Local Abbreviation unjoined i :=
  (∀ uid, cell_at df "match_uid" i = Some uid → index_of uid uids = None).

Lemma apply_body_cases x cur D :
  body x cur = Ok D →
  ∃ uid, cell_at df "match_uid" x = Some uid ∧
    ((index_of uid uids = None ∧ D = cur) ∨
     (∃ j, index_of uid uids = Some j ∧
           apply_row (columns scrape) (iterrow df x) (iterrow scrape j) x cur
           = Ok D)).
Proof.
  intros H. cbv beta zeta in H. inv_bind H. apply ser_getitem_Ok in E.
  exists a. split; [exact E|].
  destruct (index_of a uids) as [j|]; [right; eauto|].
  left. split; [done|]. by apply Ok_inj in H.
Qed.

Lemma apply_body_local x cur D :
  keeps_cells cur → body x cur = Ok D →
  row_local x cur D ∧ cols_bounded cur D.
Proof.
  intros Hk H.
  destruct (apply_body_cases _ _ _ H) as (uid & Hu & [[_ ->]|(j & _ & Ha)]).
  - split; [apply row_local_refl|apply cols_bounded_refl].
  - eapply apply_row_local; [|exact Ha].
    intros c v Hr. apply Hk. unfold iterrow in Hr. by rewrite Hr.
Qed.

Lemma apply_loop_local xs cur T :
  keeps_cells cur → for_each xs body cur = Ok T →
  (∀ c i, is_Some (cell_at cur c i) → is_Some (cell_at T c i)) ∧
  cols_bounded cur T ∧
  (∀ c i, (i ∈ xs → unjoined i) → is_Some (cell_at cur c i) →
          cell_at T c i = cell_at cur c i).
Proof.
  revert cur. induction xs as [|x xs IH]; intros cur Hk H.
  - cbn in H. apply Ok_inj in H as <-.
    split; [done|]. split; [apply cols_bounded_refl|done].
  - rewrite for_each_cons in H. inv_bind H. rename a into D.
    destruct (apply_body_local _ _ _ Hk E) as [[Hl1 Hl2] Hb].
    destruct (IH D) as (I1 & I2 & I3); [by auto|exact H|].
    split; [by auto|]. split; [by eapply cols_bounded_trans|].
    intros c i Hi Hs. rewrite I3; [| |by auto].
    + destruct (decide (i = x)) as [->|Hne]; [|by apply Hl2].
      destruct (apply_body_cases _ _ _ E)
        as (uid & Hu & [[_ ->]|(j & Hj & _)]); [done|].
      rewrite (Hi ltac:(by left) _ Hu) in Hj. discriminate.
    + intros Hin. apply Hi. by right.
Qed.

(** A present, non-blank cell of a row that is not classified swapped
    survives the loop. *)
Lemma apply_loop_keeps xs cur T c i v :
  keeps_cells cur → for_each xs body cur = Ok T →
  cell_at df c i = Some v → missing_or_blank (Some v) = false →
  (∀ uid j, cell_at df "match_uid" i = Some uid → index_of uid uids = Some j →
            cell_at scrape "ha_status" j ≠ Some (Str "swapped")) →
  cell_at cur c i = Some v → cell_at T c i = Some v.
Proof.
  intros Hk H Hv Hnb Hns. revert cur Hk H.
  induction xs as [|x xs IH]; intros cur Hk H Hc.
  - cbn in H. by apply Ok_inj in H as <-.
  - rewrite for_each_cons in H. inv_bind H. rename a into D.
    destruct (apply_body_local _ _ _ Hk E) as [[Hl1 Hl2] Hb].
    apply (IH D); [by auto|exact H|].
    destruct (decide (i = x)) as [->|Hne];
      [|by rewrite Hl2 by (by rewrite ?Hc)].
    destruct (apply_body_cases _ _ _ E)
      as (uid & Hu & [[_ ->]|(j & Hj & Ha)]); [done|].
    unfold apply_row, swap_row in Ha.
    rewrite bool_decide_eq_false_2 in Ha by (by apply (Hns uid j)).
    apply Ok_inj in Ha as <-.
    destruct (proj2 (backfill_row_fills (iterrow df x) (iterrow scrape j) x
                       (columns scrape) cur) c x)
      as [->|[(_ & Hm & _)|[Hn _]]]; [exact Hc| |congruence].
    unfold iterrow in Hm. rewrite Hv in Hm. congruence.
Qed.

(** The row of a swapped match after the loop. *)
Lemma apply_loop_swaps xs cur T i j uid :
  keeps_cells cur → for_each xs body cur = Ok T →
  NoDup xs → i ∈ xs →
  (∀ c, has_col df c = true → is_Some (cell_at df c i)) →
  cell_at df "match_uid" i = Some uid → index_of uid uids = Some j →
  cell_at scrape "ha_status" j = Some (Str "swapped") →
  (cell_at T "player_home" i = cell_at df "player_away" i ∧
   cell_at T "player_away" i = cell_at df "player_home" i ∧
   cell_at T "player_home_id" i = cell_at df "player_away_id" i ∧
   cell_at T "player_away_id" i = cell_at df "player_home_id" i) ∧
  (∀ sfx, has_col df ("home_" +:+ sfx) = true →
          has_col df ("away_" +:+ sfx) = true →
          cell_at T ("home_" +:+ sfx) i = cell_at df ("away_" +:+ sfx) i ∧
          cell_at T ("away_" +:+ sfx) i = cell_at df ("home_" +:+ sfx) i) ∧
  (∀ w l, cell_at df "match_score" i = Some (Str (w +:+ "-" +:+ l)) →
          str_in "-" w = false → str_in "-" l = false →
          cell_at T "match_score" i = Some (Str (l +:+ "-" +:+ w))).
Proof.
  intros Hk H Hnd Hin Hfull Hu Hj Hsw. revert cur Hk H.
  induction xs as [|x xs IH]; intros cur Hk H.
  { by apply elem_of_nil in Hin. }
  rewrite for_each_cons in H. inv_bind H. rename a into D.
  apply NoDup_cons in Hnd as [Hx Hnd].
  destruct (apply_body_local _ _ _ Hk E) as [[Hl1 Hl2] Hb].
  assert (HkD : keeps_cells D) by auto.
  apply elem_of_cons in Hin as [->|Hin]; [|by apply (IH Hnd Hin D)].
  clear IH.
  destruct (apply_loop_local _ _ _ HkD H) as (_ & _ & Hrest).
  assert (Hrow : ∀ c, is_Some (cell_at D c x) →
                      cell_at T c x = cell_at D c x).
  { intros c Hs. by apply Hrest. }
  destruct (apply_body_cases _ _ _ E)
    as (uid' & Hu' & [[Hn _]|(j' & Hj' & Ha)]).
  { rewrite Hu in Hu'. injection Hu' as <-. congruence. }
  rewrite Hu in Hu'. injection Hu' as <-.
  rewrite Hj in Hj'. injection Hj' as <-.
  unfold apply_row in Ha.
  set (row := iterrow df x) in *.
  set (B := backfill_row (columns scrape) row (iterrow scrape j) x cur) in *.
  pose proof (fills_at_local _ _ _ _ _
                (backfill_row_fills row (iterrow scrape j) x (columns scrape)
                   cur)) as HlB.
  assert (Hsnap : snapshot_in row x B).
  { intros c v Hr. apply (proj1 HlB), Hk. unfold row, iterrow in Hr.
    by rewrite Hr. }
  destruct (swap_row_spec _ _ _ _ _ Hsnap Hsw Ha)
    as (HW & (P1 & P2 & P3 & P4) & Hpairs & Hscore).
  assert (HcB : ∀ c, has_col df c = true → has_col B c = true).
  { intros c Hc. eapply is_Some_cell_has_col, (proj1 HlB), Hk, Hfull, Hc. }
  assert (Hget : ∀ c c', has_col df c' = true →
            cell_at D c x = row c' → cell_at T c x = cell_at df c' x).
  { intros c c' Hc' HD. rewrite Hrow; [exact HD|].
    rewrite HD. by apply Hfull. }
  assert (Hp : ∀ c, is_Some (row c) → has_col df c = true).
  { intros c Hs. by eapply is_Some_cell_has_col. }
  unfold swap_row in Ha. rewrite bool_decide_eq_true_2 in Ha by done.
  inv_bind Ha. apply ser_getitem_Ok in E0, E1, E2, E3.
  split; [|split].
  - split; [|split; [|split]]; apply Hget; try done; apply Hp; eauto.
  - intros sfx Hh Haw.
    destruct (Hpairs sfx (HcB _ Hh) (HcB _ Haw)) as [Q1 Q2].
    split; by apply Hget.
  - intros w l Hms Hw Hl.
    pose proof (swapped_value_score row w l Hms Hw Hl) as Hv.
    rewrite Hrow; [|by rewrite Hscore; rewrite Hv].
    rewrite Hscore; [exact Hv|by rewrite Hv].
Qed.

End ApplyLoop.

Lemma apply_results_loop df scrape T :
  apply_results df scrape = Ok T →
  ∃ uids, getitem scrape "match_uid" = Ok uids ∧
    for_each (seq 0 (nrows df)) (λ idx cur,
      let row := iterrow df idx in
      uid ← ser_getitem row "match_uid";
      match index_of uid uids with
      | None => Ok cur
      | Some j => apply_row (columns scrape) row (iterrow scrape j) idx cur
      end) df = Ok T.
Proof.
  intros H. unfold apply_results in H.
  destruct (getitem scrape "match_uid") as [uids| |]; [|discriminate..].
  by exists uids.
Qed.

Lemma index_of_None uid uids : index_of uid uids = None ↔ uid ∉ uids.
Proof.
  unfold index_of. rewrite fmap_None, list_find_None, Forall_forall.
  split.
  - intros H Hin. by apply (H uid).
  - intros H x Hin ->. done.
Qed.

(** X14: [apply_results] leaves a row alone when its [match_uid] is not in
    the scraped table: every cell of the row is what it was in the loaded
    table, whatever the other rows receive. *)
Theorem apply_results_skips_unjoined_rows (df scrape T : DataFrame)
    (uids : list cell) (i : nat) (uid : cell) (c : string) :
  apply_results df scrape = Ok T →
  getitem scrape "match_uid" = Ok uids →
  cell_at df "match_uid" i = Some uid → uid ∉ uids →
  is_Some (cell_at df c i) →
  cell_at T c i = cell_at df c i.
Proof.
  intros H Hg Hu Hnin Hs.
  destruct (apply_results_loop _ _ _ H) as (uids' & Hg' & Hloop).
  rewrite Hg in Hg'. injection Hg' as <-.
  destruct (apply_loop_local df scrape uids (seq 0 (nrows df)) df T) as (_ & _ & Hrest);
    [done|exact Hloop|].
  apply Hrest; [|exact Hs].
  intros _ uid' Hu'. rewrite Hu in Hu'. injection Hu' as <-.
  by apply index_of_None.
Qed.

Lemma apply_results_skips_witness :
  ∃ T, apply_results sample swap_example_scrape = Ok T ∧
       cell_at T "player_home" 1 = Some (Str "C. Jones") ∧
       cell_at T "player_home" 0 = Some (Str "B. Brown").
Proof.
  eexists. split; [vm_compute; reflexivity|].
  split; [|vm_compute; reflexivity].
  match goal with |- cell_at ?d _ _ = _ =>
    rewrite (apply_results_skips_unjoined_rows sample swap_example_scrape d
               [Str "m1"] 1 (Str "m2") "player_home")
  end.
  - vm_compute; reflexivity.
  - vm_compute; reflexivity.
  - vm_compute; reflexivity.
  - vm_compute; reflexivity.
  - intros Hin. apply list_elem_of_singleton in Hin. discriminate.
  - vm_compute. eauto.
Defined.

(** X15: outside the rows classified swapped, [apply_results] only fills
    gaps: a cell that holds a value which is neither missing nor blank in
    the loaded table holds the same value in the result. *)
Theorem apply_results_keeps_values_of_unswapped_rows (df scrape T : DataFrame)
    (i : nat) (c : string) (v : cell) :
  apply_results df scrape = Ok T →
  ¬ swapped_row df scrape i →
  cell_at df c i = Some v → is_nan v = false → blank_opt (Some v) = false →
  cell_at T c i = Some v.
Proof.
  intros H Hns Hv Hnan Hbl.
  destruct (apply_results_loop _ _ _ H) as (uids & Hg & Hloop).
  eapply (apply_loop_keeps df scrape uids); [|exact Hloop|exact Hv| | |exact Hv].
  - done.
  - unfold missing_or_blank, isna_opt, notna_opt. by rewrite Hnan, Hbl.
  - intros uid j Hu Hj Hsw. apply Hns. exists j. split; [|exact Hsw].
    by exists uid, uids.
Qed.

Lemma apply_results_keeps_values_witness :
  ∃ T, apply_results sample sample_scrape = Ok T ∧
       cell_at T "time_overall" 1 = Some (Str "2:10") ∧
       cell_at T "match_score" 1 = Some (Str "2-1").
Proof.
  eexists. split; [vm_compute; reflexivity|].
  split; [vm_compute; reflexivity|].
  match goal with |- cell_at ?d _ _ = _ =>
    apply (apply_results_keeps_values_of_unswapped_rows sample sample_scrape d)
  end.
  - vm_compute; reflexivity.
  - intros (j & (uid & uids & Hu & Hg & Hj) & Hs).
    vm_compute in Hu. injection Hu as <-.
    vm_compute in Hg. injection Hg as <-.
    vm_compute in Hj. injection Hj as <-.
    vm_compute in Hs. discriminate.
  - vm_compute; reflexivity.
  - reflexivity.
  - reflexivity.
Defined.

Lemma apply_results_swapped_cells df scrape T i :
  aligned df → apply_results df scrape = Ok T → (i < nrows df)%nat →
  swapped_row df scrape i →
  (cell_at T "player_home" i = cell_at df "player_away" i ∧
   cell_at T "player_away" i = cell_at df "player_home" i ∧
   cell_at T "player_home_id" i = cell_at df "player_away_id" i ∧
   cell_at T "player_away_id" i = cell_at df "player_home_id" i) ∧
  (∀ sfx, has_col df ("home_" +:+ sfx) = true →
          has_col df ("away_" +:+ sfx) = true →
          cell_at T ("home_" +:+ sfx) i = cell_at df ("away_" +:+ sfx) i ∧
          cell_at T ("away_" +:+ sfx) i = cell_at df ("home_" +:+ sfx) i) ∧
  (∀ w l, cell_at df "match_score" i = Some (Str (w +:+ "-" +:+ l)) →
          str_in "-" w = false → str_in "-" l = false →
          cell_at T "match_score" i = Some (Str (l +:+ "-" +:+ w))).
Proof.
  intros Hal H Hi (j & (uid & uids & Hu & Hg & Hj) & Hsw).
  destruct (apply_results_loop _ _ _ H) as (uids' & Hg' & Hloop).
  rewrite Hg in Hg'. injection Hg' as <-.
  eapply (apply_loop_swaps df scrape uids); try eassumption.
  - done.
  - apply NoDup_seq.
  - apply elem_of_seq. lia.
  - intros c Hc. by apply aligned_cell.
Qed.



(** X17: [apply_results] loses nothing of the table's shape: every cell of
    the loaded table is a cell of the result, and the only columns the
    result can have besides the loaded ones are [list_date_time] and
    [court_type]. *)
Theorem apply_results_keeps_cells_and_columns (df scrape T : DataFrame) :
  apply_results df scrape = Ok T →
  (∀ c i, is_Some (cell_at df c i) → is_Some (cell_at T c i)) ∧
  (∀ c, has_col T c = true →
        has_col df c = true ∨ c = "list_date_time" ∨ c = "court_type").
Proof.
  intros H.
  destruct (apply_results_loop _ _ _ H) as (uids & Hg & Hloop).
  destruct (apply_loop_local df scrape uids (seq 0 (nrows df)) df T) as (H1 & H2 & _);
    [done|exact Hloop|].
  split; [exact H1|]. intros c Hc.
  destruct (H2 c Hc) as [?|Hin]; [by left|right].
  unfold apply_new_cols in Hin.
  apply elem_of_cons in Hin as [->|Hin]; [by left|].
  apply list_elem_of_singleton in Hin as ->. by right.
Qed.

Lemma apply_results_keeps_cells_witness :
  ∃ T, apply_results swap_example sample_scrape = Ok T ∧
       has_col T "court_type" = true ∧
       (∀ c, has_col T c = true →
             has_col swap_example c = true
             ∨ c = "list_date_time" ∨ c = "court_type").
Proof.
  eexists. split; [vm_compute; reflexivity|].
  split; [vm_compute; reflexivity|].
  match goal with |- ∀ c, has_col ?d _ = _ → _ =>
    apply (apply_results_keeps_cells_and_columns swap_example sample_scrape d)
  end.
  vm_compute; reflexivity.
Defined.

(** ** When the apply step runs through *)

Lemma split_dash_cons s : ∃ p r, split_dash s = p :: r.
Proof.
  induction s as [|a s (p & r & IH)]; [by eexists _, _|].
  cbn [split_dash]. rewrite IH. destruct (Ascii.eqb a "-"); by eexists _, _.
Qed.

Lemma split_dash_two s :
  str_in "-" s = true → ∃ p0 p1 r, split_dash s = p0 :: p1 :: r.
Proof.
  induction s as [|a s IH]; [discriminate|].
  rewrite str_in_dash_cons. cbn [split_dash].
  destruct (Ascii.eqb a "-"); cbn [orb].
  - intros _. destruct (split_dash_cons s) as (p & r & ->). by eexists _, _, _.
  - intros (p0 & p1 & r & ->)%IH. by eexists _, _, _.
Qed.

Lemma for_each_total {A} (Inv : DataFrame → Prop) (xs : list A) body :
  (∀ x S, x ∈ xs → Inv S → ∃ T, body x S = Ok T ∧ Inv T) →
  ∀ S, Inv S → ∃ T, for_each xs body S = Ok T ∧ Inv T.
Proof.
  induction xs as [|x xs IH]; intros Hb S HS; [by exists S|].
  destruct (Hb x S) as (D & HD & HI); [by left|done|].
  destruct (IH (λ y S0 Hy, Hb y S0 ltac:(by right)) D HI)
    as (T & HT & HIT).
  exists T. split; [|done]. rewrite for_each_cons, HD. exact HT.
Qed.

Lemma ser_getitem_is_Some row c :
  is_Some (row c) → ∃ v, ser_getitem row c = Ok v ∧ row c = Some v.
Proof. intros [v Hv]. exists v. unfold ser_getitem. by rewrite Hv. Qed.

Section SwapRuns.

Context (row : Series) (idx : nat).

(** The snapshot has every side column of the table. *)
Local Abbreviation sides_in S :=
  (∀ c, has_col S c = true →
        startswith "home_" c = true ∨ startswith "away_" c = true →
        is_Some (row c)).

Lemma swap_pair_total hc S :
  sides_in S → startswith "home_" hc = true → has_col S hc = true →
  ∃ T, swap_pair row idx hc S = Ok T.
Proof.
  intros Hs Hh Hc. destruct (home_col_split hc Hh) as (sfx & -> & Hac).
  unfold swap_pair. cbv zeta. rewrite Hac.
  destruct (has_col S ("away_" +:+ sfx)) eqn:Ha; [|by eexists].
  destruct (ser_getitem_is_Some row ("away_" +:+ sfx)) as (va & -> & _).
  { apply Hs; [exact Ha|by right]. }
  destruct (ser_getitem_is_Some row ("home_" +:+ sfx)) as (vh & -> & _).
  { apply Hs; [exact Hc|by left]. }
  by eexists.
Qed.

Lemma swap_loop_total cols S :
  sides_in S →
  (∀ h, h ∈ cols → startswith "home_" h = true ∧ has_col S h = true) →
  ∃ T, for_each cols (swap_pair row idx) S = Ok T.
Proof.
  revert S. induction cols as [|h cols IH]; intros S Hs Hcols; [by eexists|].
  destruct (Hcols h) as [Hh Hc]; [by left|].
  destruct (swap_pair_total h S Hs Hh Hc) as (D & HD).
  pose proof (swap_pair_writes row idx _ _ _ Hh Hc HD) as HW.
  destruct (IH D) as (T & HT).
  - intros c Hc'. rewrite (writes_at_has_col _ _ _ _ _ HW) in Hc'. by apply Hs.
  - intros h' Hin. destruct (Hcols h') as [? ?]; [by right|].
    split; [done|]. by rewrite (writes_at_has_col _ _ _ _ _ HW).
  - exists T. by rewrite for_each_cons, HD.
Qed.

Lemma swap_row_total s S :
  snapshot_in row idx S → sides_in S →
  (∀ c, c ∈ ["player_home"; "player_away"; "player_home_id";
             "player_away_id"] → is_Some (row c)) →
  ∃ T, swap_row row s idx S = Ok T.
Proof.
  intros Hsnap Hs Hp. unfold swap_row.
  destruct (bool_decide _); [|by eexists].
  destruct (ser_getitem_is_Some row "player_away") as (pa & -> & Rpa);
    [apply Hp; elem_closed|].
  destruct (ser_getitem_is_Some row "player_home") as (ph & -> & Rph);
    [apply Hp; elem_closed|].
  destruct (ser_getitem_is_Some row "player_away_id") as (pai & -> & Rpai);
    [apply Hp; elem_closed|].
  destruct (ser_getitem_is_Some row "player_home_id") as (phi & -> & Rphi);
    [apply Hp; elem_closed|].
  cbn [mbind result_bind]. cbv zeta.
  assert (Hc : ∀ c v, row c = Some v → has_col S c = true).
  { intros c v Hr. eapply is_Some_cell_has_col. by eapply Hsnap. }
  set (D1 := at_set idx "player_home" pa S).
  set (D2 := at_set idx "player_away" ph D1).
  set (D3 := at_set idx "player_home_id" pai D2).
  set (D4 := at_set idx "player_away_id" phi D3).
  assert (C1 : columns D1 = columns S)
    by (apply columns_at_set_has; by eapply Hc).
  assert (C2 : columns D2 = columns S).
  { unfold D2. rewrite columns_at_set_has; [exact C1|].
    unfold has_col. rewrite C1. by eapply (Hc _ _ Rpa). }
  assert (C3 : columns D3 = columns S).
  { unfold D3. rewrite columns_at_set_has; [exact C2|].
    unfold has_col. rewrite C2. by eapply (Hc _ _ Rphi). }
  assert (C4 : columns D4 = columns S).
  { unfold D4. rewrite columns_at_set_has; [exact C3|].
    unfold has_col. rewrite C3. by eapply (Hc _ _ Rpai). }
  destruct (swap_loop_total
              (filter (λ c, startswith "home_" c) (columns D4)) D4)
    as (D5 & ->).
  { intros c Hc'. apply Hs. unfold has_col in *. by rewrite <- C4. }
  { intros h [Hh Hin]%list_elem_of_filter. split; [by destruct (startswith _ h)|].
    by apply has_col_elem. }
  cbn [mbind result_bind].
  destruct (str_in "-" _) eqn:Hd; [|by eexists].
  destruct (split_dash_two _ Hd) as (p0 & p1 & r & ->). by eexists.
Qed.

End SwapRuns.



(** ** The columns the apply step writes into *)

Lemma cell_at_at_set_ne idx c v df c' i :
  c ≠ c' → cell_at (at_set idx c v df) c' i = cell_at df c' i.
Proof.
  intros Hne. destruct (has_col df c) eqn:Hc.
  - rewrite cell_at_at_set_has by done. by rewrite decide_False by (by intros [? _]).
  - unfold at_set. rewrite Hc. unfold cell_at at 1.
    rewrite lookup_col_alter_col, decide_False by done.
    fold (cell_at (add_nan_col c df) c' i).
    by rewrite cell_at_add_nan_col, decide_False by done.
Qed.

Lemma foldl_frame {A} (c : string) (i : nat)
    (step : DataFrame → A → DataFrame) (xs : list A) :
  (∀ x d, x ∈ xs → cell_at (step d x) c i = cell_at d c i) →
  ∀ df, cell_at (foldl step df xs) c i = cell_at df c i.
Proof.
  induction xs as [|x xs IH]; intros Hs df; [done|].
  simpl. rewrite IH; [apply Hs; by left|].
  intros y d Hy. apply Hs. by right.
Qed.

Section BackfillFrame.

Context (scols : list string) (row s : Series) (idx : nat).
Context (c : string) (i : nat) (Hc : c ∉ backfill_cols).

Lemma at_set_frame c' v d :
  c' ∈ backfill_cols → cell_at (at_set idx c' v d) c i = cell_at d c i.
Proof. intros Hin. apply cell_at_at_set_ne. by intros ->. Qed.

Lemma fill_tb_frame set_n side df :
  set_n ∈ SETS → side ∈ SIDES →
  cell_at (fill_tb scols row s idx set_n side df) c i = cell_at df c i.
Proof.
  intros Hn Hs. unfold fill_tb. cbv zeta.
  destruct (_ && _); [|reflexivity].
  destruct (s _); [|reflexivity].
  destruct (_ && _); [|reflexivity].
  apply at_set_frame. unfold SETS in Hn. unfold SIDES in Hs.
  elem_cases Hn; elem_cases Hs; unfold backfill_cols; elem_closed.
Qed.

Lemma fill_time_frame item df :
  item ∈ time_map →
  cell_at (fill_time scols row s idx item df) c i = cell_at df c i.
Proof.
  intros Hin. unfold fill_time. cbv zeta.
  destruct (_ && _); [|reflexivity].
  destruct (s _); [|reflexivity].
  destruct (_ && _); [|reflexivity].
  apply at_set_frame. unfold time_map in Hin.
  elem_cases Hin; unfold backfill_cols; elem_closed.
Qed.

Lemma fill_date_time_frame df :
  cell_at (fill_date_time row s idx df) c i = cell_at df c i.
Proof.
  unfold fill_date_time.
  destruct (s _); [|reflexivity].
  destruct (_ && _); [|reflexivity].
  apply at_set_frame. unfold backfill_cols. elem_closed.
Qed.

Lemma fill_surface_frame df :
  cell_at (fill_surface scols row s idx df) c i = cell_at df c i.
Proof.
  unfold fill_surface.
  destruct (bool_decide _); [|reflexivity].
  destruct (s _); [|reflexivity].
  destruct (negb _); [|reflexivity]. cbv zeta.
  assert (Hd : cell_at (if has_col df "court_type" then df
                        else add_nan_col "court_type" df) c i
               = cell_at df c i).
  { destruct (has_col df "court_type") eqn:Hb; [reflexivity|].
    rewrite cell_at_add_nan_col by done.
    rewrite decide_False; [reflexivity|].
    intros <-. apply Hc. unfold backfill_cols. elem_closed. }
  destruct (missing_or_blank _); [|exact Hd].
  rewrite at_set_frame; [exact Hd|]. unfold backfill_cols. elem_closed.
Qed.

Lemma backfill_row_frame df :
  cell_at (backfill_row scols row s idx df) c i = cell_at df c i.
Proof.
  unfold backfill_row. cbv zeta.
  rewrite fill_surface_frame, fill_date_time_frame.
  rewrite foldl_frame by (intros; by apply fill_time_frame).
  apply foldl_frame. intros set_n d Hn.
  apply foldl_frame. intros side d' Hs. by apply fill_tb_frame.
Qed.

End BackfillFrame.

Lemma apply_target_false c :
  apply_target c = false →
  (c ∉ backfill_cols) ∧ (c ∉ swap_cols) ∧
  startswith "home_" c = false ∧ startswith "away_" c = false.
Proof.
  unfold apply_target.
  intros [[[H1 H2]%orb_false_iff H3]%orb_false_iff H4]%orb_false_iff.
  apply bool_decide_eq_false in H1, H2. done.
Qed.

Lemma apply_row_frame scols row s idx D D' c i :
  snapshot_in row idx D → apply_row scols row s idx D = Ok D' →
  apply_target c = false → cell_at D' c i = cell_at D c i.
Proof.
  intros Hsnap H (Hb & Hs & Hh & Ha)%apply_target_false.
  unfold apply_row in H.
  rewrite <- (backfill_row_frame scols row s idx c i Hb D).
  destruct (decide (s "ha_status" = Some (Str "swapped"))) as [Hsw|Hsw].
  - pose proof (fills_at_local _ _ _ _ _
                  (backfill_row_fills row s idx scols D)) as Hl.
    destruct (swap_row_spec _ _ _ _ _
                (snapshot_in_local _ _ _ _ _ Hl Hsnap) Hsw H) as (HW & _).
    eapply writes_at_other; [exact HW|]. right.
    by apply swapped_value_other.
  - unfold swap_row in H. rewrite bool_decide_eq_false_2 in H by done.
    by apply Ok_inj in H as <-.
Qed.

Lemma apply_loop_frame df scrape uids xs cur T c i :
  (∀ c i, is_Some (cell_at df c i) → is_Some (cell_at cur c i)) →
  for_each xs (λ idx cur,
    let row := iterrow df idx in
    uid ← ser_getitem row "match_uid";
    match index_of uid uids with
    | None => Ok cur
    | Some j => apply_row (columns scrape) row (iterrow scrape j) idx cur
    end) cur = Ok T →
  apply_target c = false → cell_at T c i = cell_at cur c i.
Proof.
  intros Hk H Ht. revert cur Hk H.
  induction xs as [|x xs IH]; intros cur Hk H.
  - cbn in H. by apply Ok_inj in H as <-.
  - rewrite for_each_cons in H. inv_bind H. rename a into D.
    destruct (apply_body_local df scrape uids _ _ _ Hk E) as [[Hl1 _] _].
    rewrite (IH D) by auto.
    destruct (apply_body_cases df scrape uids _ _ _ E)
      as (uid & Hu & [[_ ->]|(j & _ & Ha)]); [done|].
    eapply apply_row_frame; [|exact Ha|exact Ht].
    intros c' v Hr. apply Hk. unfold iterrow in Hr. by rewrite Hr.
Qed.

(** X19: the columns [apply_results] can write into are the six tiebreak
    columns, the four time columns, [list_date_time], [court_type], the
    player names and ids, [match_score], and the columns that start with
    [home_] or [away_]; every cell of any other column is in the result
    what it was in the loaded table. *)
Theorem apply_results_writes_only_targets (df scrape T : DataFrame)
    (c : string) (i : nat) :
  apply_results df scrape = Ok T →
  apply_target c = false →
  cell_at T c i = cell_at df c i.
Proof.
  intros H Ht.
  destruct (apply_results_loop _ _ _ H) as (uids & Hg & Hloop).
  by eapply (apply_loop_frame df scrape uids).
Qed.

Lemma apply_results_targets_witness :
  ∃ T, apply_results sample sample_scrape = Ok T ∧
       cell_at T "tournament" 0 = Some (Str "W15") ∧
       cell_at T "match_uid" 1 = Some (Str "m2").
Proof.
  eexists. split; [vm_compute; reflexivity|].
  split.
  - match goal with |- cell_at ?d _ _ = _ =>
      rewrite (apply_results_writes_only_targets sample sample_scrape d)
    end; vm_compute; reflexivity.
  - vm_compute; reflexivity.
Defined.

(** ** Applying twice *)

Lemma add_nan_col_shape c df :
  aligned df →
  aligned (add_nan_col c df) ∧ nrows (add_nan_col c df) = nrows df.
Proof.
  intros Ha. unfold add_nan_col, aligned in *.
  destruct df as [|[c1 vs] df]; cbn [app nrows] in *.
  - split; [|reflexivity]. by repeat constructor.
  - split; [|reflexivity]. apply Forall_cons in Ha as [H1 H2].
    constructor; [exact H1|]. apply Forall_app. split; [exact H2|].
    repeat constructor. cbn. by rewrite length_replicate.
Qed.

Lemma at_set_shape idx c v df :
  aligned df →
  aligned (at_set idx c v df) ∧ nrows (at_set idx c v df) = nrows df.
Proof.
  intros Ha.
  assert (Hhas : ∀ d, aligned d → has_col d c = true →
            aligned (at_set idx c v d) ∧ nrows (at_set idx c v d) = nrows d).
  { intros d Hd Hc. unfold at_set. rewrite Hc.
    assert (Hr : df_rel (λ _ _ _, True) d
                   (alter_col (λ vs, <[idx := v]> vs) c d)).
    { apply alter_col_rel; [done|]. intros vs _.
      apply Forall2_true; [done|]. by rewrite length_insert. }
    split; [by eapply df_rel_aligned|by eapply df_rel_nrows]. }
  destruct (has_col df c) eqn:Hc; [by apply Hhas|].
  destruct (add_nan_col_shape c df Ha) as [Ha' Hn'].
  assert (Hc' : has_col (add_nan_col c df) c = true).
  { rewrite has_col_add_nan_col, bool_decide_eq_true_2 by done.
    apply orb_true_r. }
  destruct (Hhas _ Ha' Hc') as [H1 H2].
  replace (at_set idx c v df) with (at_set idx c v (add_nan_col c df)).
  - split; [done|congruence].
  - unfold at_set. by rewrite Hc, Hc'.
Qed.

(** The table is aligned and has [n] rows. *)
Local Abbreviation shaped n df := (aligned df ∧ nrows df = n).

Lemma at_set_shaped n idx c v df : shaped n df → shaped n (at_set idx c v df).
Proof.
  intros [Ha Hn]. destruct (at_set_shape idx c v df Ha). split; congruence.
Qed.

Lemma foldl_shaped {A} n (step : DataFrame → A → DataFrame) (xs : list A) :
  (∀ x d, shaped n d → shaped n (step d x)) →
  ∀ df, shaped n df → shaped n (foldl step df xs).
Proof.
  intros Hs. induction xs as [|x xs IH]; intros df Hd; [done|].
  simpl. by apply IH, Hs.
Qed.

Lemma fill_tb_shaped n scols row s idx set_n side df :
  shaped n df → shaped n (fill_tb scols row s idx set_n side df).
Proof.
  intros Hd. unfold fill_tb. cbv zeta.
  destruct (_ && _); [|done]. destruct (s _); [|done].
  destruct (_ && _); [|done]. by apply at_set_shaped.
Qed.

Lemma fill_time_shaped n scols row s idx item df :
  shaped n df → shaped n (fill_time scols row s idx item df).
Proof.
  intros Hd. unfold fill_time. cbv zeta.
  destruct (_ && _); [|done]. destruct (s _); [|done].
  destruct (_ && _); [|done]. by apply at_set_shaped.
Qed.

Lemma fill_date_time_shaped n row s idx df :
  shaped n df → shaped n (fill_date_time row s idx df).
Proof.
  intros Hd. unfold fill_date_time. destruct (s _); [|done].
  destruct (_ && _); [|done]. by apply at_set_shaped.
Qed.

Lemma fill_surface_shaped n scols row s idx df :
  shaped n df → shaped n (fill_surface scols row s idx df).
Proof.
  intros Hd. unfold fill_surface.
  destruct (bool_decide _); [|done]. destruct (s _); [|done].
  destruct (negb _); [|done]. cbv zeta.
  assert (H4 : shaped n (if has_col df "court_type" then df
                         else add_nan_col "court_type" df)).
  { destruct (has_col df "court_type") eqn:Hc; [done|].
    destruct Hd as [Ha Hn].
    destruct (add_nan_col_shape "court_type" df Ha). split; congruence. }
  destruct (missing_or_blank _); [|done]. by apply at_set_shaped.
Qed.

Lemma backfill_row_shaped n scols row s idx df :
  shaped n df → shaped n (backfill_row scols row s idx df).
Proof.
  intros Hd. unfold backfill_row. cbv zeta.
  apply fill_surface_shaped, fill_date_time_shaped.
  apply foldl_shaped; [intros; by apply fill_time_shaped|].
  apply foldl_shaped; [|done]. intros set_n d Hd'.
  apply foldl_shaped; [|done]. intros side d' Hd''. by apply fill_tb_shaped.
Qed.

Lemma for_each_inv {A} (Inv : DataFrame → Prop) (xs : list A) body :
  (∀ x S T, Inv S → body x S = Ok T → Inv T) →
  ∀ S T, Inv S → for_each xs body S = Ok T → Inv T.
Proof.
  intros Hb. induction xs as [|x xs IH]; intros S T HS H.
  - cbn in H. by apply Ok_inj in H as <-.
  - rewrite for_each_cons in H. inv_bind H. eapply IH; [|exact H].
    by eapply Hb.
Qed.

Lemma swap_row_shaped n row s idx D D' :
  shaped n D → swap_row row s idx D = Ok D' → shaped n D'.
Proof.
  intros Hd H. unfold swap_row in H.
  destruct (bool_decide _); [|by apply Ok_inj in H as <-].
  inv_bind H. cbv zeta in H.
  match type of E3 with for_each _ _ ?d = _ =>
    assert (H4 : shaped n d) by (by do 4 apply at_set_shaped)
  end.
  assert (H5 : shaped n a3).
  { eapply (for_each_inv (λ d, shaped n d)); [|exact H4|exact E3].
    intros hc S T HS Hp. unfold swap_pair in Hp. cbv zeta in Hp.
    destruct (has_col S _); [|by apply Ok_inj in Hp as <-].
    inv_bind Hp. apply Ok_inj in Hp as <-. by do 2 apply at_set_shaped. }
  destruct (str_in _ _); [|by apply Ok_inj in H as <-].
  destruct (_ !! 1%nat); [|discriminate].
  destruct (_ !! 0%nat); [|discriminate].
  apply Ok_inj in H as <-. by apply at_set_shaped.
Qed.

Lemma apply_results_shaped df scrape T :
  aligned df → apply_results df scrape = Ok T →
  aligned T ∧ nrows T = nrows df.
Proof.
  intros Ha H.
  destruct (apply_results_loop _ _ _ H) as (uids & Hg & Hloop).
  eapply (for_each_inv (λ d, shaped (nrows df) d)); [|split; done|exact Hloop].
  intros x S D HS Hb. cbv beta zeta in Hb. inv_bind Hb.
  destruct (index_of _ _); [|by apply Ok_inj in Hb as <-].
  unfold apply_row in Hb.
  eapply swap_row_shaped; [|exact Hb]. by apply backfill_row_shaped.
Qed.



(** ** The player id of a link *)

Lemma span_spec p s x r :
  span p s = (x, r) →
  all_chars p x = true ∧ s = x +:+ r ∧ starts_outside p r = true.
Proof.
  revert x r. induction s as [|a s IH]; intros x r H; cbn in H.
  - by injection H as <- <-.
  - destruct (p a) eqn:Ha.
    + destruct (span p s) as [x' r'] eqn:E. injection H as <- <-.
      destruct (IH _ _ eq_refl) as (H1 & H2 & H3).
      cbn. rewrite Ha, H1. split; [done|]. split; [|done].
      change (String a x' +:+ r') with (String a (x' +:+ r')). congruence.
    + injection H as <- <-. cbn. by rewrite Ha.
Qed.

Lemma span_app p x r :
  all_chars p x = true → starts_outside p r = true →
  span p (x +:+ r) = (x, r).
Proof.
  intros Hx Hr. induction x as [|a x IH].
  - change (EmptyString +:+ r) with r.
    destruct r as [|b r]; [done|]. cbn [span starts_outside] in *.
    by apply negb_true_iff in Hr as ->.
  - cbn [all_chars] in Hx. apply andb_true_iff in Hx as [Ha Hx].
    change (String a x +:+ r) with (String a (x +:+ r)). cbn [span].
    by rewrite Ha, (IH Hx).
Qed.

Lemma match_name_id_alnum s id :
  match_name_id s = Some id →
  nonempty id = true ∧ all_chars is_alnum id = true.
Proof.
  unfold match_name_id. destruct (span not_slash s) as [[|a x] [|b r]]; try done.
  destruct (span is_alnum r) as [[|c id'] r'] eqn:E; [done|].
  intros [= <-]. split; [done|]. by destruct (span_spec _ _ _ _ E).
Qed.

Lemma search_player_alnum s id :
  search_player s = Some id →
  nonempty id = true ∧ all_chars is_alnum id = true.
Proof.
  induction s as [|a s IH]; cbn [search_player]; cbv zeta.
  - destruct (if startswith _ _ then _ else _) eqn:E; [|done].
    intros [= <-]. destruct (startswith _ _); [|done].
    by apply match_name_id_alnum in E.
  - destruct (if startswith _ _ then _ else _) eqn:E; [|exact IH].
    intros [= <-]. destruct (startswith _ _); [|done].
    by apply match_name_id_alnum in E.
Qed.

(** X21: what [extract_id_from_href] returns is [None] or a string of
    letters and digits that is not empty; so an id that reaches the
    classifier from a link is truthy whenever it is there. *)
Theorem extract_id_is_alphanumeric (href : pystr) (id : string) :
  extract_id_from_href href = Some id →
  truthy (Some id) = true ∧ all_chars is_alnum id = true.
Proof.
  unfold extract_id_from_href. destruct href as [s|]; [|done].
  destruct (truthy (Some s)); [|done].
  intros [Hn Ha]%search_player_alnum. split; [by destruct id|done].
Qed.

Lemma extract_id_is_alphanumeric_witness :
  extract_id_from_href (Some "/player/smith-anna/AbC123x/?tab=1")
  = Some "AbC123x" ∧
  truthy (Some "AbC123x") = true ∧ all_chars is_alnum "AbC123x" = true.
Proof.
  split; [vm_compute; reflexivity|].
  apply (extract_id_is_alphanumeric (Some "/player/smith-anna/AbC123x/?tab=1")).
  vm_compute; reflexivity.
Defined.

Lemma search_player_here name id rest :
  nonempty name = true → all_chars not_slash name = true →
  nonempty id = true → all_chars is_alnum id = true →
  starts_outside is_alnum rest = true →
  search_player ("/player/" +:+ name +:+ "/" +:+ id +:+ rest) = Some id.
Proof.
  intros Hn Hns Hi Hia Hr.
  assert (Hm : match_name_id (name +:+ "/" +:+ id +:+ rest) = Some id).
  { unfold match_name_id. rewrite (span_app not_slash name) by done.
    destruct name as [|a name]; [done|].
    change ("/" +:+ id +:+ rest) with (String "/" (id +:+ rest)).
    cbv beta iota.
    rewrite (span_app is_alnum id rest) by done. by destruct id. }
  change ("/player/" +:+ name +:+ "/" +:+ id +:+ rest)
    with (String "/" (String "p" (String "l" (String "a" (String "y"
           (String "e" (String "r" (String "/"
              (name +:+ "/" +:+ id +:+ rest))))))))).
  cbn [search_player startswith Ascii.eqb Bool.eqb str_drop]. cbv zeta.
  by rewrite Hm.
Qed.

(** X22: from a link of the documented form, a prefix without [/p], then
    [/player/], a name without a slash, a slash and an id of letters and
    digits, [extract_id_from_href] returns exactly the id, whatever follows
    the id that is not a letter or digit. *)
Theorem extract_id_of_player_link (pre name id rest : string) :
  str_in "/p" pre = false →
  nonempty name = true → all_chars not_slash name = true →
  nonempty id = true → all_chars is_alnum id = true →
  starts_outside is_alnum rest = true →
  extract_id_from_href
    (Some (pre +:+ "/player/" +:+ name +:+ "/" +:+ id +:+ rest))
  = Some id.
Proof.
  intros Hp Hn Hns Hi Hia Hr.
  set (X := "/player/" +:+ name +:+ "/" +:+ id +:+ rest).
  assert (HX : search_player X = Some id) by by apply search_player_here.
  unfold extract_id_from_href.
  assert (truthy (Some (pre +:+ X)) = true) as ->.
  { destruct pre; [|done]. reflexivity. }
  induction pre as [|a pre IH]; [exact HX|].
  change (String a pre +:+ X) with (String a (pre +:+ X)).
  cbn [str_in] in Hp. apply orb_false_iff in Hp as [Hst Hp].
  cbn [search_player]. cbv zeta.
  assert (startswith "/player/" (String a (pre +:+ X)) = false) as ->;
    [|by apply IH].
  cbn [startswith] in Hst |- *.
  destruct (Ascii.eqb "/" a); [|done].
  destruct pre as [|b pre]; [reflexivity|].
  change (String b pre +:+ X) with (String b (pre +:+ X)). cbn [startswith].
  by destruct (Ascii.eqb "p" b).
Qed.

Lemma extract_id_of_player_link_witness :
  extract_id_from_href
    (Some "https://www.flashscore.com/player/smith-anna/AbC123x/")
  = Some "AbC123x".
Proof.
  apply (extract_id_of_player_link "https://www.flashscore.com"
           "smith-anna" "AbC123x" "/"); vm_compute; reflexivity.
Defined.

(** ** The shards of a run *)

Lemma slice_step_lookup {A} (step : nat) (l : list A) (skip j : nat) :
  (0 < step)%nat →
  slice_step skip step l !! j = l !! (skip + j * step)%nat.
Proof.
  intros Hs. revert skip j. induction l as [|x l IH]; intros skip j; [done|].
  destruct skip as [|k]; cbn [slice_step].
  - destruct j as [|j]; [done|]. cbn [lookup list_lookup]. rewrite IH.
    replace (0 + S j * step)%nat with (S (step - 1 + j * step)) by lia.
    done.
  - rewrite IH. done.
Qed.

(** X23: the shards of a run split the loaded table: with a positive number
    of shards, row [j] of shard [k] is row [k + j * total_shards] of the
    table, every row of the table is in some shard, and in one only. *)
Theorem shards_partition_the_rows (total_shards : nat) (df : DataFrame) :
  (0 < total_shards)%nat →
  (∀ k, ∃ S, shard_rows k total_shards df = Some S ∧
     ∀ c j, cell_at S c j = cell_at df c (k + j * total_shards)%nat) ∧
  (∀ i, ∃ k j, (k < total_shards)%nat ∧ i = (k + j * total_shards)%nat) ∧
  (∀ k j k' j', (k < total_shards)%nat → (k' < total_shards)%nat →
     (k + j * total_shards = k' + j' * total_shards)%nat → k = k' ∧ j = j').
Proof.
  intros Ht. split; [|split].
  - intros k. unfold shard_rows. rewrite decide_False by lia.
    eexists. split; [reflexivity|]. intros c j. unfold cell_at.
    induction df as [|[c1 vs] df IH]; [done|].
    cbn [fmap list_fmap lookup_col fst snd].
    destruct (decide (c1 = c)); [|exact IH].
    cbn. by apply slice_step_lookup.
  - intros i. exists (i mod total_shards)%nat, (i / total_shards)%nat.
    split; [apply Nat.mod_upper_bound; lia|].
    rewrite (Nat.div_mod_eq i total_shards) at 1. lia.
  - intros k j k' j' Hk Hk' He.
    assert (j = j') as ->; [|lia]. nia.
Qed.

Lemma shards_partition_witness :
  ∃ S, shard_rows 1 2 sample = Some S ∧
       cell_at S "match_uid" 0 = Some (Str "m2").
Proof.
  destruct (shards_partition_the_rows 2 sample) as (H & _); [lia|].
  destruct (H 1%nat) as (S & HS & Hc).
  exists S. split; [exact HS|]. rewrite Hc. vm_compute; reflexivity.
Defined.
